(** * Employee attrition analyzer: a shallow embedding of [hr.py]

    The development embeds the decision logic of the class
    [EmployeeAttritionAnalyzer] (methods [process_data], [generate_insights],
    [get_summary_stats] and [generate_recommendations]) together with the
    pandas / numpy primitives those methods call, and proves properties of
    the bucketing, the summary statistics, the insight list and the
    recommendation list.

    Numbers are modelled as the code has them: ages, years and counts are
    integers ([Z], [nat]); every percentage and mean is an IEEE-754 binary64
    value, for which the Standard Library's executable specification
    [SpecFloat] (precision 53, maximal exponent 1024) is used.  Strings are
    byte strings holding the UTF-8 encoding of the source's literals; the
    byte-wise lexicographic order of UTF-8 coincides with Python's
    code-point order on [str]. *)

From Stdlib Require Import QArith Qabs Qpower Lqa.
From Stdlib Require Import String Ascii List ZArith Zpower Lia Bool Arith.
From Stdlib Require Import Sorting.Sorted Sorting.Permutation.
From Stdlib Require Import Floats.SpecFloat.
From Stdlib Require Import Numbers.DecimalString.
Import ListNotations.

Local Open Scope string_scope.
Local Open Scope Z_scope.

(** ** binary64 arithmetic *)

Module F64.

Definition prec : Z := 53.
Definition emax : Z := 1024.

Definition float := spec_float.

Definition nan : float := S754_nan.
Definition zero : float := S754_zero false.

(** Conversion of a Python / numpy integer to a double (round to nearest
    even; exact below [2^53]). *)
Definition of_Z (z : Z) : float := binary_normalize prec emax z 0 false.

Definition add : float -> float -> float := SFadd prec emax.
Definition mul : float -> float -> float := SFmul prec emax.
Definition div : float -> float -> float := SFdiv prec emax.

Definition ltb : float -> float -> bool := SFltb.
Definition leb : float -> float -> bool := SFleb.
Definition eqb : float -> float -> bool := SFeqb.
(** [x > y] *)
Definition gtb (x y : float) : bool := SFltb y x.

(** The literals [1.2] and [0.8]: the doubles nearest to 6/5 and 4/5. *)
Definition lit_1_2 : float := Eval vm_compute in div (of_Z 6) (of_Z 5).
Definition lit_0_8 : float := Eval vm_compute in div (of_Z 4) (of_Z 5).

(** *** Formatting with [:.1f]

    Python prints the decimal with one fractional digit that is nearest
    to the exact binary value, ties going to the even digit. *)

Definition round_half_even (n d : Z) : Z :=
    let q := n / d in
    match (2 * (n mod d)) ?= d with
    | Lt => q
    | Gt => q + 1
    | Eq => if Z.even q then q else q + 1
    end.

(** [tenths m e] is [m * 2^e * 10] rounded to an integer. *)
Definition tenths (m : positive) (e : Z) : Z :=
    if 0 <=? e then Zpos m * 2 ^ e * 10
    else round_half_even (Zpos m * 10) (2 ^ (- e)).

Definition string_of_Z (z : Z) : string :=
    NilZero.string_of_int (Z.to_int z).

Definition sign_string (s : bool) : string := if s then "-" else "".

Definition format_1f (x : float) : string :=
    match x with
    | S754_nan => "nan"
    | S754_infinity s => sign_string s ++ "inf"
    | S754_zero s => sign_string s ++ "0.0"
    | S754_finite s m e =>
        let t := tenths m e in
        sign_string s ++ string_of_Z (t / 10) ++ "." ++ string_of_Z (t mod 10)
    end.

End F64.

Abbreviation float := F64.float.

(** ** Python faults *)

Inductive exn : Set :=
| IndexError   (* positional indexer out of bounds: [.iloc[0]], [.index[0]] *)
| TypeError.   (* subscripting [None] *)

Inductive outcome (A : Type) : Type :=
| Returns (a : A)
| Raises (e : exn).
Arguments Returns {A} a.
Arguments Raises {A} e.

Definition obind {A B} (c : outcome A) (k : A -> outcome B) : outcome B :=
  match c with
  | Returns a => k a
  | Raises e => Raises e
  end.

Notation "x <- c ;; k" := (obind c (fun x => k))
  (at level 61, c at next level, right associativity).

(** ** The data model

    One departure record, with the columns of the data frame:
    employee number, gender, age, department, reason, year of leaving,
    years of service and monthly salary. *)

Record Employee : Type := mkEmployee {
  emp_id : Z;
  gender : string;
  age : Z;
  department : string;
  reason : string;
  leave_year : Z;
  service_years : float;
  monthly_salary : float
}.

(** A processed row: the record and its three category columns.  A
    category that [pd.cut] leaves as NaN is [None]. *)
Record Row : Type := mkRow {
  emp : Employee;
  age_group : option string;
  service_group : option string;
  salary_group : option string
}.

Definition DataFrame := list Employee.
Definition Processed := list Row.

Definition MALE : string := "ذكر".
Definition FEMALE : string := "أنثى".

(** ** [pd.cut] with explicit labels

    [pd.cut(x, bins, labels)] is called with its defaults [right=True] and
    [include_lowest=False]: pandas computes
    [ids = bins.searchsorted(x, side='left')], masks [ids == 0] and
    [ids == len(bins)] as missing, and otherwise takes [labels[ids - 1]]. *)

Section Cut.
Context {A : Type}.
Variable lt : A -> A -> bool.

(** On the sorted [bins], the insertion point on the left of [x] is the
    number of leading edges strictly below [x]. *)
Fixpoint searchsorted_left (bins : list A) (x : A) : nat :=
    match bins with
    | [] => O
    | b :: bs => if lt b x then S (searchsorted_left bs x) else O
    end.

Definition cut (bins : list A) (labels : list string) (x : A) : option string :=
    let ids := searchsorted_left bins x in
    if (Nat.eqb ids 0 || Nat.eqb ids (length bins))%bool then None
    else nth_error labels (ids - 1).
End Cut.

Definition age_bins : list Z := [0; 25; 35; 45; 55; 100].
Definition age_labels : list string :=
  ["أقل من 25"; "25-35"; "35-45"; "45-55"; "أكثر من 55"].

Definition service_bins : list float := map F64.of_Z [0; 1; 3; 5; 10; 100].
Definition service_labels : list string :=
  ["أقل من سنة"; "1-3 سنوات"; "3-5 سنوات"; "5-10 سنوات"; "أكثر من 10 سنوات"].

Definition salary_bins : list float :=
  map F64.of_Z [0; 5000; 8000; 12000; 20000; 100000].
Definition salary_labels : list string :=
  ["أقل من 5000"; "5000-8000"; "8000-12000"; "12000-20000"; "أكثر من 20000"].

Definition age_band (a : Z) : option string := cut Z.ltb age_bins age_labels a.
Definition service_band (t : float) : option string :=
  cut F64.ltb service_bins service_labels t.
Definition salary_band (s : float) : option string :=
  cut F64.ltb salary_bins salary_labels s.

Definition categorize (e : Employee) : Row :=
  {| emp := e;
     age_group := age_band (age e);
     service_group := service_band (service_years e);
     salary_group := salary_band (monthly_salary e) |}.

(** ** pandas primitives used by the analyzer *)

(** [.iloc[0]] of a series and [.index[0]] of an index. *)
Definition iloc0 {A : Type} (l : list A) : outcome A :=
match l with
| [] => Raises IndexError
| x :: _ => Returns x
end.

(** [.iloc[-n:]] and [.iloc[:-n]]. *)
Definition iloc_last {A : Type} (n : nat) (l : list A) : list A :=
skipn (length l - n) l.

Definition iloc_drop_last {A : Type} (n : nat) (l : list A) : list A :=
firstn (length l - n) l.

Definition count (x : string) (l : list string) : nat :=
count_occ string_dec l x.

(** Distinct values in order of first appearance (the order of the hash
    table pandas fills when it factorizes a column). *)
Fixpoint unique (l : list string) : list string :=
match l with
| [] => []
| x :: xs => x :: remove string_dec x (unique xs)
end.

Definition nunique (l : list string) : nat := length (unique l).

Definition max_count (l : list string) : nat :=
fold_right (fun x m => Nat.max (count x l) m) O l.

Fixpoint insert_sorted (x : string) (l : list string) : list string :=
match l with
| [] => [x]
| y :: ys => if String.leb x y then x :: l else y :: insert_sorted x ys
end.

Definition sort_strings (l : list string) : list string :=
fold_right insert_sorted [] l.

(** [Series.mode()]: the most frequent values, sorted ascending. *)
Definition mode (l : list string) : list string :=
sort_strings (filter (fun x => Nat.eqb (count x l) (max_count l)) (unique l)).

(** [Series.value_counts()]: distinct values with their counts, ordered by
    decreasing count.  pandas sorts the table of first appearances by
    count and promises no order among equal counts; here equal counts keep
    the order of first appearance.  The properties below only use that the
    first entry has a maximal count. *)
Fixpoint insert_by_count (p : string * nat) (l : list (string * nat))
  : list (string * nat) :=
match l with
| [] => [p]
| q :: qs =>
    if Nat.leb (snd q) (snd p) then p :: l else q :: insert_by_count p qs
end.

Definition value_counts (l : list string) : list (string * nat) :=
fold_right insert_by_count [] (map (fun x => (x, count x l)) (unique l)).

(** [groupby(year).size()]: one entry per distinct year, ascending, with
    the number of rows of that year. *)
Fixpoint insert_year (y : Z) (l : list (Z * nat)) : list (Z * nat) :=
match l with
| [] => [(y, 1%nat)]
| (k, c) :: rest =>
    match y ?= k with
    | Lt => (y, 1%nat) :: l
    | Eq => (k, S c) :: rest
    | Gt => (k, c) :: insert_year y rest
    end
end.

Definition groupby_size (ys : list Z) : list (Z * nat) :=
fold_left (fun acc y => insert_year y acc) ys [].

(** [Series.mean()] of a boolean column: the integer number of [True]
    divided by the number of rows, NaN when there are no rows. *)
Definition mean_bool (l : list bool) : float :=
match l with
| [] => F64.nan
| _ => F64.div (F64.of_Z (Z.of_nat (count_occ bool_dec l true)))
               (F64.of_Z (Z.of_nat (length l)))
end.

(** [Series.mean()] of an integer column: the sum, accumulated in double
    precision (exact while it stays below [2^53]), divided by the length. *)
Definition mean_Z (l : list Z) : float :=
match l with
| [] => F64.nan
| _ => F64.div (F64.of_Z (fold_right Z.add 0 l))
               (F64.of_Z (Z.of_nat (length l)))
end.

Definition mean_counts (l : list nat) : float := mean_Z (map Z.of_nat l).

(** [(column-predicate).mean() * 100] *)
Definition pct_where (p : Row -> bool) (d : Processed) : float :=
F64.mul (mean_bool (map p d)) (F64.of_Z 100).

Definition is_gender (g : string) (r : Row) : bool := String.eqb (gender (emp r)) g.
Definition is_reason (x : string) (r : Row) : bool := String.eqb (reason (emp r)) x.
Definition is_young (r : Row) : bool := age (emp r) <? 30.
Definition is_short_service (r : Row) : bool :=
F64.ltb (service_years (emp r)) (F64.of_Z 2).

Definition reasons (d : Processed) : list string := map (fun r => reason (emp r)) d.
Definition departments (d : Processed) : list string :=
map (fun r => department (emp r)) d.
Definition years (d : Processed) : list Z := map (fun r => leave_year (emp r)) d.

(** ** The analyzer object *)

Record Analyzer : Type := mkAnalyzer {
  data : option Processed;
  processed_data : option Processed;
  insights : list string
}.

(** [__init__] *)
Definition init : Analyzer :=
{| data := None; processed_data := None; insights := [] |}.

(** *** Insight strings *)

Definition male_warning (male_pct : float) : string :=
"🚨 معدل ترك الذكور مرتفع جداً (" ++ F64.format_1f male_pct ++ "%)".

Definition female_warning (female_pct : float) : string :=
"⚠️ معدل ترك الإناث أعلى من المتوقع (" ++ F64.format_1f female_pct ++ "%)".

Definition top_reason_insight (top_reason : string) (top_reason_pct : float) : string :=
"📊 السبب الأكثر شيوعاً: " ++ top_reason ++ " (" ++ F64.format_1f top_reason_pct ++ "%)".

Definition upward_trend : string :=
"📈 اتجاه تصاعدي واضح في معدل الاستقالات خلال السنوات الأخيرة".

Definition downward_trend : string :=
"📉 انخفاض ملحوظ في معدل الاستقالات مؤخراً".

Definition top_department_insight (dept : string) : string :=
"🏢 أعلى معدل ترك في إدارة: " ++ dept.

Definition young_insight (young_employees : float) : string :=
"👶 نسبة عالية من الموظفين الشباب يتركون العمل (" ++ F64.format_1f young_employees ++ "%)".

Definition short_service_insight (short_service : float) : string :=
"⏰ " ++ F64.format_1f short_service ++ "% من المستقيلين خدموا أقل من سنتين".

(** *** The six rules of [generate_insights], in source order

    Each rule is the list of strings it appends. *)

Definition gender_rule (d : Processed) : list string :=
let male_pct := pct_where (is_gender MALE) d in
let female_pct := pct_where (is_gender FEMALE) d in
if F64.gtb male_pct (F64.of_Z 65) then [male_warning male_pct]
else if F64.gtb female_pct (F64.of_Z 50) then [female_warning female_pct]
else [].

Definition top_reason_of (d : Processed) : outcome string :=
iloc0 (mode (reasons d)).

Definition reason_rule (d : Processed) : outcome (list string) :=
top_reason <- top_reason_of d ;;
let top_reason_pct := pct_where (is_reason top_reason) d in
Returns [top_reason_insight top_reason top_reason_pct].

Definition yearly_trend (d : Processed) : list nat :=
map snd (groupby_size (years d)).

Definition recent_years (d : Processed) : float :=
mean_counts (iloc_last 3 (yearly_trend d)).

Definition earlier_years (d : Processed) : float :=
mean_counts (iloc_drop_last 3 (yearly_trend d)).

Definition trend_rule (d : Processed) : list string :=
if Nat.ltb 1 (length (yearly_trend d)) then
  if F64.gtb (recent_years d) (F64.mul (earlier_years d) F64.lit_1_2)
  then [upward_trend]
  else if F64.ltb (recent_years d) (F64.mul (earlier_years d) F64.lit_0_8)
  then [downward_trend]
  else []
else [].

Definition top_department_of (d : Processed) : outcome string :=
iloc0 (map fst (value_counts (departments d))).

Definition department_rule (d : Processed) : outcome (list string) :=
highest_turnover_dept <- top_department_of d ;;
Returns [top_department_insight highest_turnover_dept].

Definition young_rule (d : Processed) : list string :=
let young_employees := pct_where is_young d in
if F64.gtb young_employees (F64.of_Z 40) then [young_insight young_employees]
else [].

Definition short_service_rule (d : Processed) : list string :=
let short_service := pct_where is_short_service d in
if F64.gtb short_service (F64.of_Z 30) then [short_service_insight short_service]
else [].

(** The body of [generate_insights] once [processed_data] is known not to
    be [None]: the rules run in order, a fault in one aborts the rest. *)
Definition compute_insights (d : Processed) : outcome (list string) :=
let i1 := gender_rule d in
i2 <- reason_rule d ;;
let i3 := trend_rule d in
i4 <- department_rule d ;;
let i5 := young_rule d in
let i6 := short_service_rule d in
Returns (i1 ++ i2 ++ i3 ++ i4 ++ i5 ++ i6)%list.

(** A method is a function from the object to its result and the object
    it leaves behind. *)
Definition method (A : Type) : Type := Analyzer -> outcome A * Analyzer.

Definition generate_insights : method unit :=
fun self =>
  match processed_data self with
  | None => (Returns tt, self)
  | Some d =>
      match compute_insights d with
      | Returns l =>
          (Returns tt,
           {| data := data self; processed_data := processed_data self;
              insights := l |})
      | Raises e => (Raises e, self)
      end
  end.

Definition process_data (df : DataFrame) : method bool :=
fun self =>
  let rows := map categorize df in
  let self1 :=
    {| data := Some rows; processed_data := Some rows;
       insights := insights self |} in
  match generate_insights self1 with
  | (Returns _, self2) => (Returns true, self2)
  | (Raises e, self2) => (Raises e, self2)
  end.

(** *** Summary statistics

    The dictionary returned by [get_summary_stats]; the empty dictionary
    returned when nothing was processed is [None].  The means
    [avg_service] and [avg_salary] of the two floating-point columns are
    numpy reductions (NaN on an empty column, never a fault) whose value
    depends on the order in which the reduction accumulates; they are not
    part of the record below. *)

Record SummaryStatistics : Type := mkStats {
  total : nat;
  male_count : nat;
  female_count : nat;
  male_pct : float;
  female_pct : float;
  avg_age : float;
  years_range : string;
  unique_reasons : nat;
  unique_departments : nat
}.

Definition count_where (p : Row -> bool) (d : Processed) : nat :=
count_occ bool_dec (map p d) true.

(** [count / total * 100 if total > 0 else 0] *)
Definition percentage (cnt tot : nat) : float :=
if Nat.ltb 0 tot
then F64.mul (F64.div (F64.of_Z (Z.of_nat cnt)) (F64.of_Z (Z.of_nat tot)))
             (F64.of_Z 100)
else F64.zero.

(** [str] of a column minimum or maximum: NaN on an empty column. *)
Definition min_string (l : list Z) : string :=
match l with
| [] => "nan"
| y :: ys => F64.string_of_Z (fold_right Z.min y ys)
end.

Definition max_string (l : list Z) : string :=
match l with
| [] => "nan"
| y :: ys => F64.string_of_Z (fold_right Z.max y ys)
end.

Definition summarize (d : Processed) : SummaryStatistics :=
let tot := length d in
let males := count_where (is_gender MALE) d in
let females := count_where (is_gender FEMALE) d in
{| total := tot;
   male_count := males;
   female_count := females;
   male_pct := percentage males tot;
   female_pct := percentage females tot;
   avg_age := mean_Z (map (fun r => age (emp r)) d);
   years_range := min_string (years d) ++ " - " ++ max_string (years d);
   unique_reasons := nunique (reasons d);
   unique_departments := nunique (departments d) |}.

Definition get_summary_stats (self : Analyzer) : option SummaryStatistics :=
match processed_data self with
| None => None
| Some d => Some (summarize d)
end.

(** *** Recommendations *)

Definition REASON_OTHER_JOB : string := "فرصة عمل أخرى".
Definition REASON_SALARY : string := "راتب غير مناسب".
Definition REASON_ENVIRONMENT : string := "بيئة عمل سيئة".

Definition rec_benefits : string := "💼 تحسين حزمة المزايا والرواتب للاحتفاظ بالمواهب".
Definition rec_retention : string := "🎯 تطوير برامج الاحتفاظ بالموظفين المتميزين".
Definition rec_salary_review : string := "💰 مراجعة هيكل الرواتب ومقارنته بالسوق".
Definition rec_salary_study : string := "📊 إجراء دراسة رواتب شاملة".
Definition rec_environment : string := "🏢 تحسين بيئة العمل والثقافة المؤسسية".
Definition rec_communication : string := "🤝 تعزيز التواصل بين الإدارة والموظفين".
Definition rec_onboarding : string := "🎓 تطوير برامج توجيه أفضل للموظفين الجدد".
Definition rec_recruitment : string := "📋 مراجعة عملية التوظيف والاختيار".
Definition rec_male_focus : string := "👨‍💼 التركيز على احتياجات الموظفين الذكور".
Definition rec_work_life : string := "👩‍💼 تطوير برامج دعم التوازن بين العمل والحياة".
Definition rec_department_prefix : string := "🎯 إيلاء اهتمام خاص لإدارة ".

Definition rec_department (top_dept : string) : string :=
rec_department_prefix ++ top_dept.

Definition reason_recommendations (top_reason : string) : list string :=
if String.eqb top_reason REASON_OTHER_JOB then [rec_benefits; rec_retention]
else if String.eqb top_reason REASON_SALARY then [rec_salary_review; rec_salary_study]
else if String.eqb top_reason REASON_ENVIRONMENT then [rec_environment; rec_communication]
else [].

Definition service_recommendations (d : Processed) : list string :=
let short_service_pct := pct_where is_short_service d in
if F64.gtb short_service_pct (F64.of_Z 30) then [rec_onboarding; rec_recruitment]
else [].

Definition gender_recommendation (d : Processed) : list string :=
let male_pct := pct_where (is_gender MALE) d in
if F64.gtb male_pct (F64.of_Z 65) then [rec_male_focus] else [rec_work_life].

Definition compute_recommendations (d : Processed) : outcome (list string) :=
top_reason <- top_reason_of d ;;
let r1 := reason_recommendations top_reason in
let r2 := service_recommendations d in
let r3 := gender_recommendation d in
top_dept <- top_department_of d ;;
Returns (r1 ++ r2 ++ r3 ++ [rec_department top_dept])%list.

(** [generate_recommendations] has no guard: it subscripts
    [self.processed_data] at once. *)
Definition generate_recommendations (self : Analyzer) : outcome (list string) :=
match processed_data self with
| None => Raises TypeError
| Some d => compute_recommendations d
end.

(** ** The order of binary64 values

    [SFcompare] orders the values that are not NaN like the keys below,
    compared lexicographically. *)

Module FOrder.

Definition is_nan (x : float) : bool :=
match x with S754_nan => true | _ => false end.

Definition key (x : float) : Z * Z * Z :=
match x with
| S754_nan => (0, 0, 0)
| S754_zero _ => (0, 0, 0)
| S754_infinity true => (-2, 0, 0)
| S754_infinity false => (2, 0, 0)
| S754_finite true m e => (-1, - e, Zneg m)
| S754_finite false m e => (1, e, Zpos m)
end.

Definition lex3 (a b : Z * Z * Z) : comparison :=
let '(a1, a2, a3) := a in
let '(b1, b2, b3) := b in
match a1 ?= b1 with
| Eq => match a2 ?= b2 with Eq => a3 ?= b3 | c => c end
| c => c
end.

Definition klt (a b : Z * Z * Z) : Prop :=
let '(a1, a2, a3) := a in
let '(b1, b2, b3) := b in
a1 < b1 \/ (a1 = b1 /\ (a2 < b2 \/ (a2 = b2 /\ a3 < b3))).

End FOrder.

(** The double with mantissa [m] and exponent [e], or infinity when the
    exponent is too large. *)
Definition finite_or_inf (m e : Z) : float :=
if e <=? 971 then S754_finite false (Z.to_pos m) e else S754_infinity false.

(** Whether a location tells that bits were lost. *)
Definition inexact (l : location) : Z :=
match l with loc_Exact => 0 | loc_Inexact _ => 1 end.

(** The doubles a mean of counts can be: NaN (no year), zero, or a
    positive double of moderate exponent. *)
Definition moderate (x : float) : Prop :=
x = F64.nan \/ x = F64.zero \/
exists m e, x = S754_finite false m e /\
            2 ^ 52 <= Zpos m < 2 ^ 53 /\ -1000 <= e <= 900.

(** ** Predicates used in the statements *)

(** The orders of the two insertion sorts. *)
Definition sle (a b : string) : Prop := String.leb a b = true.
Definition cge (a b : string * nat) : Prop := (snd b <= snd a)%nat.

(** A most frequent value of a column. *)
Definition is_modal (l : list string) (x : string) : Prop :=
  In x l /\ count x l = max_count l.

(** The two gender warnings are recognised by their fixed opening text,
    the department recommendation by its fixed opening text. *)
Definition is_male_warning (s : string) : bool :=
String.prefix "🚨 معدل ترك الذكور مرتفع جداً (" s.

Definition is_female_warning (s : string) : bool :=
String.prefix "⚠️ معدل ترك الإناث أعلى من المتوقع (" s.

Definition is_gender_warning (s : string) : bool :=
is_male_warning s || is_female_warning s.

Definition is_department_recommendation (s : string) : bool :=
String.prefix rec_department_prefix s.

(** The number of distinct departure years of a data set. *)
Definition distinct_years (d : Processed) : nat :=
length (nodup Z.eq_dec (years d)).

(** The sum of the counts of a [groupby_size] table. *)
Definition total_count (l : list (Z * nat)) : nat :=
  fold_right Nat.add O (map snd l).

(** The count a [groupby_size] table holds for a year. *)
Fixpoint lookup_year (z : Z) (l : list (Z * nat)) : nat :=
match l with
| [] => O
| (k, c) :: rest => if z =? k then c else lookup_year z rest
end.

(** The order of the keys of [groupby_size]. *)
Definition key_lt (a b : Z * nat) : Prop := fst a < fst b.

(** ** Scenarios *)

(** The record of the boundary scenario: 25 years old, one year of
    service, a salary of 5000. *)
Definition boundary_employee : Employee :=
{| emp_id := 1; gender := MALE; age := 25; department := "التسويق";
   reason := REASON_SALARY; leave_year := 2020;
   service_years := F64.of_Z 1; monthly_salary := F64.of_Z 5000 |}.

Fixpoint replicate {A : Type} (n : nat) (x : A) : list A :=
match n with
| O => []
| S k => x :: replicate k x
end.

Definition sample_employee (g r dept : string) (y : Z) : Employee :=
{| emp_id := 0; gender := g; age := 40; department := dept; reason := r;
   leave_year := y; service_years := F64.of_Z 5;
   monthly_salary := F64.of_Z 6000 |}.

(** Ten records, seven male and three female. *)
Definition seven_male_three_female : DataFrame :=
(replicate 7 (sample_employee MALE REASON_SALARY "التسويق" 2020) ++
 replicate 3 (sample_employee FEMALE REASON_OTHER_JOB "المبيعات" 2020))%list.

(** Two reasons with five records each, the later one in sort order
    appearing first. *)
Definition tied_reasons : DataFrame :=
(replicate 5 (sample_employee MALE REASON_OTHER_JOB "التسويق" 2020) ++
 replicate 5 (sample_employee MALE REASON_SALARY "التسويق" 2020))%list.

(** Years 2020 to 2024 with 2, 2, 2, 10 and 10 records. *)
Definition rising_years : DataFrame :=
(replicate 2 (sample_employee MALE REASON_SALARY "التسويق" 2020) ++
 replicate 2 (sample_employee MALE REASON_SALARY "التسويق" 2021) ++
 replicate 2 (sample_employee MALE REASON_SALARY "التسويق" 2022) ++
 replicate 10 (sample_employee MALE REASON_SALARY "التسويق" 2023) ++
 replicate 10 (sample_employee MALE REASON_SALARY "التسويق" 2024))%list.

(** One male and two female records. *)
Definition one_male_two_female : DataFrame :=
[sample_employee MALE REASON_SALARY "التسويق" 2020;
 sample_employee FEMALE REASON_SALARY "التسويق" 2020;
 sample_employee FEMALE REASON_SALARY "التسويق" 2020].

(** The analyzer after [process_data] on a data frame. *)
Definition loaded (df : DataFrame) : Analyzer := snd (process_data df init).

(** ** The cleaning steps of [load_sample_data]

    The raw columns are random draws; the cleaning applied to them is
    [np.clip] and, for the two floating-point columns, [np.round]. *)

(** [np.clip(a, lo, hi)] on an integer column: [minimum(maximum(a, lo), hi)]. *)
Definition clip (lo hi a : Z) : Z := Z.min (Z.max a lo) hi.

(** The cleaned age of a raw draw. *)
Definition clean_age (raw : Z) : Z := clip 22 65 raw.

(** *** The floating-point columns

    [np.clip(a, lo, hi)] on a float column keeps a NaN; any other value is
    first raised to [lo] and then lowered to [hi]. *)
Definition npy_max (a b : float) : float :=
if FOrder.is_nan a then a else if F64.gtb a b then a else b.

Definition npy_min (a b : float) : float :=
if FOrder.is_nan a then a else if F64.ltb a b then a else b.

Definition fclip (lo hi a : float) : float := npy_min (npy_max a lo) hi.

(** [np.rint]: the nearest whole number, a tie going to the even one; a
    value whose exponent is not negative is whole already. *)
Definition rint (x : float) : float :=
match x with
| S754_finite s m e =>
    if 0 <=? e then x
    else
      let n := F64.round_half_even (Zpos m) (2 ^ (- e)) in
      if n =? 0 then S754_zero s else F64.of_Z (if s then - n else n)
| _ => x
end.

(** [np.round(a, 1)]: multiply by ten, [rint], divide by ten;
    [np.round(a, 0)] is [rint]. *)
Definition round_1 (x : float) : float :=
F64.div (rint (F64.mul x (F64.of_Z 10))) (F64.of_Z 10).

(** The literal [0.5]. *)
Definition lit_0_5 : float := Eval vm_compute in F64.div (F64.of_Z 1) (F64.of_Z 2).

(** The cleaned years of service and the cleaned salary of a raw draw. *)
Definition clean_service (raw : float) : float :=
round_1 (fclip lit_0_5 (F64.of_Z 20) raw).

Definition clean_salary (raw : float) : float :=
rint (fclip (F64.of_Z 3000) (F64.of_Z 25000) raw).

(** Whether a value is a binary64 number in its canonical form. *)
Definition is_binary64 (x : float) : bool := valid_binary F64.prec F64.emax x.

(** The tenths from 0.5 to 20.0. *)
Definition tenths_in_range : list Z := map Z.of_nat (seq 5 196).

(** ** The presentation's use of the lists ([main]) *)

(** [l[:len(l)//2]] and [l[len(l)//2:]], the two columns. *)
Definition first_column {A : Type} (l : list A) : list A :=
firstn (length l / 2) l.

Definition second_column {A : Type} (l : list A) : list A :=
skipn (length l / 2) l.

(** [enumerate(l, start)] *)
Fixpoint enumerate {A : Type} (start : nat) (l : list A) : list (nat * A) :=
match l with
| [] => []
| x :: xs => (start, x) :: enumerate (S start) xs
end.

(** The numbered entries of the two recommendation tiers: the first loop
    prints [i+1] over [enumerate(recs[:h])], the second prints [i] over
    [enumerate(recs[h:], h+1)]. *)
Definition immediate_tier (recs : list string) : list (nat * string) :=
map (fun p => (fst p + 1, snd p))%nat (enumerate 0 (first_column recs)).

Definition strategic_tier (recs : list string) : list (nat * string) :=
enumerate (length recs / 2 + 1) (second_column recs).

(** The numbered entries of the exported text,
    [f"{i+1}. {rec}" for i, rec in enumerate(recs)]. *)
Definition export_entries (recs : list string) : list (nat * string) :=
map (fun p => (fst p + 1, snd p))%nat (enumerate 0 recs).

(** [needle in hay] on strings. *)
Fixpoint contains (needle hay : string) : bool :=
String.prefix needle hay ||
match hay with
| EmptyString => false
| String _ rest => contains needle rest
end.

(** The card an insight is shown in. *)
Inductive card : Set := warning_card | insight_card | success_card.

Definition card_of (insight : string) : card :=
if contains "🚨" insight || contains "⚠️" insight then warning_card
else if contains "📈" insight || contains "📉" insight then insight_card
else success_card.

(** Whether no byte of a string is one of the two bytes that the four
    marks tested by [card_of] start with (240 for the siren and the two
    charts, 226 for the warning sign).  Digits, signs, points and Arabic
    letters are such bytes. *)
Fixpoint mark_free (s : string) : bool :=
match s with
| EmptyString => true
| String c rest =>
    negb (Ascii.eqb c "240") && negb (Ascii.eqb c "226") && mark_free rest
end.

(** Whether no occurrence of [needle] can begin inside [lit], whatever
    text follows [lit]. *)
Fixpoint clear_of (needle lit : string) : bool :=
match lit with
| EmptyString => true
| String _ rest =>
    negb (String.prefix needle lit) && negb (String.prefix lit needle)
    && clear_of needle rest
end.

(** [.head(n)] of a table. *)
Definition head {A : Type} (n : nat) (l : list A) : list A := firstn n l.

(** ** Further scenarios *)

(** Three years with 1, 1 and 50 records. *)
Definition three_years : DataFrame :=
(replicate 1 (sample_employee MALE REASON_SALARY "التسويق" 2020) ++
 replicate 1 (sample_employee MALE REASON_SALARY "التسويق" 2021) ++
 replicate 50 (sample_employee MALE REASON_SALARY "التسويق" 2022))%list.

(** Five years with 3 records each. *)
Definition flat_years : DataFrame :=
(replicate 3 (sample_employee MALE REASON_SALARY "التسويق" 2020) ++
 replicate 3 (sample_employee MALE REASON_SALARY "التسويق" 2021) ++
 replicate 3 (sample_employee MALE REASON_SALARY "التسويق" 2022) ++
 replicate 3 (sample_employee MALE REASON_SALARY "التسويق" 2023) ++
 replicate 3 (sample_employee MALE REASON_SALARY "التسويق" 2024))%list.

(** Whether an insight is the short-service note: it is the only insight
    that opens with the clock. *)
Definition is_short_service_insight (s : string) : bool :=
String.prefix "⏰ " s.

(** The six recommendations tied to a dominant reason. *)
Definition reason_specific : list string :=
[rec_benefits; rec_retention; rec_salary_review; rec_salary_study;
 rec_environment; rec_communication].

(** ** The exact value of a double

    The rational number a finite binary64 value stands for; the statements
    that compare the code's arithmetic with exact arithmetic use it only
    on finite values. *)
Definition to_Q (x : float) : Q :=
match x with
| S754_finite s m e => (inject_Z (if s then Zneg m else Zpos m) * 2 ^ e)%Q
| _ => 0%Q
end.

(** Six years with 1, 2, 2, 1, 1 and 2 records: the mean of the last three
    counts is exactly 0.8 times the mean of the earlier ones. *)
Definition tied_years : DataFrame :=
(replicate 1 (sample_employee MALE REASON_SALARY "التسويق" 2019) ++
 replicate 2 (sample_employee MALE REASON_SALARY "التسويق" 2020) ++
 replicate 2 (sample_employee MALE REASON_SALARY "التسويق" 2021) ++
 replicate 1 (sample_employee MALE REASON_SALARY "التسويق" 2022) ++
 replicate 1 (sample_employee MALE REASON_SALARY "التسويق" 2023) ++
 replicate 2 (sample_employee MALE REASON_SALARY "التسويق" 2024))%list.

(** * Properties *)

(** ** Facts on the order of doubles *)

Module FOrderFacts.
Import FOrder.

Lemma compare_key (x y : float) :
  is_nan x = false -> is_nan y = false ->
  SFcompare x y = Some (lex3 (key x) (key y)).
Proof.
  destruct x as [sx|sx| |sx mx ex], y as [sy|sy| |sy my ey];
    try discriminate; intros _ _;
    try destruct sx; try destruct sy; try reflexivity; simpl.
  rewrite Z.compare_opp, (Z.compare_antisym ex ey).
  destruct (ex ?= ey); reflexivity.
Qed.

Lemma lex3_lt (a b : Z * Z * Z) : lex3 a b = Lt <-> klt a b.
Proof.
  destruct a as [[a1 a2] a3], b as [[b1 b2] b3]; simpl.
  destruct (Z.compare_spec a1 b1); [ | intuition lia | split; [discriminate | lia ] ].
  destruct (Z.compare_spec a2 b2); [ | intuition lia | split; [discriminate | lia ] ].
  rewrite Z.compare_lt_iff. intuition lia.
Qed.

Lemma lex3_gt (a b : Z * Z * Z) : lex3 a b = Gt <-> klt b a.
Proof.
  destruct a as [[a1 a2] a3], b as [[b1 b2] b3]; simpl.
  destruct (Z.compare_spec a1 b1); [ | split; [discriminate | lia ] | intuition lia ].
  destruct (Z.compare_spec a2 b2); [ | split; [discriminate | lia ] | intuition lia  ].
  rewrite Z.compare_gt_iff. intuition lia.
Qed.

Lemma ltb_spec (x y : float) :
  SFltb x y = true <-> is_nan x = false /\ is_nan y = false /\ klt (key x) (key y).
Proof.
  unfold SFltb.
  destruct (is_nan x) eqn:Hx.
  { destruct x; try discriminate. simpl. split; [discriminate | intros (? & _); discriminate]. }
  destruct (is_nan y) eqn:Hy.
  { destruct y; try discriminate. destruct x; simpl; (split; [discriminate | intros (_ & ? & _); discriminate]). }
  rewrite (compare_key x y Hx Hy), <- lex3_lt.
  destruct (lex3 (key x) (key y)); intuition discriminate.
Qed.

Lemma leb_spec (x y : float) :
  SFleb x y = true <-> is_nan x = false /\ is_nan y = false /\ ~ klt (key y) (key x).
Proof.
  unfold SFleb.
  destruct (is_nan x) eqn:Hx.
  { destruct x; try discriminate. simpl. split; [discriminate | intros (? & _); discriminate]. }
  destruct (is_nan y) eqn:Hy.
  { destruct y; try discriminate. destruct x; simpl; (split; [discriminate | intros (_ & ? & _); discriminate]). }
  rewrite (compare_key x y Hx Hy), <- lex3_gt.
  destruct (lex3 (key x) (key y)); intuition discriminate.
Qed.

Lemma klt_trans (a b c : Z * Z * Z) : klt a b -> klt b c -> klt a c.
Proof.
  destruct a as [[a1 a2] a3], b as [[b1 b2] b3], c as [[c1 c2] c3]; simpl; lia.
Qed.

Lemma klt_irrefl (a : Z * Z * Z) : ~ klt a a.
Proof. destruct a as [[a1 a2] a3]; simpl; lia. Qed.

Lemma nklt_klt_trans (a b c : Z * Z * Z) : ~ klt b a -> klt b c -> klt a c.
Proof.
  destruct a as [[a1 a2] a3], b as [[b1 b2] b3], c as [[c1 c2] c3]; simpl; lia.
Qed.

Lemma klt_nklt_trans (a b c : Z * Z * Z) : klt a b -> ~ klt c b -> klt a c.
Proof.
  destruct a as [[a1 a2] a3], b as [[b1 b2] b3], c as [[c1 c2] c3]; simpl; lia.
Qed.

Lemma ltb_trans (a b c : float) :
  SFltb a b = true -> SFltb b c = true -> SFltb a c = true.
Proof.
  rewrite !ltb_spec. intros (Ha & Hb & Hab) (_ & Hc & Hbc).
  eauto using klt_trans.
Qed.

Lemma leb_ltb_trans (a b c : float) :
  SFleb a b = true -> SFltb b c = true -> SFltb a c = true.
Proof.
  rewrite leb_spec, !ltb_spec. intros (Ha & Hb & Hab) (_ & Hc & Hbc).
  eauto using nklt_klt_trans.
Qed.

Lemma ltb_leb_trans (a b c : float) :
  SFltb a b = true -> SFleb b c = true -> SFltb a c = true.
Proof.
  rewrite leb_spec, !ltb_spec. intros (Ha & Hb & Hab) (_ & Hc & Hbc).
  eauto using klt_nklt_trans.
Qed.

Lemma ltb_asym (a b : float) : SFltb a b = true -> SFltb b a = false.
Proof.
  intros H. destruct (SFltb b a) eqn:E; [ | reflexivity ].
  pose proof (ltb_trans _ _ _ H E) as K.
  apply ltb_spec in K. destruct K as (_ & _ & K). now apply klt_irrefl in K.
Qed.

Lemma leb_not_ltb (a b : float) : SFleb a b = true -> SFltb b a = false.
Proof.
  intros H. destruct (SFltb b a) eqn:E; [ | reflexivity ].
  pose proof (leb_ltb_trans _ _ _ H E) as K.
  apply ltb_spec in K. destruct K as (_ & _ & K). now apply klt_irrefl in K.
Qed.

End FOrderFacts.

(** ** Bucketing ([pd.cut]) *)

Section CutFacts.
Context {A : Type}.
Variable lt : A -> A -> bool.
Hypothesis lt_trans :
  forall a b c, lt a b = true -> lt b c = true -> lt a c = true.

Lemma searchsorted_left_interval (bins : list A) (i : nat) (lo x : A) :
  StronglySorted (fun a b => lt a b = true) bins ->
  nth_error bins i = Some lo ->
  lt lo x = true ->
  (forall hi, nth_error bins (S i) = Some hi -> lt hi x = false) ->
  searchsorted_left lt bins x = S i.
Proof.
  intros Hs. revert i.
  induction Hs as [ | b bs Hs IH Hb ]; intros i Hlo Hx Hhi.
  - destruct i; discriminate.
  - destruct i as [ | i ]; simpl in *.
    + injection Hlo as ->. rewrite Hx. f_equal.
      destruct bs as [ | h bs ]; [ reflexivity | ].
      simpl. now rewrite (Hhi h eq_refl).
    + assert (Hbx : lt b x = true).
      { apply lt_trans with lo; [ | exact Hx ].
        rewrite Forall_forall in Hb. apply Hb.
        eapply nth_error_In; eauto. }
      rewrite Hbx. f_equal. apply IH; auto.
Qed.

Lemma cut_interval (bins : list A) (labels : list string) (i : nat)
      (lo hi x : A) (l : string) :
  StronglySorted (fun a b => lt a b = true) bins ->
  nth_error bins i = Some lo ->
  nth_error bins (S i) = Some hi ->
  nth_error labels i = Some l ->
  lt lo x = true ->
  lt hi x = false ->
  cut lt bins labels x = Some l.
Proof.
  intros Hs Hlo Hhi Hl Hx Hx'. unfold cut.
  rewrite (searchsorted_left_interval bins i lo x Hs Hlo Hx).
  - assert (S i < length bins)%nat
      by (apply nth_error_Some; rewrite Hhi; discriminate).
    change (Nat.eqb (S i) 0) with false.
    destruct (Nat.eqb_spec (S i) (length bins)); [ lia | ].
    simpl. now rewrite Nat.sub_0_r.
  - intros hi' E. rewrite Hhi in E. now injection E as <-.
Qed.

End CutFacts.

Lemma age_bins_sorted : StronglySorted (fun a b => (a <? b) = true) age_bins.
Proof. unfold age_bins. repeat constructor. Qed.

Lemma service_bins_sorted :
  StronglySorted (fun a b => F64.ltb a b = true) service_bins.
Proof. unfold service_bins. repeat constructor. Qed.

Lemma salary_bins_sorted :
  StronglySorted (fun a b => F64.ltb a b = true) salary_bins.
Proof. unfold salary_bins. repeat constructor. Qed.

Lemma age_band_interval (i : nat) (lo hi a : Z) (l : string) :
  nth_error age_bins i = Some lo ->
  nth_error age_bins (S i) = Some hi ->
  nth_error age_labels i = Some l ->
  lo < a <= hi ->
  age_band a = Some l.
Proof.
  intros Hlo Hhi Hl [Ha Hb]. unfold age_band.
  apply cut_interval with (i := i) (lo := lo) (hi := hi); auto.
  - intros x y z Hxy Hyz. apply Z.ltb_lt in Hxy, Hyz. apply Z.ltb_lt. lia.
  - exact age_bins_sorted.
  - now apply Z.ltb_lt.
  - apply Z.ltb_ge. lia.
Qed.

Lemma float_band_interval (bins : list float) (labels : list string)
      (i : nat) (lo hi x : float) (l : string) :
  StronglySorted (fun a b => F64.ltb a b = true) bins ->
  nth_error bins i = Some lo ->
  nth_error bins (S i) = Some hi ->
  nth_error labels i = Some l ->
  F64.ltb lo x = true ->
  F64.leb x hi = true ->
  cut F64.ltb bins labels x = Some l.
Proof.
  intros Hs Hlo Hhi Hl Ha Hb.
  apply cut_interval with (i := i) (lo := lo) (hi := hi); auto.
  - exact FOrderFacts.ltb_trans.
  - now apply FOrderFacts.leb_not_ltb.
Qed.

(** C1, as stated, fails: a record aged exactly 25 is put in the band
    labelled "less than 25", not in "25-35". *)
Lemma age_25_in_lower_band :
  age boundary_employee = 25 /\
  age_group (categorize boundary_employee) = Some "أقل من 25" /\
  age_group (categorize boundary_employee) <> Some "25-35".
Proof. repeat split. discriminate. Qed.

(** C1 (amended): the three band labels follow left-open, right-closed
    intervals between consecutive edges: a value [v] with [lo < v <= hi]
    receives the label of the interval whose upper edge is [hi], so a value
    equal to an interior edge belongs to the lower band. *)
Theorem bands_left_open_right_closed
  (e : Employee) (i j k : nat) (alo ahi : Z) (slo shi mlo mhi : float)
  (la ls lm : string) :
  nth_error age_bins i = Some alo ->
  nth_error age_bins (S i) = Some ahi ->
  nth_error age_labels i = Some la ->
  alo < age e <= ahi ->
  nth_error service_bins j = Some slo ->
  nth_error service_bins (S j) = Some shi ->
  nth_error service_labels j = Some ls ->
  F64.ltb slo (service_years e) = true ->
  F64.leb (service_years e) shi = true ->
  nth_error salary_bins k = Some mlo ->
  nth_error salary_bins (S k) = Some mhi ->
  nth_error salary_labels k = Some lm ->
  F64.ltb mlo (monthly_salary e) = true ->
  F64.leb (monthly_salary e) mhi = true ->
  age_group (categorize e) = Some la /\
  service_group (categorize e) = Some ls /\
  salary_group (categorize e) = Some lm.
Proof.
  intros A1 A2 A3 A4 S1 S2 S3 S4 S5 M1 M2 M3 M4 M5. simpl.
  repeat split.
  - exact (age_band_interval i alo ahi (age e) la A1 A2 A3 A4).
  - exact (float_band_interval _ _ j slo shi _ ls
             service_bins_sorted S1 S2 S3 S4 S5).
  - exact (float_band_interval _ _ k mlo mhi _ lm
             salary_bins_sorted M1 M2 M3 M4 M5).
Qed.

Lemma bands_left_open_right_closed_witness :
  age_group (categorize boundary_employee) = Some "أقل من 25" /\
  service_group (categorize boundary_employee) = Some "أقل من سنة" /\
  salary_group (categorize boundary_employee) = Some "أقل من 5000".
Proof.
  apply (bands_left_open_right_closed boundary_employee 0 0 0
           0 25 (F64.of_Z 0) (F64.of_Z 1) (F64.of_Z 0) (F64.of_Z 5000));
    try reflexivity.
  simpl; lia.
Defined.

(** ** Strings: order and prefixes *)

Lemma ascii_compare_N (a b : ascii) :
  Ascii.compare a b = N.compare (N_of_ascii a) (N_of_ascii b).
Proof. reflexivity. Qed.

Lemma string_compare_lt_trans (a b c : string) :
  String.compare a b = Lt -> String.compare b c = Lt -> String.compare a c = Lt.
Proof.
  revert b c. induction a as [ | x a IH ]; intros [ | y b ] [ | z c ];
    simpl; try discriminate; auto.
  rewrite !ascii_compare_N.
  destruct (N.compare_spec (N_of_ascii x) (N_of_ascii y)) as [E1 | L1 | G1];
    try discriminate;
    destruct (N.compare_spec (N_of_ascii y) (N_of_ascii z)) as [E2 | L2 | G2];
    try discriminate; intros H1 H2.
  - rewrite E1, E2, N.compare_refl. eauto.
  - rewrite E1. now apply N.compare_lt_iff in L2 as ->.
  - rewrite <- E2. now apply N.compare_lt_iff in L1 as ->.
  - assert (L : (N_of_ascii x < N_of_ascii z)%N) by lia.
    now apply N.compare_lt_iff in L as ->.
Qed.

Lemma string_leb_refl (a : string) : String.leb a a = true.
Proof.
  destruct (String.leb_total a a); assumption.
Qed.

Lemma string_leb_trans (a b c : string) :
  String.leb a b = true -> String.leb b c = true -> String.leb a c = true.
Proof.
  unfold String.leb.
  destruct (String.compare a b) eqn:E1; try discriminate;
    destruct (String.compare b c) eqn:E2; try discriminate; intros _ _.
  - apply String.compare_eq_iff in E1, E2. subst.
    exact (string_leb_refl c).
  - apply String.compare_eq_iff in E1. subst. now rewrite E2.
  - apply String.compare_eq_iff in E2. subst. now rewrite E1.
  - now rewrite (string_compare_lt_trans a b c E1 E2).
Qed.

Lemma prefix_app (p s : string) : String.prefix p (p ++ s) = true.
Proof.
  induction p as [ | c p IH ]; simpl.
  - now destruct s.
  - destruct (ascii_dec c c); [ exact IH | congruence ].
Qed.

(** ** Lists: distinct values, counts, mode and frequency table *)

Lemma unique_In (x : string) (l : list string) : In x (unique l) <-> In x l.
Proof.
  induction l as [ | y l IH ]; simpl; [ tauto | ].
  split.
  - intros [ -> | H ]; [ now left | ].
    apply in_remove in H. right. now apply IH.
  - intros [ -> | H ]; [ now left | ].
    destruct (string_dec x y) as [ -> | N ]; [ now left | right ].
    apply in_in_remove; [ exact N | now apply IH ].
Qed.

Lemma unique_nonempty (l : list string) : l <> [] -> unique l <> [].
Proof. destruct l; simpl; congruence. Qed.

Lemma count_notin (x : string) (l : list string) : ~ In x l -> count x l = O.
Proof. intros H. now apply count_occ_not_In. Qed.

Section FoldMax.
Variable f : string -> nat.

Lemma fold_max_ge (l : list string) (x : string) :
  In x l -> (f x <= fold_right (fun y m => Nat.max (f y) m) O l)%nat.
Proof.
  induction l as [ | y l IH ]; simpl; [ tauto | ].
  intros [ -> | H ]; [ lia | ]. specialize (IH H). lia.
Qed.

Lemma fold_max_attained (l : list string) :
  l <> [] -> exists x, In x l /\ f x = fold_right (fun y m => Nat.max (f y) m) O l.
Proof.
  induction l as [ | y l IH ]; [ congruence | intros _ ].
  destruct l as [ | z l ].
  - exists y. simpl. split; [ now left | lia ].
  - destruct IH as (x & Hx & Ex); [ discriminate | ].
    set (M := fold_right (fun y m => Nat.max (f y) m) O (z :: l)) in *.
    change (fold_right (fun y m => Nat.max (f y) m) O (y :: z :: l))
      with (Nat.max (f y) M).
    destruct (Nat.le_gt_cases M (f y)) as [ L | G ].
    + exists y. split; [ now left | lia ].
    + exists x. split; [ now right | lia ].
Qed.
End FoldMax.

Lemma max_count_ge (l : list string) (x : string) :
  (count x l <= max_count l)%nat.
Proof.
  destruct (in_dec string_dec x l) as [ H | H ].
  - exact (fold_max_ge (fun y => count y l) l x H).
  - rewrite (count_notin x l H). lia.
Qed.

Lemma max_count_attained (l : list string) :
  l <> [] -> exists x, In x l /\ count x l = max_count l.
Proof. exact (fold_max_attained (fun y => count y l) l). Qed.

(** *** Insertion sort on strings *)


Lemma insert_sorted_In (x y : string) (l : list string) :
  In y (insert_sorted x l) <-> y = x \/ In y l.
Proof.
  induction l as [ | z l IH ]; simpl; [ intuition | ].
  destruct (String.leb x z); simpl; rewrite ?IH; intuition.
Qed.

Lemma insert_sorted_sorted (x : string) (l : list string) :
  StronglySorted sle l -> StronglySorted sle (insert_sorted x l).
Proof.
  induction 1 as [ | z l Hs IH Hz ]; simpl.
  - repeat constructor.
  - destruct (String.leb x z) eqn:E.
    + constructor; [ now constructor | ].
      constructor; [ exact E | ].
      eapply Forall_impl; [ | exact Hz ].
      intros a Ha. exact (string_leb_trans x z a E Ha).
    + constructor; [ exact IH | ].
      apply Forall_forall. intros a Ha.
      apply insert_sorted_In in Ha. destruct Ha as [ -> | Ha ].
      * destruct (String.leb_total x z) as [ K | K ]; [ congruence | exact K ].
      * rewrite Forall_forall in Hz. now apply Hz.
Qed.

Lemma sort_strings_In (y : string) (l : list string) :
  In y (sort_strings l) <-> In y l.
Proof.
  induction l as [ | x l IH ]; simpl; [ tauto | ].
  rewrite insert_sorted_In, IH. intuition.
Qed.

Lemma sort_strings_sorted (l : list string) : StronglySorted sle (sort_strings l).
Proof.
  induction l as [ | x l IH ]; simpl; [ constructor | ].
  now apply insert_sorted_sorted.
Qed.

Lemma sort_strings_head (l : list string) (top : string) (rest : list string) :
  sort_strings l = top :: rest ->
  In top l /\ forall y, In y l -> String.leb top y = true.
Proof.
  intros E. split.
  - apply sort_strings_In. rewrite E. now left.
  - intros y Hy. apply sort_strings_In in Hy. rewrite E in Hy.
    pose proof (sort_strings_sorted l) as Hs. rewrite E in Hs.
    inversion Hs as [ | ? ? _ Hall ]; subst.
    destruct Hy as [ <- | Hy ]; [ apply string_leb_refl | ].
    rewrite Forall_forall in Hall. now apply Hall.
Qed.

(** *** [mode] *)


Lemma mode_In (l : list string) (x : string) : In x (mode l) <-> is_modal l x.
Proof.
  unfold mode, is_modal. rewrite sort_strings_In, filter_In, unique_In.
  now rewrite Nat.eqb_eq.
Qed.

(** On a non-empty column [mode().iloc[0]] returns the least of the most
    frequent values. *)
Lemma mode_iloc0 (l : list string) :
  l <> [] ->
  exists top, iloc0 (mode l) = Returns top /\ is_modal l top /\
              forall y, is_modal l y -> String.leb top y = true.
Proof.
  intros Hl. destruct (mode l) as [ | top rest ] eqn:E.
  - destruct (max_count_attained l Hl) as (x & Hx & Ex).
    assert (H : In x (mode l)) by (apply mode_In; now split).
    rewrite E in H. destruct H.
  - exists top. split; [ reflexivity | ].
    unfold mode in E. apply sort_strings_head in E. destruct E as [H1 H2].
    split.
    + apply mode_In. unfold mode. now apply sort_strings_In.
    + intros y Hy. apply H2. apply sort_strings_In.
      fold (mode l). now apply mode_In.
Qed.

Lemma mode_empty : mode [] = [].
Proof. reflexivity. Qed.

(** *** [value_counts] *)


Lemma insert_by_count_In (p q : string * nat) (l : list (string * nat)) :
  In q (insert_by_count p l) <-> q = p \/ In q l.
Proof.
  induction l as [ | z l IH ]; simpl; [ intuition | ].
  destruct (Nat.leb (snd z) (snd p)); simpl; rewrite ?IH; intuition.
Qed.

Lemma insert_by_count_sorted (p : string * nat) (l : list (string * nat)) :
  StronglySorted cge l -> StronglySorted cge (insert_by_count p l).
Proof.
  induction 1 as [ | z l Hs IH Hz ]; simpl.
  - repeat constructor.
  - destruct (Nat.leb_spec (snd z) (snd p)) as [ L | G ].
    + constructor; [ now constructor | ].
      constructor; [ exact L | ].
      eapply Forall_impl; [ | exact Hz ].
      unfold cge. intros a Ha. lia.
    + constructor; [ exact IH | ].
      apply Forall_forall. intros a Ha.
      apply insert_by_count_In in Ha. destruct Ha as [ -> | Ha ].
      * unfold cge. lia.
      * rewrite Forall_forall in Hz. now apply Hz.
Qed.

Lemma value_counts_In (l : list string) (q : string * nat) :
  In q (value_counts l) <-> In (fst q) l /\ snd q = count (fst q) l.
Proof.
  unfold value_counts.
  assert (G : forall u, In q (fold_right insert_by_count []
                               (map (fun x => (x, count x l)) u))
                        <-> In (fst q) u /\ snd q = count (fst q) l).
  { induction u as [ | x u IH ]; simpl; [ tauto | ].
    rewrite insert_by_count_In, IH. destruct q as [a c]; simpl.
    split.
    - intros [ E | H ]; [ injection E as -> ->; auto | tauto ].
    - intros [ [ -> | H ] E ]; [ left; now rewrite E | right; tauto ]. }
  rewrite G, unique_In. tauto.
Qed.

Lemma value_counts_sorted (l : list string) : StronglySorted cge (value_counts l).
Proof.
  unfold value_counts.
  induction (map (fun x => (x, count x l)) (unique l)) as [ | p u IH ]; simpl.
  - constructor.
  - now apply insert_by_count_sorted.
Qed.

(** On a non-empty column [value_counts().index[0]] returns a value of
    the column whose number of rows is maximal. *)
Lemma value_counts_index0 (l : list string) :
  l <> [] ->
  exists top, iloc0 (map fst (value_counts l)) = Returns top /\ In top l /\
              forall y, (count y l <= count top l)%nat.
Proof.
  intros Hl. destruct (value_counts l) as [ | [top c] rest ] eqn:E.
  - destruct l as [ | x l ]; [ congruence | ].
    assert (H : In (x, count x (x :: l)) (value_counts (x :: l))).
    { apply value_counts_In. simpl. auto. }
    rewrite E in H. destruct H.
  - exists top. split; [ reflexivity | ].
    assert (H : In (top, c) (value_counts l)) by (rewrite E; now left).
    apply value_counts_In in H. simpl in H. destruct H as [Ht Hc].
    split; [ exact Ht | ].
    intros y. destruct (in_dec string_dec y l) as [ Hy | Hy ].
    + assert (K : In (y, count y l) (value_counts l)).
      { apply value_counts_In. simpl. auto. }
      rewrite E in K. pose proof (value_counts_sorted l) as Hs. rewrite E in Hs.
      inversion Hs as [ | ? ? _ Hall ]; subst.
      destruct K as [ K | K ].
      * assert (Ey : y = top) by congruence. subst y. lia.
      * rewrite Forall_forall in Hall. apply Hall in K. unfold cge in K.
        simpl in K. lia.
    + rewrite (count_notin y l Hy). lia.
Qed.

(** ** The analyzer on a non-empty data set *)

Lemma mean_bool_nonempty (l : list bool) :
  l <> [] ->
  mean_bool l = F64.div (F64.of_Z (Z.of_nat (count_occ bool_dec l true)))
                        (F64.of_Z (Z.of_nat (length l))).
Proof. destruct l; [ congruence | reflexivity ]. Qed.

(** The percentage of the insight rules is the percentage of the summary. *)
Lemma pct_where_percentage (p : Row -> bool) (d : Processed) :
  d <> [] -> pct_where p d = percentage (count_where p d) (length d).
Proof.
  intros Hd. unfold pct_where, percentage, count_where.
  rewrite mean_bool_nonempty by (destruct d; simpl; congruence).
  rewrite length_map.
  destruct d; [ congruence | reflexivity ].
Qed.

Lemma top_reason_returns (d : Processed) :
  d <> [] ->
  exists top, top_reason_of d = Returns top /\ is_modal (reasons d) top /\
              forall y, is_modal (reasons d) y -> String.leb top y = true.
Proof.
  intros Hd. apply mode_iloc0. destruct d; simpl; congruence.
Qed.

Lemma top_department_returns (d : Processed) :
  d <> [] ->
  exists top, top_department_of d = Returns top /\ In top (departments d) /\
              forall y, (count y (departments d) <= count top (departments d))%nat.
Proof.
  intros Hd. apply value_counts_index0. destruct d; simpl; congruence.
Qed.

Lemma compute_insights_nonempty (d : Processed) :
  d <> [] ->
  exists top dept,
    top_reason_of d = Returns top /\ top_department_of d = Returns dept /\
    compute_insights d =
      Returns (gender_rule d
               ++ [top_reason_insight top (pct_where (is_reason top) d)]
               ++ trend_rule d
               ++ [top_department_insight dept]
               ++ young_rule d ++ short_service_rule d)%list.
Proof.
  intros Hd.
  destruct (top_reason_returns d Hd) as (top & Et & _).
  destruct (top_department_returns d Hd) as (dept & Ed & _).
  exists top, dept. repeat split; auto.
  unfold compute_insights, reason_rule, department_rule.
  rewrite Et, Ed. reflexivity.
Qed.

Lemma compute_recommendations_nonempty (d : Processed) :
  d <> [] ->
  exists top dept,
    top_reason_of d = Returns top /\ top_department_of d = Returns dept /\
    compute_recommendations d =
      Returns (reason_recommendations top ++ service_recommendations d
               ++ gender_recommendation d ++ [rec_department dept])%list.
Proof.
  intros Hd.
  destruct (top_reason_returns d Hd) as (top & Et & _).
  destruct (top_department_returns d Hd) as (dept & Ed & _).
  exists top, dept. repeat split; auto.
  unfold compute_recommendations. rewrite Et, Ed. reflexivity.
Qed.

Lemma gender_rule_length (d : Processed) : (length (gender_rule d) <= 1)%nat.
Proof.
  unfold gender_rule.
  repeat match goal with |- context [if ?b then _ else _] => destruct b end;
    simpl; lia.
Qed.

Lemma trend_rule_length (d : Processed) : (length (trend_rule d) <= 1)%nat.
Proof.
  unfold trend_rule.
  repeat match goal with |- context [if ?b then _ else _] => destruct b end;
    simpl; lia.
Qed.

Lemma young_rule_length (d : Processed) : (length (young_rule d) <= 1)%nat.
Proof.
  unfold young_rule.
  repeat match goal with |- context [if ?b then _ else _] => destruct b end;
    simpl; lia.
Qed.

Lemma short_service_rule_length (d : Processed) :
  (length (short_service_rule d) <= 1)%nat.
Proof.
  unfold short_service_rule.
  repeat match goal with |- context [if ?b then _ else _] => destruct b end;
    simpl; lia.
Qed.

Lemma reason_recommendations_length (top : string) :
  length (reason_recommendations top) = 0%nat \/
  length (reason_recommendations top) = 2%nat.
Proof.
  unfold reason_recommendations.
  repeat match goal with |- context [if ?b then _ else _] => destruct b end;
    simpl; auto.
Qed.

Lemma service_recommendations_length (d : Processed) :
  length (service_recommendations d) = 0%nat \/
  length (service_recommendations d) = 2%nat.
Proof.
  unfold service_recommendations.
  repeat match goal with |- context [if ?b then _ else _] => destruct b end;
    simpl; auto.
Qed.

Lemma gender_recommendation_length (d : Processed) :
  length (gender_recommendation d) = 1%nat.
Proof.
  unfold gender_recommendation.
  repeat match goal with |- context [if ?b then _ else _] => destruct b end;
    reflexivity.
Qed.

(** *** Which strings are gender warnings *)

Lemma male_warning_is_male (x : float) : is_male_warning (male_warning x) = true.
Proof. apply prefix_app. Qed.

Lemma female_warning_is_female (x : float) :
  is_female_warning (female_warning x) = true.
Proof. apply prefix_app. Qed.

Lemma male_warning_not_female (x : float) :
  is_female_warning (male_warning x) = false.
Proof. reflexivity. Qed.

Lemma female_warning_not_male (x : float) :
  is_male_warning (female_warning x) = false.
Proof. reflexivity. Qed.

Lemma top_reason_insight_no_warning (top : string) (x : float) :
  is_gender_warning (top_reason_insight top x) = false.
Proof. reflexivity. Qed.

Lemma top_department_insight_no_warning (dept : string) :
  is_gender_warning (top_department_insight dept) = false.
Proof. reflexivity. Qed.

Lemma trend_rule_no_warning (d : Processed) :
  filter is_gender_warning (trend_rule d) = [].
Proof.
  unfold trend_rule.
  repeat match goal with |- context [if ?b then _ else _] => destruct b end;
    reflexivity.
Qed.

Lemma young_rule_no_warning (d : Processed) :
  filter is_gender_warning (young_rule d) = [].
Proof.
  unfold young_rule.
  repeat match goal with |- context [if ?b then _ else _] => destruct b end;
    reflexivity.
Qed.

Lemma short_service_rule_no_warning (d : Processed) :
  filter is_gender_warning (short_service_rule d) = [].
Proof.
  unfold short_service_rule.
  repeat match goal with |- context [if ?b then _ else _] => destruct b end;
    reflexivity.
Qed.

Lemma gender_rule_all_warnings (d : Processed) :
  filter is_gender_warning (gender_rule d) = gender_rule d.
Proof.
  unfold gender_rule.
  repeat match goal with |- context [if ?b then _ else _] => destruct b end;
    try reflexivity; unfold is_gender_warning; cbn [filter].
  - now rewrite male_warning_is_male.
  - now rewrite female_warning_is_female, orb_true_r.
Qed.

Lemma count_where_reason (top : string) (d : Processed) :
  count_where (is_reason top) d = count top (reasons d).
Proof.
  unfold count_where, count, reasons, is_reason.
  induction d as [ | r d IH ]; simpl; [ reflexivity | ].
  destruct (String.eqb_spec (reason (emp r)) top) as [ E | N ];
    destruct (string_dec (reason (emp r)) top) as [ E' | N' ];
    try congruence; simpl.
  - destruct (bool_dec true true); congruence.
  - destruct (bool_dec false true); congruence.
Qed.

Lemma generate_insights_returns (self : Analyzer) (d : Processed) (l : list string) :
  processed_data self = Some d ->
  compute_insights d = Returns l ->
  generate_insights self =
    (Returns tt,
     {| data := data self; processed_data := processed_data self;
        insights := l |}).
Proof.
  intros Hd Hl. unfold generate_insights. now rewrite Hd, Hl.
Qed.

(** C2 (the code departs from the claim): on a data frame without rows
    nothing short-circuits.  The gender, trend, youth and short-service
    rules find no data and give nothing, but [mode().iloc[0]] of the
    dominant-reason rule and [value_counts().index[0]] of the department
    rule raise [IndexError]; the fault leaves [generate_insights] and
    [process_data], and the insight list stays as it was. *)
Theorem empty_dataset_raises :
  gender_rule [] = [] /\ trend_rule [] = [] /\
  young_rule [] = [] /\ short_service_rule [] = [] /\
  reason_rule [] = Raises IndexError /\
  department_rule [] = Raises IndexError /\
  compute_insights [] = Raises IndexError /\
  process_data [] init =
    (Raises IndexError,
     {| data := Some []; processed_data := Some []; insights := [] |}) /\
  generate_insights (loaded []) = (Raises IndexError, loaded []).
Proof. repeat split. Qed.

(** C6: on a data set without rows [get_summary_stats] returns a record
    (no fault can arise in it) whose total is 0 and whose two percentage
    fields are 0: the division by the total is guarded. *)
Theorem summary_of_empty_dataset (self : Analyzer) :
  processed_data self = Some [] ->
  exists s, get_summary_stats self = Some s /\
            total s = 0%nat /\
            male_pct s = F64.zero /\ female_pct s = F64.zero /\
            male_count s = 0%nat /\ female_count s = 0%nat.
Proof.
  intros H. unfold get_summary_stats. rewrite H.
  eexists. split; [ reflexivity | ]. repeat split.
Qed.

Lemma summary_of_empty_dataset_witness :
  exists s, get_summary_stats (loaded []) = Some s /\
            total s = 0%nat /\
            male_pct s = F64.zero /\ female_pct s = F64.zero /\
            male_count s = 0%nat /\ female_count s = 0%nat.
Proof.
  apply (summary_of_empty_dataset (loaded [])). reflexivity.
Defined.

Section NonEmpty.

Variable self : Analyzer.
Variable d : Processed.
Hypothesis Hdata : processed_data self = Some d.
Hypothesis Hrows : d <> [].

(** C10: on a non-empty data set [generate_insights] stores between 2
    and 6 strings: the dominant-reason rule and the top-department rule
    give one string each, the four other rules at most one each. *)
Theorem insights_length :
  exists l top dept,
    generate_insights self =
      (Returns tt,
       {| data := data self; processed_data := processed_data self;
          insights := l |}) /\
    l = (gender_rule d
         ++ [top_reason_insight top (pct_where (is_reason top) d)]
         ++ trend_rule d
         ++ [top_department_insight dept]
         ++ young_rule d ++ short_service_rule d)%list /\
    (length (gender_rule d) <= 1)%nat /\
    (length (trend_rule d) <= 1)%nat /\
    (length (young_rule d) <= 1)%nat /\
    (length (short_service_rule d) <= 1)%nat /\
    (2 <= length l <= 6)%nat.
Proof.
  destruct (compute_insights_nonempty d Hrows) as (top & dept & _ & _ & E).
  eexists. exists top, dept.
  split; [ exact (generate_insights_returns self d _ Hdata E) | ].
  split; [ reflexivity | ].
  pose proof (gender_rule_length d). pose proof (trend_rule_length d).
  pose proof (young_rule_length d). pose proof (short_service_rule_length d).
  repeat split; auto; rewrite !length_app; simpl; lia.
Qed.

End NonEmpty.

(** ** Recommendations *)

Lemma rec_department_is_department (dept : string) :
  is_department_recommendation (rec_department dept) = true.
Proof. apply prefix_app. Qed.

Lemma reason_recommendations_facts (top : string) :
  count rec_male_focus (reason_recommendations top) = 0%nat /\
  count rec_work_life (reason_recommendations top) = 0%nat /\
  filter is_department_recommendation (reason_recommendations top) = [].
Proof.
  unfold reason_recommendations.
  repeat match goal with |- context [if ?b then _ else _] => destruct b end;
    repeat split.
Qed.

Lemma service_recommendations_facts (d : Processed) :
  count rec_male_focus (service_recommendations d) = 0%nat /\
  count rec_work_life (service_recommendations d) = 0%nat /\
  filter is_department_recommendation (service_recommendations d) = [].
Proof.
  unfold service_recommendations.
  repeat match goal with |- context [if ?b then _ else _] => destruct b end;
    repeat split.
Qed.

Lemma gender_recommendation_facts (d : Processed) :
  filter is_department_recommendation (gender_recommendation d) = [] /\
  (F64.gtb (pct_where (is_gender MALE) d) (F64.of_Z 65) = true ->
   count rec_male_focus (gender_recommendation d) = 1%nat /\
   count rec_work_life (gender_recommendation d) = 0%nat) /\
  (F64.gtb (pct_where (is_gender MALE) d) (F64.of_Z 65) = false ->
   count rec_male_focus (gender_recommendation d) = 0%nat /\
   count rec_work_life (gender_recommendation d) = 1%nat).
Proof.
  unfold gender_recommendation.
  destruct (F64.gtb (pct_where (is_gender MALE) d) (F64.of_Z 65));
    repeat split; discriminate.
Qed.

Lemma rec_department_facts (dept : string) :
  count rec_male_focus [rec_department dept] = 0%nat /\
  count rec_work_life [rec_department dept] = 0%nat.
Proof.
  unfold count. split; apply count_occ_not_In; simpl;
    intros [ E | [] ]; apply String.eqb_eq in E; discriminate E.
Qed.

Lemma count_app (x : string) (l1 l2 : list string) :
  count x (l1 ++ l2) = (count x l1 + count x l2)%nat.
Proof. apply count_occ_app. Qed.

Section Recommendations.

Variable self : Analyzer.
Variable d : Processed.
Hypothesis Hdata : processed_data self = Some d.
Hypothesis Hrows : d <> [].

(** C9: on a non-empty data set the recommendation list has 2, 4 or 6
    strings: none or two from the dominant reason, none or two from the
    short-service rule, one from the gender branch, one for the top
    department. *)
Theorem recommendations_length :
  exists recs top dept,
    generate_recommendations self = Returns recs /\
    recs = (reason_recommendations top ++ service_recommendations d
            ++ gender_recommendation d ++ [rec_department dept])%list /\
    (length (reason_recommendations top) = 0%nat \/
     length (reason_recommendations top) = 2%nat) /\
    (length (service_recommendations d) = 0%nat \/
     length (service_recommendations d) = 2%nat) /\
    length (gender_recommendation d) = 1%nat /\
    (length recs = 2%nat \/ length recs = 4%nat \/ length recs = 6%nat).
Proof.
  destruct (compute_recommendations_nonempty d Hrows)
    as (top & dept & _ & _ & E).
  eexists. exists top, dept.
  unfold generate_recommendations. rewrite Hdata.
  split; [ exact E | ]. split; [ reflexivity | ].
  pose proof (reason_recommendations_length top) as H1.
  pose proof (service_recommendations_length d) as H2.
  pose proof (gender_recommendation_length d) as H3.
  repeat split; auto. rewrite !length_app. simpl. lia.
Qed.

End Recommendations.

(** ** Rounding to binary64

    What [binary_round_aux] returns on a mantissa of at least 53 bits in
    the normal range, and how the result compares with a double. *)

Module Rounding.

Lemma digits2_pos_bounds (p : positive) :
  2 ^ (Zpos (digits2_pos p) - 1) <= Zpos p < 2 ^ Zpos (digits2_pos p).
Proof.
  induction p as [ p IH | p IH | ]; simpl digits2_pos.
  - rewrite Pos2Z.inj_succ.
    replace (Z.succ (Zpos (digits2_pos p)) - 1) with (Z.succ (Zpos (digits2_pos p) - 1)) by lia.
    rewrite !Z.pow_succ_r by lia. lia.
  - rewrite Pos2Z.inj_succ.
    replace (Z.succ (Zpos (digits2_pos p)) - 1) with (Z.succ (Zpos (digits2_pos p) - 1)) by lia.
    rewrite !Z.pow_succ_r by lia. lia.
  - simpl. lia.
Qed.

Lemma digits2_pos_unique (p : positive) (d : Z) :
  2 ^ (d - 1) <= Zpos p < 2 ^ d -> Zpos (digits2_pos p) = d.
Proof.
  intros [L U]. pose proof (digits2_pos_bounds p) as [L' U'].
  assert (0 < d).
  { destruct (Z.lt_trichotomy d 0) as [ N | [ -> | P ] ]; try lia.
    rewrite Z.pow_neg_r in U by lia. lia. }
  destruct (Z.lt_trichotomy (Zpos (digits2_pos p)) d) as [ A | [ A | A ] ];
    [ | exact A | ].
  - assert (2 ^ Zpos (digits2_pos p) <= 2 ^ (d - 1))
      by (apply Z.pow_le_mono_r; lia). lia.
  - assert (2 ^ d <= 2 ^ (Zpos (digits2_pos p) - 1))
      by (apply Z.pow_le_mono_r; lia). lia.
Qed.

Lemma iter_pos_nat {A : Type} (f : A -> A) (p : positive) (x : A) :
  iter_pos f p x = Nat.iter (Pos.to_nat p) f x.
Proof.
  revert x. induction p as [ p IH | p IH | ]; intros x; simpl iter_pos.
  - rewrite !IH, Pos2Nat.inj_xI. rewrite <- Nat.iter_add.
    replace (S (2 * Pos.to_nat p)) with (S (Pos.to_nat p + Pos.to_nat p)) by lia.
    now rewrite Nat.iter_succ_r.
  - rewrite !IH, Pos2Nat.inj_xO. rewrite <- Nat.iter_add.
    f_equal. lia.
  - reflexivity.
Qed.

Lemma shr_1_m (r : shr_record) :
  0 <= shr_m r -> shr_m (shr_1 r) = shr_m r / 2.
Proof.
  destruct r as [m b s]. simpl. intros Hm.
  destruct m as [ | [ p | p | ] | p ]; simpl; try lia; try reflexivity.
  - rewrite Pos2Z.inj_xI. apply Z.div_unique with 1; lia.
  - rewrite Pos2Z.inj_xO. apply Z.div_unique with 0; lia.
Qed.

Lemma shr_iter_m (n : nat) (r : shr_record) :
  0 <= shr_m r -> shr_m (Nat.iter n shr_1 r) = shr_m r / 2 ^ Z.of_nat n.
Proof.
  intros Hm. induction n as [ | n IH ].
  - simpl. now rewrite Z.div_1_r.
  - rewrite Nat2Z.inj_succ, Z.pow_succ_r by lia. simpl Nat.iter.
    rewrite shr_1_m.
    + rewrite IH, Z.div_div by lia. f_equal. lia.
    + rewrite IH. apply Z.div_pos; lia.
Qed.

Lemma shr_iter_exact (n : nat) (a : Z) :
  0 <= a ->
  Nat.iter n shr_1 (Build_shr_record (a * 2 ^ Z.of_nat n) false false)
  = Build_shr_record a false false.
Proof.
  intros Ha. induction n as [ | n IH ].
  - simpl. now rewrite Z.mul_1_r.
  - rewrite Nat.iter_succ_r, Nat2Z.inj_succ, Z.pow_succ_r by lia.
    replace (a * (2 * 2 ^ Z.of_nat n)) with (2 * (a * 2 ^ Z.of_nat n)) by lia.
    assert (E : shr_1 (Build_shr_record (2 * (a * 2 ^ Z.of_nat n)) false false)
                = Build_shr_record (a * 2 ^ Z.of_nat n) false false).
    { assert (0 <= a * 2 ^ Z.of_nat n) by lia.
      destruct (a * 2 ^ Z.of_nat n) as [ | q | q ]; try lia; reflexivity. }
    now rewrite E.
Qed.

Lemma round_nearest_even_bounds (m : Z) (l : location) :
  m <= round_nearest_even m l <= m + 1.
Proof.
  destruct l as [ | [ | | ] ]; simpl; try lia.
  destruct (Z.even m); lia.
Qed.

Lemma fexp_normal (z : Z) : -1074 <= z - 53 -> fexp 53 1024 z = z - 53.
Proof. intros H. unfold fexp, emin. lia. Qed.

Lemma loc_of_shr_record_of_loc (m : Z) (l : location) :
  loc_of_shr_record (shr_record_of_loc m l) = l.
Proof. destruct l as [ | [ | | ] ]; reflexivity. Qed.

Lemma shr_m_record_of_loc (m : Z) (l : location) :
  shr_m (shr_record_of_loc m l) = m.
Proof. destruct l as [ | [ | | ] ]; reflexivity. Qed.

(** The first shift of [binary_round_aux]. *)
Lemma shr_fexp_eval (mx : positive) (ex : Z) (lx : location) :
  53 <= Zpos (digits2_pos mx) ->
  -1074 <= Zpos (digits2_pos mx) + ex - 53 ->
  exists r,
    shr_fexp 53 1024 (Zpos mx) ex lx = (r, ex + (Zpos (digits2_pos mx) - 53)) /\
    shr_m r = Zpos mx / 2 ^ (Zpos (digits2_pos mx) - 53) /\
    (lx = loc_Exact -> Zpos mx mod 2 ^ (Zpos (digits2_pos mx) - 53) = 0 ->
     loc_of_shr_record r = loc_Exact).
Proof.
  intros Hd He. unfold shr_fexp. simpl Zdigits2.
  rewrite fexp_normal by lia.
  replace (Zpos (digits2_pos mx) + ex - 53 - ex)
    with (Zpos (digits2_pos mx) - 53) by lia.
  destruct (Zpos (digits2_pos mx) - 53) as [ | n | n ] eqn:En; try lia.
  - exists (shr_record_of_loc (Zpos mx) lx). unfold shr.
    rewrite Z.add_0_r, shr_m_record_of_loc, Z.div_1_r.
    repeat split. intros -> _. reflexivity.
  - exists (iter_pos shr_1 n (shr_record_of_loc (Zpos mx) lx)). unfold shr.
    split; [ reflexivity | ].
    rewrite iter_pos_nat. split.
    + rewrite shr_iter_m by (rewrite shr_m_record_of_loc; lia).
      now rewrite shr_m_record_of_loc, positive_nat_Z.
    + intros -> Hmod. simpl shr_record_of_loc.
      apply Z.mod_divide in Hmod; [ | lia ]. destruct Hmod as [a Ha].
      rewrite Ha, <- (positive_nat_Z n), shr_iter_exact; [ reflexivity | ].
      assert (0 < 2 ^ Zpos n) by (apply Z.pow_pos_nonneg; lia). nia.
Qed.

(** The second shift of [binary_round_aux], after rounding. *)
Lemma renormalize (m2 e : Z) :
  2 ^ 52 <= m2 <= 2 ^ 53 ->
  -1074 <= e ->
  (let '(mrs, e2) := shr_fexp 53 1024 m2 e loc_Exact in
   match shr_m mrs with
   | Z0 => S754_zero false
   | Zpos m => if e2 <=? 1024 - 53 then S754_finite false m e2
               else S754_infinity false
   | Zneg _ => S754_nan
   end)
  = if m2 <? 2 ^ 53 then finite_or_inf m2 e else finite_or_inf (2 ^ 52) (e + 1).
Proof.
  intros [L U] He.
  destruct m2 as [ | p | p ]; try lia.
  destruct (Z.ltb_spec (Zpos p) (2 ^ 53)) as [ Hlt | Hge ].
  - assert (D : Zpos (digits2_pos p) = 53)
      by (apply digits2_pos_unique; simpl Z.sub; lia).
    unfold shr_fexp. simpl Zdigits2. rewrite D, fexp_normal by lia.
    replace (53 + e - 53 - e) with 0 by lia. reflexivity.
  - assert (E : Zpos p = 2 ^ 53) by lia.
    injection E as ->.
    unfold shr_fexp. simpl Zdigits2. rewrite fexp_normal by lia.
    replace (54 + e - 53 - e) with 1 by lia. reflexivity.
Qed.

(** [binary_round_aux] on a positive mantissa of at least 53 bits whose
    rounding stays in the normal range. *)
Lemma binary_round_aux_eval (mx : positive) (ex : Z) (lx : location) :
  53 <= Zpos (digits2_pos mx) ->
  -1074 <= Zpos (digits2_pos mx) + ex - 53 ->
  exists m2,
    Zpos mx / 2 ^ (Zpos (digits2_pos mx) - 53) <= m2
      <= Zpos mx / 2 ^ (Zpos (digits2_pos mx) - 53) + 1 /\
    (lx = loc_Exact -> Zpos mx mod 2 ^ (Zpos (digits2_pos mx) - 53) = 0 ->
     m2 = Zpos mx / 2 ^ (Zpos (digits2_pos mx) - 53)) /\
    binary_round_aux 53 1024 false (Zpos mx) ex lx
    = if m2 <? 2 ^ 53
      then finite_or_inf m2 (ex + (Zpos (digits2_pos mx) - 53))
      else finite_or_inf (2 ^ 52) (ex + (Zpos (digits2_pos mx) - 53) + 1).
Proof.
  intros Hd He.
  destruct (shr_fexp_eval mx ex lx Hd He) as (r & Er & Hm & Hexact).
  exists (round_nearest_even (shr_m r) (loc_of_shr_record r)).
  pose proof (round_nearest_even_bounds (shr_m r) (loc_of_shr_record r)) as B.
  rewrite Hm in B |- *.
  split; [ exact B | ].
  split.
  - intros Hl Hmod. now rewrite (Hexact Hl Hmod).
  - unfold binary_round_aux. rewrite Er, Hm.
    apply renormalize; [ | lia ].
    pose proof (digits2_pos_bounds mx) as [L U].
    set (n := Zpos (digits2_pos mx) - 53) in *.
    assert (Hn : 0 <= n) by lia.
    assert (P : 0 < 2 ^ n) by (apply Z.pow_pos_nonneg; lia).
    assert (L' : 2 ^ 52 * 2 ^ n <= Zpos mx).
    { rewrite <- Z.pow_add_r by lia.
      replace (52 + n) with (Zpos (digits2_pos mx) - 1) by lia. exact L. }
    assert (U' : Zpos mx < 2 ^ 53 * 2 ^ n).
    { rewrite <- Z.pow_add_r by lia.
      replace (53 + n) with (Zpos (digits2_pos mx)) by lia. exact U. }
    assert (2 ^ 52 <= Zpos mx / 2 ^ n) by (apply Z.div_le_lower_bound; lia).
    assert (Zpos mx / 2 ^ n < 2 ^ 53) by (apply Z.div_lt_upper_bound; lia).
    lia.
Qed.

Lemma pow2_lt_inv (a b : Z) : 0 <= b -> 2 ^ a < 2 ^ b -> a < b.
Proof. intros Hb H. apply (Z.pow_lt_mono_r_iff 2); lia. Qed.

(** Rounding a value that is at most the double [mB * 2^eB] gives at
    most that double. *)
Lemma round_upper (mx : positive) (ex : Z) (lx : location) (mB : positive) (eB : Z) :
  53 <= Zpos (digits2_pos mx) ->
  -1074 <= Zpos (digits2_pos mx) + ex - 53 ->
  2 ^ 52 <= Zpos mB < 2 ^ 53 ->
  eB <= 971 ->
  ex <= eB ->
  Zpos mx + inexact lx <= Zpos mB * 2 ^ (eB - ex) ->
  exists m e,
    binary_round_aux 53 1024 false (Zpos mx) ex lx = S754_finite false m e /\
    2 ^ 52 <= Zpos m < 2 ^ 53 /\
    ex + (Zpos (digits2_pos mx) - 53) <= e <= ex + (Zpos (digits2_pos mx) - 53) + 1 /\
    (e < eB \/ (e = eB /\ Zpos m <= Zpos mB)).
Proof.
  intros Hd He HB HeB Hex Hle.
  destruct (binary_round_aux_eval mx ex lx Hd He) as (m2 & Hm2 & Hexact & E).
  pose proof (digits2_pos_bounds mx) as [L U].
  set (n := Zpos (digits2_pos mx) - 53) in *.
  assert (Hn : 0 <= n) by lia.
  assert (P : 0 < 2 ^ n) by (apply Z.pow_pos_nonneg; lia).
  assert (L' : 2 ^ 52 * 2 ^ n <= Zpos mx).
  { rewrite <- Z.pow_add_r by lia.
    replace (52 + n) with (Zpos (digits2_pos mx) - 1) by lia. exact L. }
  assert (U' : Zpos mx < 2 ^ 53 * 2 ^ n).
  { rewrite <- Z.pow_add_r by lia.
    replace (53 + n) with (Zpos (digits2_pos mx)) by lia. exact U. }
  assert (M1 : 2 ^ 52 <= Zpos mx / 2 ^ n) by (apply Z.div_le_lower_bound; lia).
  assert (M2 : Zpos mx / 2 ^ n < 2 ^ 53) by (apply Z.div_lt_upper_bound; lia).
  assert (Q : 0 < 2 ^ (eB - ex)) by (apply Z.pow_pos_nonneg; lia).
  assert (Hi : 0 <= inexact lx <= 1) by (destruct lx; simpl; lia).
  (* the exponent of the result is at most [eB] *)
  assert (He1 : ex + n <= eB).
  { assert (2 ^ (52 + n) < 2 ^ (53 + (eB - ex))).
    { rewrite !Z.pow_add_r by lia. nia. }
    apply pow2_lt_inv in H; lia. }
  (* at the exponent [eB] the rounded mantissa is at most [mB] *)
  assert (Hsame : ex + n = eB -> m2 <= Zpos mB).
  { intros Een. replace (eB - ex) with n in * by lia.
    assert (Zpos mx / 2 ^ n <= Zpos mB)
      by (apply Z.lt_succ_r, Z.div_lt_upper_bound; lia).
    destruct (Z.eq_dec (Zpos mx / 2 ^ n) (Zpos mB)) as [ Eq | Ne ]; [ | lia ].
    pose proof (Z.div_mod (Zpos mx) (2 ^ n) ltac:(lia)) as DM.
    pose proof (Z.mod_pos_bound (Zpos mx) (2 ^ n) P) as MB.
    rewrite Eq in DM.
    assert (Zpos mx mod 2 ^ n = 0) by nia.
    assert (inexact lx = 0) by nia.
    assert (lx = loc_Exact) by (destruct lx; simpl in *; [ reflexivity | lia ]).
    rewrite Hexact by assumption. lia. }
  destruct (Z.ltb_spec m2 (2 ^ 53)) as [ Hlt | Hge ].
  - unfold finite_or_inf in E.
    destruct (Z.leb_spec (ex + n) 971) as [ _ | ]; [ | lia ].
    exists (Z.to_pos m2), (ex + n). rewrite Z2Pos.id by lia.
    split; [ exact E | lia ].
  - unfold finite_or_inf in E.
    assert (ex + n < eB) by (destruct (Z.eq_dec (ex + n) eB); lia).
    destruct (Z.leb_spec (ex + n + 1) 971) as [ _ | ]; [ | lia ].
    exists (Z.to_pos (2 ^ 52)), (ex + n + 1). rewrite Z2Pos.id by lia.
    split; [ exact E | lia ].
Qed.

(** Rounding a value that is at least the double [mB * 2^eB] gives at
    least that double (possibly infinity). *)
Lemma round_lower (mx : positive) (ex : Z) (lx : location) (mB : positive) (eB : Z) :
  53 <= Zpos (digits2_pos mx) ->
  -1074 <= Zpos (digits2_pos mx) + ex - 53 ->
  2 ^ 52 <= Zpos mB < 2 ^ 53 ->
  ex <= eB ->
  Zpos mB * 2 ^ (eB - ex) <= Zpos mx ->
  exists m e,
    binary_round_aux 53 1024 false (Zpos mx) ex lx = finite_or_inf m e /\
    2 ^ 52 <= m < 2 ^ 53 /\
    ex + (Zpos (digits2_pos mx) - 53) <= e <= ex + (Zpos (digits2_pos mx) - 53) + 1 /\
    (eB < e \/ (e = eB /\ Zpos mB <= m)).
Proof.
  intros Hd He HB Hex Hle.
  destruct (binary_round_aux_eval mx ex lx Hd He) as (m2 & Hm2 & _ & E).
  pose proof (digits2_pos_bounds mx) as [L U].
  set (n := Zpos (digits2_pos mx) - 53) in *.
  assert (Hn : 0 <= n) by lia.
  assert (P : 0 < 2 ^ n) by (apply Z.pow_pos_nonneg; lia).
  assert (L' : 2 ^ 52 * 2 ^ n <= Zpos mx).
  { rewrite <- Z.pow_add_r by lia.
    replace (52 + n) with (Zpos (digits2_pos mx) - 1) by lia. exact L. }
  assert (U' : Zpos mx < 2 ^ 53 * 2 ^ n).
  { rewrite <- Z.pow_add_r by lia.
    replace (53 + n) with (Zpos (digits2_pos mx)) by lia. exact U. }
  assert (M1 : 2 ^ 52 <= Zpos mx / 2 ^ n) by (apply Z.div_le_lower_bound; lia).
  assert (M2 : Zpos mx / 2 ^ n < 2 ^ 53) by (apply Z.div_lt_upper_bound; lia).
  assert (Q : 0 < 2 ^ (eB - ex)) by (apply Z.pow_pos_nonneg; lia).
  assert (He1 : eB <= ex + n).
  { assert (2 ^ (52 + (eB - ex)) < 2 ^ (53 + n)).
    { rewrite !Z.pow_add_r by lia. nia. }
    apply pow2_lt_inv in H; lia. }
  assert (Hsame : ex + n = eB -> Zpos mB <= m2).
  { intros Een. replace (eB - ex) with n in * by lia.
    assert (Zpos mB <= Zpos mx / 2 ^ n)
      by (apply Z.div_le_lower_bound; lia).
    lia. }
  destruct (Z.ltb_spec m2 (2 ^ 53)) as [ Hlt | Hge ].
  - exists m2, (ex + n). split; [ exact E | lia ].
  - exists (2 ^ 52), (ex + n + 1). split; [ exact E | lia ].
Qed.

Lemma digits2_pos_ge (p : positive) (k : Z) :
  2 ^ (k - 1) <= Zpos p -> k <= Zpos (digits2_pos p).
Proof.
  intros H. pose proof (digits2_pos_bounds p) as [_ U].
  assert (L : 2 ^ (k - 1) < 2 ^ Zpos (digits2_pos p)) by lia.
  apply pow2_lt_inv in L; lia.
Qed.

Lemma digits2_pos_le (p : positive) (k : Z) :
  0 <= k -> Zpos p < 2 ^ k -> Zpos (digits2_pos p) <= k.
Proof.
  intros Hk H. pose proof (digits2_pos_bounds p) as [L _].
  assert (L' : 2 ^ (Zpos (digits2_pos p) - 1) < 2 ^ k) by lia.
  apply pow2_lt_inv in L'; lia.
Qed.

(** A mantissa of exactly 53 bits is not changed by rounding. *)
Lemma round_exact53 (m : positive) (e : Z) :
  2 ^ 52 <= Zpos m < 2 ^ 53 ->
  -1074 <= e <= 971 ->
  binary_round_aux 53 1024 false (Zpos m) e loc_Exact = S754_finite false m e.
Proof.
  intros Hm He.
  assert (D : Zpos (digits2_pos m) = 53)
    by (apply digits2_pos_unique; simpl Z.sub; lia).
  destruct (binary_round_aux_eval m e loc_Exact) as (m2 & _ & Hexact & E);
    try lia.
  rewrite D in *. simpl Z.sub in *. rewrite Z.pow_0_r, Z.div_1_r in *.
  rewrite Hexact in E by (try reflexivity; apply Z.mod_1_r).
  rewrite E. destruct (Z.ltb_spec (Zpos m) (2 ^ 53)); [ | lia ].
  unfold finite_or_inf. rewrite Z.add_0_r.
  destruct (Z.leb_spec e 971); [ reflexivity | lia ].
Qed.

(** The double of a positive integer below [2^53] is that integer. *)
Lemma of_Z_normal (k : Z) :
  0 < k < 2 ^ 53 ->
  exists m e,
    F64.of_Z k = S754_finite false m e /\
    2 ^ 52 <= Zpos m < 2 ^ 53 /\ -52 <= e <= 0 /\
    Zpos m = k * 2 ^ (- e).
Proof.
  intros [Hk0 Hk]. destruct k as [ | p | p ]; try lia.
  pose proof (digits2_pos_bounds p) as [L U].
  assert (Hd : Zpos (digits2_pos p) <= 53) by (apply digits2_pos_le; lia).
  unfold F64.of_Z, binary_normalize, binary_round.
  rewrite Z.add_0_r, fexp_normal by (unfold F64.prec; lia).
  unfold shl_align, F64.prec, F64.emax.
  destruct (Zpos (digits2_pos p) - 53 - 0) as [ | s | s ] eqn:Es; try lia.
  - assert (2 ^ 52 <= Zpos p).
    { replace (Zpos (digits2_pos p)) with 53 in L by lia. exact L. }
    exists p, 0. rewrite round_exact53 by lia.
    repeat split; lia.
  - exists (Pos.iter xO p s), (Zpos (digits2_pos p) - 53).
    assert (Ev : Zpos (Pos.iter xO p s) = Zpos p * 2 ^ Zpos s).
    { change (Pos.iter xO p s) with (shift_pos s p).
      rewrite shift_pos_correct. change (Z.pow_pos 2 s) with (2 ^ Zpos s). lia. }
    assert (Hs : Zpos s = 53 - Zpos (digits2_pos p)) by lia.
    assert (Hb : 2 ^ 52 <= Zpos (Pos.iter xO p s) < 2 ^ 53).
    { rewrite Ev, Hs.
      assert (E52 : 2 ^ 52 = 2 ^ (Zpos (digits2_pos p) - 1)
                             * 2 ^ (53 - Zpos (digits2_pos p))).
      { rewrite <- Z.pow_add_r by lia. f_equal. lia. }
      assert (E53 : 2 ^ 53 = 2 ^ Zpos (digits2_pos p)
                             * 2 ^ (53 - Zpos (digits2_pos p))).
      { rewrite <- Z.pow_add_r by lia. f_equal. lia. }
      assert (0 < 2 ^ (53 - Zpos (digits2_pos p))) by (apply Z.pow_pos_nonneg; lia).
      rewrite E52 at 1. rewrite E53 at 1. split.
      - apply Z.mul_le_mono_nonneg_r; lia.
      - apply Z.mul_lt_mono_pos_r; lia. }
    rewrite round_exact53 by lia.
    repeat split; try lia.
    rewrite Ev. f_equal. f_equal. lia.
Qed.

Lemma new_location_inexact (n r : Z) :
  (r = 0 -> new_location n r = loc_Exact) /\
  (r <> 0 -> inexact (new_location n r) = 1).
Proof.
  unfold new_location, new_location_even, new_location_odd.
  destruct (Z.even n); destruct (Z.eqb_spec r 0) as [ -> | N ];
    split; intros H; try congruence; reflexivity.
Qed.

(** Division of two doubles with 53-bit mantissas. *)
Lemma div_eval (mk mn : positive) (ek en : Z) :
  2 ^ 52 <= Zpos mk < 2 ^ 53 ->
  2 ^ 52 <= Zpos mn < 2 ^ 53 ->
  -1021 <= ek - en ->
  F64.div (S754_finite false mk ek) (S754_finite false mn en)
  = binary_round_aux 53 1024 false (Zpos mk * 2 ^ 53 / Zpos mn) (ek - en - 53)
      (new_location (Zpos mn) ((Zpos mk * 2 ^ 53) mod Zpos mn)).
Proof.
  intros Hk Hn He.
  assert (Dk : Zpos (digits2_pos mk) = 53)
    by (apply digits2_pos_unique; simpl Z.sub; lia).
  assert (Dn : Zpos (digits2_pos mn) = 53)
    by (apply digits2_pos_unique; simpl Z.sub; lia).
  unfold F64.div, SFdiv, SFdiv_core_binary, F64.prec, F64.emax.
  simpl Zdigits2. rewrite Dk, Dn.
  rewrite fexp_normal by lia.
  replace (Z.min (53 + ek - (53 + en) - 53) (ek - en)) with (ek - en - 53) by lia.
  replace (ek - en - (ek - en - 53)) with 53 by lia.
  rewrite Z.shiftl_mul_pow2 by lia.
  unfold Z.div, Z.modulo.
  destruct (Z.div_eucl (Zpos mk * 2 ^ 53) (Zpos mn)) as [q r].
  reflexivity.
Qed.

Lemma round_normal (mx : positive) (ex : Z) (lx : location) :
  53 <= Zpos (digits2_pos mx) ->
  -1074 <= Zpos (digits2_pos mx) + ex - 53 ->
  Zpos (digits2_pos mx) + ex - 52 <= 971 ->
  exists m e,
    binary_round_aux 53 1024 false (Zpos mx) ex lx = S754_finite false m e /\
    2 ^ 52 <= Zpos m < 2 ^ 53 /\
    ex + (Zpos (digits2_pos mx) - 53) <= e <= ex + (Zpos (digits2_pos mx) - 53) + 1.
Proof.
  intros Hd He Hmax.
  destruct (binary_round_aux_eval mx ex lx Hd He) as (m2 & Hm2 & _ & E).
  pose proof (digits2_pos_bounds mx) as [L U].
  set (n := Zpos (digits2_pos mx) - 53) in *.
  assert (P : 0 < 2 ^ n) by (apply Z.pow_pos_nonneg; lia).
  assert (L' : 2 ^ 52 * 2 ^ n <= Zpos mx).
  { rewrite <- Z.pow_add_r by lia.
    replace (52 + n) with (Zpos (digits2_pos mx) - 1) by lia. exact L. }
  assert (M1 : 2 ^ 52 <= Zpos mx / 2 ^ n) by (apply Z.div_le_lower_bound; lia).
  unfold finite_or_inf in E.
  destruct (Z.ltb_spec m2 (2 ^ 53)) as [ Hlt | Hge ].
  - destruct (Z.leb_spec (ex + n) 971) as [ _ | ]; [ | lia ].
    exists (Z.to_pos m2), (ex + n). rewrite Z2Pos.id by lia.
    split; [ exact E | lia ].
  - destruct (Z.leb_spec (ex + n + 1) 971) as [ _ | ]; [ | lia ].
    exists (Z.to_pos (2 ^ 52)), (ex + n + 1). rewrite Z2Pos.id by lia.
    split; [ exact E | lia ].
Qed.

(** The quotient mantissa of [div_eval]. *)
Lemma quotient_bounds (mk mn : positive) :
  2 ^ 52 <= Zpos mk < 2 ^ 53 ->
  2 ^ 52 <= Zpos mn < 2 ^ 53 ->
  2 ^ 52 <= Zpos mk * 2 ^ 53 / Zpos mn < 2 ^ 54.
Proof.
  intros Hk Hn. split.
  - apply Z.div_le_lower_bound; [ lia | ].
    assert (Zpos mn <= 2 ^ 53) by lia. nia.
  - apply Z.div_lt_upper_bound; [ lia | ].
    change (2 ^ 54) with (2 * 2 ^ 53). nia.
Qed.

Lemma div_normal (mk mn : positive) (ek en : Z) :
  2 ^ 52 <= Zpos mk < 2 ^ 53 ->
  2 ^ 52 <= Zpos mn < 2 ^ 53 ->
  -1021 <= ek - en <= 1020 ->
  exists m e,
    F64.div (S754_finite false mk ek) (S754_finite false mn en)
    = S754_finite false m e /\
    2 ^ 52 <= Zpos m < 2 ^ 53 /\ ek - en - 53 <= e <= ek - en - 51.
Proof.
  intros Hk Hn He. rewrite div_eval by lia.
  pose proof (quotient_bounds mk mn Hk Hn) as [Lq Uq].
  destruct (Zpos mk * 2 ^ 53 / Zpos mn) as [ | q | q ]; try lia.
  assert (53 <= Zpos (digits2_pos q)) by (apply digits2_pos_ge; simpl Z.sub; lia).
  assert (Zpos (digits2_pos q) <= 54) by (apply digits2_pos_le; lia).
  destruct (round_normal q (ek - en - 53)
              (new_location (Zpos mn) ((Zpos mk * 2 ^ 53) mod Zpos mn)))
    as (m & e & E & Hm & Hev); try lia.
  exists m, e. split; [ exact E | lia ].
Qed.

(** A quotient of two doubles is at most 1 when the dividend is at most
    the divisor. *)
Lemma div_le_one (mk mn : positive) (ek en : Z) :
  2 ^ 52 <= Zpos mk < 2 ^ 53 ->
  2 ^ 52 <= Zpos mn < 2 ^ 53 ->
  -1021 <= ek - en ->
  ek < en \/ (ek = en /\ Zpos mk <= Zpos mn) ->
  exists m e,
    F64.div (S754_finite false mk ek) (S754_finite false mn en)
    = S754_finite false m e /\
    2 ^ 52 <= Zpos m < 2 ^ 53 /\ ek - en - 53 <= e /\
    (e < -52 \/ (e = -52 /\ Zpos m <= 2 ^ 52)).
Proof.
  intros Hk Hn He Hle. rewrite div_eval by lia.
  pose proof (quotient_bounds mk mn Hk Hn) as [Lq Uq].
  pose proof (Z.div_mod (Zpos mk * 2 ^ 53) (Zpos mn) ltac:(lia)) as DM.
  pose proof (Z.mod_pos_bound (Zpos mk * 2 ^ 53) (Zpos mn) ltac:(lia)) as MB.
  pose proof (new_location_inexact (Zpos mn) ((Zpos mk * 2 ^ 53) mod Zpos mn))
    as [Hex Hin].
  set (l := new_location (Zpos mn) ((Zpos mk * 2 ^ 53) mod Zpos mn)) in *.
  set (r := (Zpos mk * 2 ^ 53) mod Zpos mn) in *.
  destruct (Zpos mk * 2 ^ 53 / Zpos mn) as [ | q | q ] eqn:Eq; try lia.
  assert (53 <= Zpos (digits2_pos q)) by (apply digits2_pos_ge; simpl Z.sub; lia).
  assert (Zpos (digits2_pos q) <= 54) by (apply digits2_pos_le; lia).
  assert (Hpow : 2 ^ (-52 - (ek - en - 53)) = 2 * 2 ^ (en - ek)).
  { replace (-52 - (ek - en - 53)) with (1 + (en - ek)) by lia.
    rewrite Z.pow_add_r by lia. reflexivity. }
  assert (P : 0 < 2 ^ (en - ek)) by (apply Z.pow_pos_nonneg; lia).
  assert (Hmk : Zpos mk <= Zpos mn * 2 ^ (en - ek)).
  { destruct Hle as [ Hlt | [ -> Hm ] ].
    - assert (2 ^ 1 <= 2 ^ (en - ek)) by (apply Z.pow_le_mono_r; lia).
      change (2 ^ 1) with 2 in *. nia.
    - rewrite Z.sub_diag. simpl. lia. }
  destruct (round_upper q (ek - en - 53) l 4503599627370496 (-52))
    as (m & e & E & Hm & Hev & Hcmp); try lia.
  - change (Zpos 4503599627370496) with (2 ^ 52). rewrite Hpow.
    assert (Hi : (r = 0 /\ inexact l = 0) \/ (0 < r /\ inexact l = 1)).
    { destruct (Z.eq_dec r 0) as [ Z0 | NZ ].
      - left. split; [ exact Z0 | ]. now rewrite (Hex Z0).
      - right. split; [ lia | now apply Hin ]. }
    change (2 ^ 52) with 4503599627370496 in *.
    change (2 ^ 53) with 9007199254740992 in *.
    nia.
  - exists m, e. split; [ exact E | ].
    change (Zpos 4503599627370496) with (2 ^ 52) in Hcmp. lia.
Qed.

Lemma mul_eval (a b : positive) (ea eb : Z) :
  F64.mul (S754_finite false a ea) (S754_finite false b eb)
  = binary_round_aux 53 1024 false (Zpos (a * b)) (ea + eb) loc_Exact.
Proof. reflexivity. Qed.

Lemma product_digits (a b : positive) :
  2 ^ 52 <= Zpos a < 2 ^ 53 ->
  2 ^ 52 <= Zpos b < 2 ^ 53 ->
  105 <= Zpos (digits2_pos (a * b)) <= 106.
Proof.
  intros Ha Hb. split.
  - apply digits2_pos_ge. rewrite Pos2Z.inj_mul.
    change (2 ^ (105 - 1)) with (2 ^ 52 * 2 ^ 52). nia.
  - apply digits2_pos_le; [ lia | ]. rewrite Pos2Z.inj_mul.
    change (2 ^ 106) with (2 ^ 53 * 2 ^ 53). nia.
Qed.

Lemma of_Z_100 : F64.of_Z 100 = S754_finite false 7036874417766400 (-46).
Proof. reflexivity. Qed.

(** A double that is at most 1, multiplied by 100, is at most 100. *)
Lemma mul_100_le (m : positive) (e : Z) :
  2 ^ 52 <= Zpos m < 2 ^ 53 ->
  -1000 <= e ->
  e < -52 \/ (e = -52 /\ Zpos m <= 2 ^ 52) ->
  exists m' e',
    F64.mul (S754_finite false m e) (F64.of_Z 100) = S754_finite false m' e' /\
    (e' < -46 \/ (e' = -46 /\ Zpos m' <= 7036874417766400)).
Proof.
  intros Hm He Hle. rewrite of_Z_100, mul_eval.
  assert (Hb : 2 ^ 52 <= 7036874417766400 < 2 ^ 53) by (simpl; lia).
  pose proof (product_digits m 7036874417766400 Hm Hb) as Hd.
  assert (Hme : Zpos m <= 2 ^ (- e)).
  { destruct Hle as [ Hlt | [ -> H ] ]; [ | exact H ].
    assert (2 ^ 53 <= 2 ^ (- e)) by (apply Z.pow_le_mono_r; lia). lia. }
  destruct (round_upper (m * 7036874417766400) (e + -46) loc_Exact
              7036874417766400 (-46))
    as (m' & e' & E & _ & _ & Hcmp); try lia.
  - rewrite Pos2Z.inj_mul. simpl inexact.
    replace (-46 - (e + -46)) with (- e) by lia. nia.
  - exists m', e'. split; [ exact E | exact Hcmp ].
Qed.

End Rounding.

(** ** The percentage fields of the summary *)

Lemma leb_finite (m m' : positive) (e e' : Z) :
  e < e' \/ (e = e' /\ Zpos m <= Zpos m') ->
  F64.leb (S754_finite false m e) (S754_finite false m' e') = true.
Proof.
  intros H. apply FOrderFacts.leb_spec. repeat split. simpl. lia.
Qed.

(** Doubles of integers are ordered like the integers. *)
Lemma of_Z_le (k n : Z) (mk mn : positive) (ek en : Z) :
  0 < k <= n ->
  2 ^ 52 <= Zpos mk < 2 ^ 53 -> -52 <= ek <= 0 -> Zpos mk = k * 2 ^ (- ek) ->
  2 ^ 52 <= Zpos mn < 2 ^ 53 -> -52 <= en <= 0 -> Zpos mn = n * 2 ^ (- en) ->
  ek < en \/ (ek = en /\ Zpos mk <= Zpos mn).
Proof.
  intros Hkn Hmk Hek Ek Hmn Hen En.
  assert (Pk : 0 < 2 ^ (- ek)) by (apply Z.pow_pos_nonneg; lia).
  destruct (Z.lt_trichotomy ek en) as [ L | [ E | G ] ].
  - now left.
  - right. split; [ exact E | ]. subst en. nia.
  - exfalso.
    assert (S : 2 ^ (- en) = 2 ^ (- ek) * 2 ^ (ek - en)).
    { rewrite <- Z.pow_add_r by lia. f_equal. lia. }
    assert (2 ^ 1 <= 2 ^ (ek - en)) by (apply Z.pow_le_mono_r; lia).
    change (2 ^ 1) with 2 in *.
    assert (2 * Zpos mk <= Zpos mn) by (rewrite Ek, En, S; nia).
    change (2 ^ 53) with (2 * 2 ^ 52) in *. lia.
Qed.

(** [count / total * 100] lies between 0 and 100 when the count is at
    most the total and the total is below [2^53]. *)
Lemma percentage_range (k n : nat) :
  (k <= n)%nat -> Z.of_nat n < 2 ^ 53 ->
  F64.leb F64.zero (percentage k n) = true /\
  F64.leb (percentage k n) (F64.of_Z 100) = true.
Proof.
  intros Hkn Hn. unfold percentage.
  destruct (Nat.ltb_spec 0 n) as [ Hpos | Hz ]; [ | split; reflexivity ].
  destruct (Rounding.of_Z_normal (Z.of_nat n)) as (mn & en & En & Hmn & Hen & Vn);
    [ lia | ].
  rewrite En.
  destruct k as [ | k ].
  - split; reflexivity.
  - destruct (Rounding.of_Z_normal (Z.of_nat (S k)))
      as (mk & ek & Ek & Hmk & Hek & Vk); [ lia | ].
    rewrite Ek.
    assert (Hle : ek < en \/ (ek = en /\ Zpos mk <= Zpos mn)).
    { apply (of_Z_le (Z.of_nat (S k)) (Z.of_nat n)); auto. lia. }
    destruct (Rounding.div_le_one mk mn ek en Hmk Hmn ltac:(lia) Hle)
      as (m & e & E & Hm & He & Hcmp).
    rewrite E.
    destruct (Rounding.mul_100_le m e Hm ltac:(lia) Hcmp) as (m' & e' & E' & Hcmp').
    rewrite E'. split; [ reflexivity | ].
    rewrite Rounding.of_Z_100. now apply leb_finite.
Qed.

Lemma count_where_le (p : Row -> bool) (d : Processed) :
  (count_where p d <= length d)%nat.
Proof.
  unfold count_where. rewrite <- (length_map p d). apply count_occ_bound.
Qed.

Lemma gender_counts (d : Processed) :
  (forall r, In r d -> gender (emp r) = MALE \/ gender (emp r) = FEMALE) ->
  (count_where (is_gender MALE) d + count_where (is_gender FEMALE) d
   = length d)%nat.
Proof.
  unfold count_where, is_gender.
  induction d as [ | r d IH ]; intros H; [ reflexivity | ].
  simpl. specialize (IH (fun r' Hr' => H r' (or_intror Hr'))).
  destruct (H r (or_introl eq_refl)) as [ -> | -> ]; simpl; lia.
Qed.

(** C8, as stated, fails: with one male and two female records both
    gender values occur, the two percentages are the doubles
    33.33333333333333 and 66.66666666666666, and their sum is the double
    99.99999999999999, not 100.  On the empty data set both fields are 0. *)
Lemma gender_percentages_sum_below_100 :
  (forall r, In r (map categorize one_male_two_female) ->
             gender (emp r) = MALE \/ gender (emp r) = FEMALE) /\
  F64.add (male_pct (summarize (map categorize one_male_two_female)))
          (female_pct (summarize (map categorize one_male_two_female)))
  = S754_finite false 7036874417766399 (-46) /\
  F64.of_Z 100 = S754_finite false 7036874417766400 (-46) /\
  F64.eqb (F64.add (male_pct (summarize (map categorize one_male_two_female)))
                   (female_pct (summarize (map categorize one_male_two_female))))
          (F64.of_Z 100) = false /\
  F64.add (male_pct (summarize [])) (female_pct (summarize [])) = F64.zero.
Proof.
  split; [ | repeat split ].
  intros r [ <- | [ <- | [ <- | [] ] ] ]; simpl; auto.
Qed.


(** ** [groupby(year).size()] *)

Lemma insert_year_keys (y z : Z) (l : list (Z * nat)) :
  In z (map fst (insert_year y l)) <-> z = y \/ In z (map fst l).
Proof.
  induction l as [ | [k c] l IH ]; simpl; [ intuition | ].
  destruct (Z.compare_spec y k) as [ E | L | G ]; simpl; rewrite ?IH;
    intuition congruence.
Qed.

Lemma insert_year_sorted (y : Z) (l : list (Z * nat)) :
  StronglySorted key_lt l -> StronglySorted key_lt (insert_year y l).
Proof.
  induction 1 as [ | [k c] l Hs IH Hk ]; simpl.
  - repeat constructor.
  - destruct (Z.compare_spec y k) as [ E | L | G ].
    + constructor; [ exact Hs | ]. exact Hk.
    + constructor; [ now constructor | ].
      constructor; [ exact L | ].
      eapply Forall_impl; [ | exact Hk ]. unfold key_lt. simpl. intros a. lia.
    + constructor; [ exact IH | ].
      apply Forall_forall. intros [k' c'] Hin.
      assert (Hin' : In k' (map fst (insert_year y l)))
        by (apply in_map_iff; exists (k', c'); auto).
      apply insert_year_keys in Hin'. unfold key_lt. simpl.
      destruct Hin' as [ -> | Hin' ]; [ lia | ].
      apply in_map_iff in Hin'. destruct Hin' as ([k2 c2] & E2 & H2).
      simpl in E2. subst k2. rewrite Forall_forall in Hk.
      apply (Hk _ H2).
Qed.

Lemma insert_year_total (y : Z) (l : list (Z * nat)) :
  total_count (insert_year y l) = S (total_count l).
Proof.
  unfold total_count.
  induction l as [ | [k c] l IH ]; simpl; [ reflexivity | ].
  destruct (y ?= k); simpl; rewrite ?IH; lia.
Qed.

Lemma groupby_size_invariant (ys : list Z) (acc : list (Z * nat)) :
  StronglySorted key_lt acc ->
  let g := fold_left (fun a y => insert_year y a) ys acc in
  StronglySorted key_lt g /\
  total_count g = (length ys + total_count acc)%nat /\
  forall z, In z (map fst g) <-> In z ys \/ In z (map fst acc).
Proof.
  revert acc. induction ys as [ | y ys IH ]; intros acc Hs; simpl.
  - repeat split; auto; tauto.
  - destruct (IH (insert_year y acc) (insert_year_sorted y acc Hs))
      as (S1 & T1 & K1).
    repeat split; auto.
    + rewrite T1, insert_year_total. lia.
    + intros H. apply K1 in H. rewrite insert_year_keys in H. intuition.
    + intros H. apply K1. rewrite insert_year_keys. intuition.
Qed.

Lemma key_lt_NoDup (l : list (Z * nat)) :
  StronglySorted key_lt l -> NoDup (map fst l).
Proof.
  induction 1 as [ | a l Hs IH Ha ]; simpl; constructor; auto.
  intros Hin. apply in_map_iff in Hin. destruct Hin as (b & E & Hb).
  rewrite Forall_forall in Ha. specialize (Ha b Hb). unfold key_lt in Ha. lia.
Qed.

(** [groupby_size] has one entry per distinct year, in increasing order
    of the year, and its counts add up to the number of rows. *)
Lemma groupby_size_spec (ys : list Z) :
  StronglySorted key_lt (groupby_size ys) /\
  total_count (groupby_size ys) = length ys /\
  (forall z, In z (map fst (groupby_size ys)) <-> In z ys) /\
  length (groupby_size ys) = length (nodup Z.eq_dec ys).
Proof.
  destruct (groupby_size_invariant ys [] (SSorted_nil _)) as (S1 & T1 & K1).
  fold (groupby_size ys) in *. simpl in *.
  assert (K : forall z, In z (map fst (groupby_size ys)) <-> In z ys)
    by (intros z; rewrite K1; tauto).
  repeat split; auto; try apply K.
  - rewrite T1. unfold total_count. simpl. lia.
  - rewrite <- (length_map fst). apply Permutation_length.
    apply NoDup_Permutation.
    + now apply key_lt_NoDup.
    + apply NoDup_nodup.
    + intros z. rewrite K, nodup_In. tauto.
Qed.

Lemma lookup_year_notin (z : Z) (l : list (Z * nat)) :
  ~ In z (map fst l) -> lookup_year z l = O.
Proof.
  induction l as [ | [k c] l IH ]; simpl; [ reflexivity | ].
  intros H. destruct (Z.eqb_spec z k) as [ -> | N ]; [ tauto | ].
  apply IH. tauto.
Qed.

Lemma lookup_year_In (z : Z) (c : nat) (l : list (Z * nat)) :
  StronglySorted key_lt l -> In (z, c) l -> lookup_year z l = c.
Proof.
  induction 1 as [ | [k c'] l Hs IH Hk ]; simpl; [ tauto | ].
  intros [ E | H ].
  - injection E as -> ->. now rewrite Z.eqb_refl.
  - destruct (Z.eqb_spec z k) as [ -> | N ]; [ | now apply IH ].
    rewrite Forall_forall in Hk. specialize (Hk _ H).
    unfold key_lt in Hk. simpl in Hk. lia.
Qed.

Lemma insert_year_lookup (y z : Z) (l : list (Z * nat)) :
  StronglySorted key_lt l ->
  lookup_year z (insert_year y l)
  = ((if Z.eqb z y then 1 else 0) + lookup_year z l)%nat.
Proof.
  induction 1 as [ | [k c] l Hs IH Hk ]; simpl.
  - destruct (z =? y); reflexivity.
  - destruct (Z.compare_spec y k) as [ E | L | G ]; simpl.
    + subst k. destruct (Z.eqb_spec z y); lia.
    + destruct (Z.eqb_spec z y) as [ -> | N ]; [ | reflexivity ].
      destruct (Z.eqb_spec y k) as [ | _ ]; [ lia | ].
      rewrite lookup_year_notin; [ reflexivity | ].
      intros Hin. apply in_map_iff in Hin. destruct Hin as ([k' c'] & E' & H').
      simpl in E'. subst k'. rewrite Forall_forall in Hk.
      specialize (Hk _ H'). unfold key_lt in Hk. simpl in Hk. lia.
    + rewrite IH. destruct (Z.eqb_spec z k) as [ -> | N ]; [ | reflexivity ].
      destruct (Z.eqb_spec k y); lia.
Qed.

Lemma groupby_size_lookup (ys : list Z) (acc : list (Z * nat)) (z : Z) :
  StronglySorted key_lt acc ->
  lookup_year z (fold_left (fun a y => insert_year y a) ys acc)
  = (count_occ Z.eq_dec ys z + lookup_year z acc)%nat.
Proof.
  revert acc. induction ys as [ | y ys IH ]; intros acc Hs; simpl;
    [ reflexivity | ].
  rewrite IH by (now apply insert_year_sorted).
  rewrite insert_year_lookup by exact Hs.
  destruct (Z.eq_dec y z) as [ -> | N ].
  - rewrite Z.eqb_refl. lia.
  - destruct (Z.eqb_spec z y); [ congruence | lia ].
Qed.

(** Each entry of [groupby_size] holds the number of rows of its year. *)
Lemma groupby_size_counts (ys : list Z) :
  map snd (groupby_size ys)
  = map (fun y => count_occ Z.eq_dec ys y) (map fst (groupby_size ys)).
Proof.
  destruct (groupby_size_spec ys) as (Hs & _).
  rewrite map_map. apply map_ext_in. intros [y c] Hin. simpl.
  rewrite <- (lookup_year_In y c _ Hs Hin).
  unfold groupby_size. rewrite groupby_size_lookup by constructor.
  simpl. lia.
Qed.

(** The yearly counts: one count per distinct departure year, by
    increasing year. *)
Lemma yearly_trend_spec (d : Processed) :
  exists ys,
    StronglySorted Z.lt ys /\
    (forall y, In y ys <-> In y (years d)) /\
    yearly_trend d = map (fun y => count_occ Z.eq_dec (years d) y) ys.
Proof.
  exists (map fst (groupby_size (years d))).
  destruct (groupby_size_spec (years d)) as (Hs & _ & K & _).
  split; [ | split; [ exact K | apply groupby_size_counts ] ].
  clear K. induction Hs as [ | a l Hs IH Ha ]; simpl; constructor; auto.
  rewrite Forall_map. exact Ha.
Qed.

Lemma yearly_trend_length (d : Processed) :
  length (yearly_trend d) = distinct_years d.
Proof.
  unfold yearly_trend, distinct_years. rewrite length_map.
  apply groupby_size_spec.
Qed.

Lemma yearly_trend_total (d : Processed) :
  fold_right Nat.add O (yearly_trend d) = length d.
Proof.
  unfold yearly_trend.
  destruct (groupby_size_spec (years d)) as (_ & T & _).
  unfold total_count in T. rewrite T. unfold years. apply length_map.
Qed.

(** ** The yearly trend *)

Module Trend.
Import Rounding.

(** Multiplying a positive double by the literal [0.8] does not increase
    it. *)
Lemma mul_0_8_le (m : positive) (e : Z) :
  2 ^ 52 <= Zpos m < 2 ^ 53 ->
  -1000 <= e <= 900 ->
  exists m' e',
    F64.mul (S754_finite false m e) F64.lit_0_8 = S754_finite false m' e' /\
    (e' < e \/ (e' = e /\ Zpos m' <= Zpos m)).
Proof.
  intros Hm He. unfold F64.lit_0_8. rewrite mul_eval.
  assert (Hb : 2 ^ 52 <= 7205759403792794 < 2 ^ 53) by (simpl; lia).
  pose proof (product_digits m 7205759403792794 Hm Hb) as Hd.
  destruct (round_upper (m * 7205759403792794) (e + -53) loc_Exact m e)
    as (m' & e' & E & _ & _ & Hcmp); try lia.
  - rewrite Pos2Z.inj_mul. simpl inexact.
    replace (e - (e + -53)) with 53 by lia.
    change (2 ^ 53) with 9007199254740992. nia.
  - exists m', e'. split; [ exact E | exact Hcmp ].
Qed.

(** Multiplying a positive double by the literal [1.2] does not decrease
    it. *)
Lemma mul_1_2_ge (m : positive) (e : Z) :
  2 ^ 52 <= Zpos m < 2 ^ 53 ->
  -1000 <= e <= 900 ->
  exists m' e',
    F64.mul (S754_finite false m e) F64.lit_1_2 = S754_finite false m' e' /\
    (e < e' \/ (e' = e /\ Zpos m <= Zpos m')).
Proof.
  intros Hm He. unfold F64.lit_1_2. rewrite mul_eval.
  assert (Hb : 2 ^ 52 <= 5404319552844595 < 2 ^ 53) by (simpl; lia).
  pose proof (product_digits m 5404319552844595 Hm Hb) as Hd.
  destruct (round_lower (m * 5404319552844595) (e + -52) loc_Exact m e)
    as (m' & e' & E & Hm' & He' & Hcmp); try lia.
  - rewrite Pos2Z.inj_mul.
    replace (e - (e + -52)) with 52 by lia.
    change (2 ^ 52) with 4503599627370496. nia.
  - unfold finite_or_inf in E.
    destruct (Z.leb_spec e' 971) as [ _ | ]; [ | lia ].
    exists (Z.to_pos m'), e'. rewrite Z2Pos.id by lia.
    split; [ exact E | lia ].
Qed.

(** For a mean [e] of counts, [e * 0.8 <= e <= e * 1.2] in doubles, so no
    double is both above [e * 1.2] and below [e * 0.8]. *)
Lemma thresholds_exclusive (e r : float) :
  moderate e ->
  F64.gtb r (F64.mul e F64.lit_1_2) = true ->
  F64.ltb r (F64.mul e F64.lit_0_8) = false.
Proof.
  unfold F64.gtb, F64.ltb.
  intros [ -> | [ -> | (m & ex & -> & Hm & He) ] ] H.
  - destruct r; discriminate H.
  - apply FOrderFacts.ltb_asym. exact H.
  - destruct (mul_0_8_le m ex Hm He) as (m1 & e1 & E1 & C1).
    destruct (mul_1_2_ge m ex Hm He) as (m2 & e2 & E2 & C2).
    rewrite E1. rewrite E2 in H.
    apply FOrderFacts.ltb_asym.
    apply FOrderFacts.leb_ltb_trans with (S754_finite false m ex).
    + apply leb_finite. lia.
    + apply FOrderFacts.leb_ltb_trans with (S754_finite false m2 e2);
        [ | exact H ].
      apply leb_finite. lia.
Qed.

Lemma mean_Z_moderate (l : list Z) :
  0 <= fold_right Z.add 0 l < 2 ^ 53 ->
  Z.of_nat (length l) < 2 ^ 53 ->
  moderate (mean_Z l).
Proof.
  intros Hs Hn. unfold mean_Z.
  destruct l as [ | x l ]; [ now left | right ].
  set (s := fold_right Z.add 0 (x :: l)) in *.
  destruct (of_Z_normal (Z.of_nat (length (x :: l))))
    as (mn & en & En & Hmn & Hen & _); [ simpl length in *; lia | ].
  rewrite En.
  destruct (Z.eq_dec s 0) as [ -> | Hnz ].
  - left. reflexivity.
  - right.
    destruct (of_Z_normal s) as (mk & ek & Ek & Hmk & Hek & _); [ lia | ].
    rewrite Ek.
    destruct (div_normal mk mn ek en Hmk Hmn ltac:(lia)) as (m & e & E & Hm & He).
    exists m, e. split; [ exact E | ]. split; [ exact Hm | lia ].
Qed.

Lemma sum_of_nat (l : list nat) :
  fold_right Z.add 0 (map Z.of_nat l) = Z.of_nat (fold_right Nat.add O l).
Proof.
  induction l as [ | x l IH ]; simpl fold_right; [ reflexivity | ].
  rewrite IH. lia.
Qed.

Lemma sum_firstn_le (k : nat) (l : list nat) :
  (fold_right Nat.add O (firstn k l) <= fold_right Nat.add O l)%nat.
Proof.
  revert k. induction l as [ | x l IH ]; intros [ | k ]; simpl; try lia.
  specialize (IH k). lia.
Qed.

Lemma distinct_years_le (d : Processed) : (distinct_years d <= length d)%nat.
Proof.
  unfold distinct_years. rewrite <- (length_map (fun r => leave_year (emp r)) d).
  apply NoDup_incl_length; [ apply NoDup_nodup | ].
  intros z Hz. now apply nodup_In in Hz.
Qed.

Lemma earlier_years_moderate (d : Processed) :
  Z.of_nat (length d) < 2 ^ 53 -> moderate (earlier_years d).
Proof.
  intros Hn. unfold earlier_years, mean_counts, iloc_drop_last.
  apply mean_Z_moderate.
  - rewrite sum_of_nat.
    pose proof (sum_firstn_le (length (yearly_trend d) - 3) (yearly_trend d)).
    rewrite yearly_trend_total in H. lia.
  - rewrite length_map, length_firstn, yearly_trend_length.
    pose proof (distinct_years_le d). lia.
Qed.

End Trend.

Ltac string_differs E :=
  apply String.eqb_eq in E; discriminate E.

Lemma trend_strings_only_from_trend_rule (d : Processed) (top dept s : string) :
  s = upward_trend \/ s = downward_trend ->
  In s (gender_rule d
        ++ [top_reason_insight top (pct_where (is_reason top) d)]
        ++ trend_rule d
        ++ [top_department_insight dept]
        ++ young_rule d ++ short_service_rule d)%list
  <-> In s (trend_rule d).
Proof.
  intros Hs. rewrite !in_app_iff. split; [ | tauto ].
  intros [ H | [ H | [ H | [ H | [ H | H ] ] ] ] ]; [ | | exact H | | | ];
    exfalso; revert H;
    unfold gender_rule, young_rule, short_service_rule;
    repeat match goal with |- context [if ?b then _ else _] => destruct b end;
    simpl; intros H; repeat (destruct H as [ H | H ]); try contradiction;
    destruct Hs as [ -> | -> ]; string_differs H.
Qed.

Lemma trend_rule_cases (d : Processed) :
  (Nat.ltb 1 (length (yearly_trend d)) = false -> trend_rule d = []) /\
  (Nat.ltb 1 (length (yearly_trend d)) = true ->
   (F64.gtb (recent_years d) (F64.mul (earlier_years d) F64.lit_1_2) = true ->
    trend_rule d = [upward_trend]) /\
   (F64.gtb (recent_years d) (F64.mul (earlier_years d) F64.lit_1_2) = false ->
    F64.ltb (recent_years d) (F64.mul (earlier_years d) F64.lit_0_8) = true ->
    trend_rule d = [downward_trend]) /\
   (F64.gtb (recent_years d) (F64.mul (earlier_years d) F64.lit_1_2) = false ->
    F64.ltb (recent_years d) (F64.mul (earlier_years d) F64.lit_0_8) = false ->
    trend_rule d = [])).
Proof.
  unfold trend_rule. split; [ now intros -> | intros -> ].
  repeat split; intros; repeat match goal with H : _ = _ |- _ => rewrite H end;
    reflexivity.
Qed.

(** With yearly counts 1, 2, 2, 1, 1, 2 the recent mean is the double
    nearest to 4/3 and the earlier mean the double nearest to 5/3; the
    product of the latter with the literal 0.8 rounds to the next double
    above the former, and the rule gives the downward-trend string. *)
Example trend_at_a_tie :
  let d := map categorize
             (replicate 1 (sample_employee MALE REASON_SALARY "التسويق" 2019) ++
              replicate 2 (sample_employee MALE REASON_SALARY "التسويق" 2020) ++
              replicate 2 (sample_employee MALE REASON_SALARY "التسويق" 2021) ++
              replicate 1 (sample_employee MALE REASON_SALARY "التسويق" 2022) ++
              replicate 1 (sample_employee MALE REASON_SALARY "التسويق" 2023) ++
              replicate 2 (sample_employee MALE REASON_SALARY "التسويق" 2024))%list in
  yearly_trend d = [1; 2; 2; 1; 1; 2]%nat /\
  recent_years d = S754_finite false 6004799503160661 (-52) /\
  F64.mul (earlier_years d) F64.lit_0_8 = S754_finite false 6004799503160662 (-52) /\
  trend_rule d = [downward_trend].
Proof. vm_compute. repeat split. Qed.

(** ** The theorems at the scenario of seven males and three females *)

Lemma insights_length_witness :
  exists l, insights (snd (generate_insights (loaded seven_male_three_female))) = l /\
            (2 <= length l <= 6)%nat.
Proof.
  destruct (insights_length (loaded seven_male_three_female)
              (map categorize seven_male_three_female)
              ltac:(vm_compute; reflexivity) ltac:(discriminate))
    as (l & top & dept & E & _ & _ & _ & _ & _ & H).
  exists l. rewrite E. split; [ reflexivity | exact H ].
Defined.

Lemma recommendations_length_witness :
  exists recs,
    generate_recommendations (loaded seven_male_three_female) = Returns recs /\
    (length recs = 2%nat \/ length recs = 4%nat \/ length recs = 6%nat).
Proof.
  destruct (recommendations_length (loaded seven_male_three_female)
              (map categorize seven_male_three_female)
              ltac:(vm_compute; reflexivity) ltac:(discriminate))
    as (recs & top & dept & E & _ & _ & _ & _ & H).
  exists recs. split; [ exact E | exact H ].
Defined.

(** *** The scenarios evaluated *)

(** Two reasons with five records each: the one that sorts first is
    reported, although the other one appears first in the data. *)
Example tied_reasons_insights :
  insights (loaded tied_reasons) =
    ["🚨 معدل ترك الذكور مرتفع جداً (100.0%)";
     "📊 السبب الأكثر شيوعاً: راتب غير مناسب (50.0%)";
     "🏢 أعلى معدل ترك في إدارة: التسويق"].
Proof. vm_compute. reflexivity. Qed.

Example seven_male_three_female_insights :
  insights (loaded seven_male_three_female) =
    ["🚨 معدل ترك الذكور مرتفع جداً (70.0%)";
     "📊 السبب الأكثر شيوعاً: راتب غير مناسب (70.0%)";
     "🏢 أعلى معدل ترك في إدارة: التسويق"].
Proof. vm_compute. reflexivity. Qed.

Example seven_male_three_female_recommendations :
  generate_recommendations (loaded seven_male_three_female) =
    Returns [rec_salary_review; rec_salary_study; rec_male_focus;
             rec_department "التسويق"].
Proof. vm_compute. reflexivity. Qed.

Example rising_years_insights :
  yearly_trend (map categorize rising_years) = [2; 2; 2; 10; 10]%nat /\
  In upward_trend (insights (loaded rising_years)).
Proof. vm_compute. split; [ reflexivity | right; right; left; reflexivity ]. Qed.

(** * Further properties of the analyzer *)

(** ** The methods and the object *)

Ltac close_cases :=
  repeat split; intros;
  try congruence; try discriminate; try contradiction; try tauto.

Lemma compute_insights_faults_iff (d : Processed) :
  (d = [] -> compute_insights d = Raises IndexError) /\
  (d <> [] -> exists l, compute_insights d = Returns l).
Proof.
  split.
  - intros ->. reflexivity.
  - intros H. destruct (compute_insights_nonempty d H) as (t & p & _ & _ & E).
    eexists. exact E.
Qed.

(** X1: [process_data] stores the categorized rows in [data] and in
    [processed_data] in every case, with the raw record of each row
    untouched and the rows in the order of the input.  It returns [True]
    and replaces the insight list when the frame has a row; on a frame
    without rows it raises [IndexError] and the old insight list stays. *)
Theorem process_data_outcome (df : DataFrame) (self : Analyzer) :
  map emp (map categorize df) = df /\
  data (snd (process_data df self)) = Some (map categorize df) /\
  processed_data (snd (process_data df self)) = Some (map categorize df) /\
  (fst (process_data df self) = Returns true <-> df <> []) /\
  (fst (process_data df self) = Raises IndexError <-> df = []) /\
  (df <> [] ->
   compute_insights (map categorize df)
   = Returns (insights (snd (process_data df self)))) /\
  (df = [] -> insights (snd (process_data df self)) = insights self).
Proof.
  split.
  { rewrite map_map. simpl. apply map_id. }
  unfold process_data, generate_insights. simpl.
  destruct df as [ | e df ].
  - simpl. close_cases.
  - destruct (compute_insights_nonempty (map categorize (e :: df)))
      as (t & p & _ & _ & E); [ discriminate | ].
    rewrite E. simpl. close_cases.
Qed.

(** X2: [generate_insights] never changes [data] or [processed_data]; it
    replaces the insight list, so that running it again leaves the same
    object; with nothing processed it leaves the object as it is; and it
    faults exactly when the processed frame has no rows. *)
Theorem generate_insights_effect (self : Analyzer) :
  data (snd (generate_insights self)) = data self /\
  processed_data (snd (generate_insights self)) = processed_data self /\
  generate_insights (snd (generate_insights self))
  = (fst (generate_insights self), snd (generate_insights self)) /\
  (processed_data self = None -> generate_insights self = (Returns tt, self)) /\
  (fst (generate_insights self) = Raises IndexError
   <-> processed_data self = Some []) /\
  (fst (generate_insights self) = Returns tt
   <-> processed_data self <> Some []).
Proof.
  unfold generate_insights.
  destruct (processed_data self) as [ d | ] eqn:Hd.
  - destruct d as [ | r d ].
    + change (compute_insights []) with (@Raises (list string) IndexError).
      simpl. rewrite Hd. close_cases.
    + destruct (compute_insights_nonempty (r :: d))
        as (t & p & _ & _ & E); [ discriminate | ].
      rewrite E. simpl. rewrite E. close_cases.
  - simpl. rewrite Hd. close_cases.
Qed.

(** X3: [generate_recommendations] has no guard: it returns a list exactly
    when a frame with at least one row has been processed; it raises
    [TypeError] when nothing has been processed and [IndexError] when the
    processed frame has no rows. *)
Theorem generate_recommendations_faults (self : Analyzer) :
  ((exists recs, generate_recommendations self = Returns recs)
   <-> exists d, processed_data self = Some d /\ d <> []) /\
  (generate_recommendations self = Raises TypeError
   <-> processed_data self = None) /\
  (generate_recommendations self = Raises IndexError
   <-> processed_data self = Some []).
Proof.
  unfold generate_recommendations.
  destruct (processed_data self) as [ d | ] eqn:Hd.
  - destruct d as [ | r d ].
    + change (compute_recommendations []) with (@Raises (list string) IndexError).
      repeat split; try congruence; try discriminate.
      * intros (recs & E). discriminate E.
      * intros (d & E & N). congruence.
    + destruct (compute_recommendations_nonempty (r :: d))
        as (t & p & _ & _ & E); [ discriminate | ].
      rewrite E. repeat split; try congruence; try discriminate.
      * intros _. exists (r :: d). split; [ reflexivity | discriminate ].
      * intros _. eexists. reflexivity.
  - repeat split; try congruence; try discriminate.
    + intros (recs & E). discriminate E.
    + intros (d & E & _). discriminate E.
Qed.

(** ** Bucketing: which values get a band *)

Lemma leb_of_not_ltb (a b : float) :
  FOrder.is_nan a = false -> FOrder.is_nan b = false ->
  SFltb a b = false -> SFleb b a = true.
Proof.
  intros Ha Hb H. apply FOrderFacts.leb_spec. repeat split; auto.
  intros K. assert (T : SFltb a b = true)
    by (apply FOrderFacts.ltb_spec; auto).
  congruence.
Qed.

Lemma ltb_not_nan (a b : float) :
  SFltb a b = true -> FOrder.is_nan a = false /\ FOrder.is_nan b = false.
Proof. intros H. apply FOrderFacts.ltb_spec in H. tauto. Qed.

Lemma leb_trans (a b c : float) :
  SFleb a b = true -> SFleb b c = true -> SFleb a c = true.
Proof.
  rewrite !FOrderFacts.leb_spec. intros (Ha & Hb & Hab) (_ & Hc & Hbc).
  repeat split; auto.
  destruct (FOrder.key a) as [[a1 a2] a3], (FOrder.key b) as [[b1 b2] b3],
    (FOrder.key c) as [[c1 c2] c3]. simpl in *. lia.
Qed.

(** A float column gets a band exactly when the value lies above the
    first edge and not above the last one. *)
Lemma float_band_defined (bins : list float) (labels : list string)
      (b0 b1 b2 b3 b4 b5 : float) (l0 l1 l2 l3 l4 : string) (t : float) :
  bins = [b0; b1; b2; b3; b4; b5] ->
  labels = [l0; l1; l2; l3; l4] ->
  StronglySorted (fun a b => F64.ltb a b = true) bins ->
  (cut F64.ltb bins labels t <> None <->
   F64.ltb b0 t = true /\ F64.leb t b5 = true) /\
  (forall l, cut F64.ltb bins labels t = Some l -> In l labels).
Proof.
  intros -> -> Hs.
  assert (Hlt : forall i j bi bj, (i < j)%nat ->
            nth_error [b0; b1; b2; b3; b4; b5] i = Some bi ->
            nth_error [b0; b1; b2; b3; b4; b5] j = Some bj ->
            F64.ltb bi bj = true).
  { intros i j bi bj Hij Hi Hj.
    repeat match goal with
           | H : StronglySorted _ (_ :: _) |- _ =>
               apply StronglySorted_inv in H; destruct H
           end.
    repeat match goal with
           | H : Forall _ (_ :: _) |- _ =>
               apply Forall_cons_iff in H; destruct H
           end.
    destruct i as [ | [ | [ | [ | [ | [ | i ] ] ] ] ] ];
      destruct j as [ | [ | [ | [ | [ | [ | j ] ] ] ] ] ];
      simpl in Hi, Hj; try lia; try discriminate;
      try (destruct j; discriminate); try (destruct i; discriminate);
      injection Hi as <-; injection Hj as <-; assumption. }
  assert (H5 : forall i bi, (i < 5)%nat ->
            nth_error [b0; b1; b2; b3; b4; b5] i = Some bi ->
            F64.ltb bi t = false -> F64.ltb b0 t = true ->
            F64.leb t b5 = true).
  { intros i bi Hi Hn Hf H0.
    destruct (ltb_not_nan _ _ H0) as [_ Ht].
    pose proof (Hlt i 5%nat bi b5 Hi Hn eq_refl) as Hb.
    destruct (ltb_not_nan _ _ Hb) as [Hbi Hb5].
    apply leb_trans with bi.
    - now apply leb_of_not_ltb.
    - apply FOrderFacts.leb_spec. repeat split; auto.
      intros K. apply FOrderFacts.ltb_asym in Hb.
      assert (F64.ltb b5 bi = true) by (apply FOrderFacts.ltb_spec; auto).
      unfold F64.ltb in *. congruence. }
  unfold cut. simpl searchsorted_left.
  destruct (F64.ltb b0 t) eqn:E0; simpl;
    [ | split; [ split; [ congruence | intros [? _]; discriminate ]
               | discriminate ] ].
  destruct (F64.ltb b1 t) eqn:E1; simpl;
    [ | split; [ split; [ intros _; split; auto;
                          apply (H5 1%nat b1); auto
                        | discriminate ]
               | intros l E; injection E as <-; simpl; auto ] ].
  destruct (F64.ltb b2 t) eqn:E2; simpl;
    [ | split; [ split; [ intros _; split; auto;
                          apply (H5 2%nat b2); auto
                        | discriminate ]
               | intros l E; injection E as <-; simpl; auto ] ].
  destruct (F64.ltb b3 t) eqn:E3; simpl;
    [ | split; [ split; [ intros _; split; auto;
                          apply (H5 3%nat b3); auto
                        | discriminate ]
               | intros l E; injection E as <-; simpl; auto ] ].
  destruct (F64.ltb b4 t) eqn:E4; simpl;
    [ | split; [ split; [ intros _; split; auto;
                          apply (H5 4%nat b4); auto
                        | discriminate ]
               | intros l E; injection E as <-; simpl; tauto ] ].
  destruct (F64.ltb b5 t) eqn:E5; simpl.
  - split; [ | discriminate ].
    split; [ congruence | intros [_ K] ].
    apply FOrderFacts.leb_not_ltb in K. unfold F64.ltb in *. congruence.
  - split; [ | intros l E; injection E as <-; simpl; tauto ].
    split; [ intros _; split; auto | discriminate ].
    destruct (ltb_not_nan _ _ E4) as [Hb4 Ht].
    pose proof (Hlt 4%nat 5%nat b4 b5 ltac:(lia) eq_refl eq_refl) as Hb.
    destruct (ltb_not_nan _ _ Hb) as [_ Hb5].
    now apply leb_of_not_ltb.
Qed.

(** X4: Every row gets an age band exactly when its age is in (0, 100], a
    service band exactly when its years of service are in (0, 100] and a
    salary band exactly when its salary is in (0, 100000]; any other value
    (NaN included) is left without a band.  A band is always one of the
    five labels of its column. *)
Theorem bands_defined_iff (e : Employee) :
  (age_group (categorize e) <> None <-> 0 < age e <= 100) /\
  (service_group (categorize e) <> None <->
   F64.ltb (F64.of_Z 0) (service_years e) = true /\
   F64.leb (service_years e) (F64.of_Z 100) = true) /\
  (salary_group (categorize e) <> None <->
   F64.ltb (F64.of_Z 0) (monthly_salary e) = true /\
   F64.leb (monthly_salary e) (F64.of_Z 100000) = true) /\
  (forall l, age_group (categorize e) = Some l -> In l age_labels) /\
  (forall l, service_group (categorize e) = Some l -> In l service_labels) /\
  (forall l, salary_group (categorize e) = Some l -> In l salary_labels).
Proof.
  destruct (float_band_defined service_bins service_labels
              _ _ _ _ _ _ _ _ _ _ _ (service_years e)
              eq_refl eq_refl service_bins_sorted) as [S1 S2].
  destruct (float_band_defined salary_bins salary_labels
              _ _ _ _ _ _ _ _ _ _ _ (monthly_salary e)
              eq_refl eq_refl salary_bins_sorted) as [M1 M2].
  simpl age_group. simpl service_group. simpl salary_group.
  split; [ | split; [ exact S1 | split; [ exact M1 | ] ] ].
  - unfold age_band, cut, age_bins, age_labels. simpl searchsorted_left.
    repeat match goal with
           | |- context [Z.ltb ?b (age e)] =>
               destruct (Z.ltb_spec b (age e)); simpl
           end; split; intros; try lia; try congruence; try discriminate.
  - split; [ | split; [ exact S2 | exact M2 ] ].
    intros l. unfold age_band, cut. intros H.
    destruct (Nat.eqb _ _ || Nat.eqb _ _)%bool; [ discriminate | ].
    eapply nth_error_In; eauto.
Qed.

(** X5: The cleaning of [load_sample_data] puts every age in [22, 65], leaves
    an age of that range as it is, and so no cleaned age is left without a
    band; the band "less than 25" holds the cleaned ages 22 to 25. *)
Theorem clean_age_banded (raw : Z) :
  22 <= clean_age raw <= 65 /\
  (22 <= raw <= 65 -> clean_age raw = raw) /\
  clean_age (clean_age raw) = clean_age raw /\
  age_band (clean_age raw) <> None /\
  (age_band (clean_age raw) = Some "أقل من 25" <-> raw <= 25).
Proof.
  unfold clean_age, clip.
  split; [ lia | ]. split; [ lia | ]. split; [ lia | ].
  set (a := Z.min (Z.max raw 22) 65).
  assert (Ha : 22 <= a <= 65) by (unfold a; lia).
  assert (Hr : raw <= 25 <-> a <= 25) by (unfold a; lia).
  rewrite Hr. clearbody a. clear Hr.
  unfold age_band, cut, age_bins, age_labels. simpl searchsorted_left.
  repeat match goal with
         | |- context [Z.ltb ?b a] => destruct (Z.ltb_spec b a); simpl
         end; repeat split; intros; try lia; try congruence; try discriminate.
Qed.

(** ** Exact quotients of doubles *)

Module Exact.
Import Rounding.

(** A 53-bit mantissa shifted left is rounded back to itself. *)
Lemma round_exact_shift (m : positive) (e s : Z) :
  2 ^ 52 <= Zpos m < 2 ^ 53 ->
  0 <= s ->
  -1074 <= e <= 971 ->
  binary_round_aux 53 1024 false (Zpos m * 2 ^ s) (e - s) loc_Exact
  = S754_finite false m e.
Proof.
  intros Hm Hs He.
  assert (P : 0 < 2 ^ s) by (apply Z.pow_pos_nonneg; lia).
  destruct (Zpos m * 2 ^ s) as [ | q | q ] eqn:Eq; try lia.
  assert (D : Zpos (digits2_pos q) = 53 + s).
  { apply digits2_pos_unique. rewrite <- Eq.
    replace (53 + s - 1) with (52 + s) by lia.
    rewrite !Z.pow_add_r by lia. nia. }
  destruct (binary_round_aux_eval q (e - s) loc_Exact) as (m2 & _ & Hx & E);
    try lia.
  rewrite D in *. replace (53 + s - 53) with s in * by lia.
  rewrite <- Eq in *.
  rewrite Z.div_mul in * by lia.
  rewrite Hx in E by (try reflexivity; apply Z.mod_mul; lia).
  rewrite E. destruct (Z.ltb_spec (Zpos m) (2 ^ 53)); [ | lia ].
  unfold finite_or_inf. replace (e - s + s) with e by lia.
  destruct (Z.leb_spec e 971); [ reflexivity | lia ].
Qed.

(** When [a = b * c] with [a] below [2^53], the double quotient of [a]
    by [b] is [c]: no rounding takes place. *)
Lemma div_exact (a b c : Z) :
  0 < b -> 0 < c -> a = b * c -> a < 2 ^ 53 ->
  F64.div (F64.of_Z a) (F64.of_Z b) = F64.of_Z c.
Proof.
  intros Hb Hc Ha Ha53.
  assert (b < 2 ^ 53 /\ c < 2 ^ 53) as [Hb53 Hc53] by nia.
  destruct (of_Z_normal a) as (ma & ea & Ea & Hma & Hea & Va); [ nia | ].
  destruct (of_Z_normal b) as (mb & eb & Eb & Hmb & Heb & Vb); [ lia | ].
  destruct (of_Z_normal c) as (mc & ec & Ec & Hmc & Hec & Vc); [ lia | ].
  rewrite Ea, Eb, Ec, div_eval by lia.
  assert (Pa : 0 < 2 ^ (- ea)) by (apply Z.pow_pos_nonneg; lia).
  assert (Pb : 0 < 2 ^ (- eb)) by (apply Z.pow_pos_nonneg; lia).
  assert (Pc : 0 < 2 ^ (- ec)) by (apply Z.pow_pos_nonneg; lia).
  (* the mantissas multiply like the integers *)
  assert (R : Zpos ma * (2 ^ (- eb) * 2 ^ (- ec))
              = Zpos mb * Zpos mc * 2 ^ (- ea)).
  { rewrite Va, Vb, Vc, Ha. ring. }
  (* hence the exponents differ by 52 or 53 *)
  set (s := ec - ea + eb + 53).
  assert (Hs : 0 <= s <= 1).
  { unfold s.
    set (X := 2 ^ (- ea)) in *. set (Y := 2 ^ (- eb) * 2 ^ (- ec)) in *.
    assert (PY : 0 < Y) by (unfold Y; nia).
    assert (M1 : 2 ^ 52 * 2 ^ 52 <= Zpos mb * Zpos mc) by nia.
    assert (M2 : Zpos mb * Zpos mc < 2 ^ 53 * 2 ^ 53) by nia.
    assert (H1 : 2 ^ 52 * 2 ^ 52 * X <= Zpos mb * Zpos mc * X)
      by (apply Z.mul_le_mono_nonneg_r; lia).
    assert (H2 : Zpos mb * Zpos mc * X < 2 ^ 53 * 2 ^ 53 * X)
      by (apply Z.mul_lt_mono_pos_r; lia).
    assert (H3 : 2 ^ 52 * Y <= Zpos ma * Y)
      by (apply Z.mul_le_mono_nonneg_r; lia).
    assert (H4 : Zpos ma * Y < 2 ^ 53 * Y)
      by (apply Z.mul_lt_mono_pos_r; lia).
    rewrite R in H3, H4.
    change (2 ^ 52) with 4503599627370496 in *.
    change (2 ^ 53) with 9007199254740992 in *.
    assert (L : 2 ^ (51 + - ea) < 2 ^ (- eb + - ec)).
    { rewrite (Z.pow_add_r 2 51), (Z.pow_add_r 2 (- eb)) by lia.
      change (2 ^ 51) with 2251799813685248.
      fold X. fold Y. lia. }
    assert (U : 2 ^ (- eb + - ec) < 2 ^ (54 + - ea)).
    { rewrite (Z.pow_add_r 2 54), (Z.pow_add_r 2 (- eb)) by lia.
      change (2 ^ 54) with 18014398509481984.
      fold X. fold Y. lia. }
    apply pow2_lt_inv in L; [ | lia ].
    apply pow2_lt_inv in U; lia. }
  (* the quotient of the mantissas is exact *)
  assert (Q : Zpos ma * 2 ^ 53 = Zpos mc * 2 ^ s * Zpos mb).
  { assert (E1 : 2 ^ 53 * 2 ^ (- ea) = 2 ^ s * (2 ^ (- eb) * 2 ^ (- ec))).
    { rewrite <- !Z.pow_add_r by lia. f_equal. unfold s. lia. }
    assert (0 < 2 ^ (- eb) * 2 ^ (- ec)) by nia.
    apply (Z.mul_cancel_r _ _ (2 ^ (- eb) * 2 ^ (- ec))); [ lia | ].
    transitivity (2 ^ 53 * (Zpos mb * Zpos mc * 2 ^ (- ea))).
    - rewrite <- R. ring.
    - transitivity (Zpos mb * Zpos mc * (2 ^ 53 * 2 ^ (- ea))); [ ring | ].
      rewrite E1. ring. }
  rewrite Q, Z.div_mul, Z.mod_mul by lia.
  replace (new_location (Zpos mb) 0) with loc_Exact
    by (symmetry; now apply new_location_inexact).
  replace (ea - eb - 53) with (ec - s) by (unfold s; lia).
  apply round_exact_shift; lia.
Qed.

End Exact.

(** ** The yearly trend: where it cannot fire *)

Lemma sum_constant (c : nat) (l : list nat) :
  (forall x, In x l -> x = c) ->
  fold_right Nat.add O l = (length l * c)%nat.
Proof.
  induction l as [ | x l IH ]; intros H; simpl; [ reflexivity | ].
  rewrite IH by (intros y Hy; apply H; now right).
  rewrite (H x) by now left. reflexivity.
Qed.

Lemma mean_counts_constant (c : nat) (l : list nat) :
  l <> [] ->
  (forall x, In x l -> x = c) ->
  Z.of_nat (length l) < 2 ^ 53 ->
  Z.of_nat (length l * c) < 2 ^ 53 ->
  mean_counts l = F64.of_Z (Z.of_nat c).
Proof.
  intros Hl Hc Hlb Hb. unfold mean_counts, mean_Z.
  destruct (map Z.of_nat l) as [ | z zs ] eqn:E.
  { destruct l; [ congruence | discriminate ]. }
  rewrite <- E, Trend.sum_of_nat, length_map, (sum_constant c l Hc).
  assert (Hlen : (0 < length l)%nat) by (destruct l; simpl; [ congruence | lia ]).
  destruct c as [ | c ].
  - rewrite Nat.mul_0_r.
    destruct (Rounding.of_Z_normal (Z.of_nat (length l)))
      as (m & e & -> & _); [ lia | ].
    reflexivity.
  - apply Exact.div_exact; try lia.
Qed.

Lemma of_Z_moderate (c : Z) : 0 <= c < 2 ^ 53 -> moderate (F64.of_Z c).
Proof.
  intros Hc. destruct (Z.eq_dec c 0) as [ -> | N ].
  - right. left. reflexivity.
  - right. right.
    destruct (Rounding.of_Z_normal c) as (m & e & E & Hm & He & _); [ lia | ].
    exists m, e. split; [ exact E | ]. split; [ exact Hm | lia ].
Qed.

(** A mean compared with itself fires neither threshold. *)
Lemma thresholds_at_equal_means (e : float) :
  moderate e ->
  F64.gtb e (F64.mul e F64.lit_1_2) = false /\
  F64.ltb e (F64.mul e F64.lit_0_8) = false.
Proof.
  unfold F64.gtb, F64.ltb.
  intros [ -> | [ -> | (m & ex & -> & Hm & He) ] ].
  - split; reflexivity.
  - split; reflexivity.
  - destruct (Trend.mul_0_8_le m ex Hm He) as (m1 & e1 & E1 & C1).
    destruct (Trend.mul_1_2_ge m ex Hm He) as (m2 & e2 & E2 & C2).
    rewrite E1, E2. split; apply FOrderFacts.leb_not_ltb, leb_finite; lia.
Qed.

Lemma trend_rule_few_years (d : Processed) :
  (distinct_years d <= 3)%nat -> trend_rule d = [].
Proof.
  intros H. rewrite <- yearly_trend_length in H.
  unfold trend_rule, earlier_years, iloc_drop_last.
  replace (length (yearly_trend d) - 3)%nat with O by lia.
  simpl firstn. unfold mean_counts. simpl mean_Z.
  destruct (Nat.ltb 1 (length (yearly_trend d))); [ | reflexivity ].
  change (F64.mul F64.nan F64.lit_1_2) with F64.nan.
  change (F64.mul F64.nan F64.lit_0_8) with F64.nan.
  unfold F64.gtb, F64.ltb, F64.nan.
  destruct (recent_years d); reflexivity.
Qed.

(** X6: The trend rule is guarded by "more than one year", but it needs four:
    with at most three distinct years no earlier year is left, the earlier
    mean is NaN, both comparisons are false and no trend string is given,
    whatever the counts. *)
Theorem trend_needs_four_years (d : Processed) :
  (distinct_years d <= 3)%nat ->
  trend_rule d = [] /\
  earlier_years d = F64.nan /\
  forall l, compute_insights d = Returns l ->
            ~ In upward_trend l /\ ~ In downward_trend l.
Proof.
  intros H. pose proof (trend_rule_few_years d H) as Hr.
  split; [ exact Hr | ]. split.
  - rewrite <- yearly_trend_length in H.
    unfold earlier_years, iloc_drop_last.
    replace (length (yearly_trend d) - 3)%nat with O by lia. reflexivity.
  - intros l Hl.
    destruct d as [ | r d ]; [ discriminate Hl | ].
    destruct (compute_insights_nonempty (r :: d))
      as (t & p & _ & _ & E); [ discriminate | ].
    rewrite E in Hl. injection Hl as <-.
    split; intros Hin.
    + apply (proj1 (trend_strings_only_from_trend_rule (r :: d) t p
                      upward_trend (or_introl eq_refl))) in Hin.
      rewrite Hr in Hin. exact Hin.
    + apply (proj1 (trend_strings_only_from_trend_rule (r :: d) t p
                      downward_trend (or_intror eq_refl))) in Hin.
      rewrite Hr in Hin. exact Hin.
Qed.

Lemma trend_needs_four_years_witness :
  yearly_trend (map categorize three_years) = [1; 1; 50]%nat /\
  trend_rule (map categorize three_years) = [].
Proof.
  split; [ vm_compute; reflexivity | ].
  apply (trend_needs_four_years (map categorize three_years)).
  vm_compute. lia.
Defined.

Lemma in_skipn (A : Type) (k : nat) (l : list A) (x : A) :
  In x (skipn k l) -> In x l.
Proof.
  intros H. rewrite <- (firstn_skipn k l). apply in_or_app. now right.
Qed.

Lemma in_firstn (A : Type) (k : nat) (l : list A) (x : A) :
  In x (firstn k l) -> In x l.
Proof.
  intros H. rewrite <- (firstn_skipn k l). apply in_or_app. now left.
Qed.

Lemma sum_skipn_le (k : nat) (l : list nat) :
  (fold_right Nat.add O (skipn k l) <= fold_right Nat.add O l)%nat.
Proof.
  revert k. induction l as [ | x l IH ]; intros [ | k ]; simpl; try lia.
  specialize (IH k). lia.
Qed.

(** X7: When every year has the same number of departures, no trend is
    reported, however many years there are. *)
Theorem flat_series_no_trend (d : Processed) (c : nat) :
  Z.of_nat (length d) < 2 ^ 53 ->
  (forall x, In x (yearly_trend d) -> x = c) ->
  trend_rule d = [].
Proof.
  intros Hn Hc.
  destruct (Nat.le_gt_cases (distinct_years d) 3) as [ Hfew | Hmany ].
  { now apply trend_rule_few_years. }
  rewrite <- yearly_trend_length in Hmany.
  pose proof (yearly_trend_total d) as Ht.
  assert (Er : recent_years d = F64.of_Z (Z.of_nat c)).
  { unfold recent_years, iloc_last. apply mean_counts_constant.
    - intros E. apply (f_equal (@length nat)) in E.
      rewrite length_skipn in E. simpl in E. lia.
    - intros x Hx. apply Hc. eapply in_skipn; eauto.
    - rewrite length_skipn. pose proof (Trend.distinct_years_le d).
      rewrite <- yearly_trend_length in H. lia.
    - rewrite <- sum_constant
        by (intros x Hx; apply Hc; eapply in_skipn; eauto).
      pose proof (sum_skipn_le (length (yearly_trend d) - 3) (yearly_trend d)).
      lia. }
  assert (Ee : earlier_years d = F64.of_Z (Z.of_nat c)).
  { unfold earlier_years, iloc_drop_last. apply mean_counts_constant.
    - intros E. apply (f_equal (@length nat)) in E.
      rewrite length_firstn in E. simpl in E. lia.
    - intros x Hx. apply Hc. eapply in_firstn; eauto.
    - rewrite length_firstn. pose proof (Trend.distinct_years_le d).
      rewrite <- yearly_trend_length in H. lia.
    - rewrite <- sum_constant
        by (intros x Hx; apply Hc; eapply in_firstn; eauto).
      pose proof (Trend.sum_firstn_le (length (yearly_trend d) - 3)
                    (yearly_trend d)).
      lia. }
  assert (Hcb : Z.of_nat c < 2 ^ 53).
  { destruct (yearly_trend d) as [ | x yt ] eqn:E; [ simpl in Hmany; lia | ].
    assert (x = c) by (apply Hc; now left). subst x.
    simpl in Ht. lia. }
  destruct (thresholds_at_equal_means (F64.of_Z (Z.of_nat c)))
    as [G L]; [ apply of_Z_moderate; lia | ].
  unfold trend_rule. rewrite Er, Ee, G, L.
  destruct (Nat.ltb 1 (length (yearly_trend d))); reflexivity.
Qed.

Lemma flat_series_no_trend_witness :
  yearly_trend (map categorize flat_years) = [3; 3; 3; 3; 3]%nat /\
  trend_rule (map categorize flat_years) = [].
Proof.
  assert (Y : yearly_trend (map categorize flat_years) = [3; 3; 3; 3; 3]%nat)
    by (vm_compute; reflexivity).
  split; [ exact Y | ].
  apply (flat_series_no_trend (map categorize flat_years) 3).
  - vm_compute. reflexivity.
  - rewrite Y. simpl. intuition.
Defined.

(** ** Insights, recommendations and summary taken together *)

Lemma percentage_full (n : nat) :
  (0 < n)%nat -> Z.of_nat n < 2 ^ 53 -> percentage n n = F64.of_Z 100.
Proof.
  intros Hn Hb. unfold percentage.
  destruct (Nat.ltb_spec 0 n); [ | lia ].
  rewrite (Exact.div_exact (Z.of_nat n) (Z.of_nat n) 1) by lia.
  reflexivity.
Qed.

Lemma count_uniform (x : string) (l : list string) :
  (forall y, In y l -> y = x) -> count x l = length l.
Proof.
  unfold count. induction l as [ | y l IH ]; intros H; simpl; [ reflexivity | ].
  rewrite (H y (or_introl eq_refl)).
  destruct (string_dec x x); [ | congruence ].
  rewrite IH; [ reflexivity | ]. intros z Hz. apply H. now right.
Qed.

(** X8: When every record gives the same reason, that reason is the dominant
    one, the insight cites it at 100.0%, and the recommendation list opens
    with the recommendations of that reason. *)
Theorem uniform_reason (self : Analyzer) (d : Processed) (x : string) :
  processed_data self = Some d ->
  d <> [] ->
  Z.of_nat (length d) < 2 ^ 53 ->
  (forall r, In r d -> reason (emp r) = x) ->
  top_reason_of d = Returns x /\
  In ("📊 السبب الأكثر شيوعاً: " ++ x ++ " (100.0%)")
     (insights (snd (generate_insights self))) /\
  exists rest,
    generate_recommendations self
    = Returns (reason_recommendations x ++ rest)%list.
Proof.
  intros Hdata Hrows Hn Hx.
  assert (Hall : forall y, In y (reasons d) -> y = x).
  { intros y Hy. unfold reasons in Hy. apply in_map_iff in Hy.
    destruct Hy as (r & <- & Hr). now apply Hx. }
  destruct (top_reason_returns d Hrows) as (top & Et & (Hin & _) & _).
  assert (top = x) by (now apply Hall). subst top.
  split; [ exact Et | ].
  split.
  - destruct (compute_insights_nonempty d Hrows) as (t & p & Et' & _ & E).
    assert (t = x) by congruence. subst t.
    rewrite (generate_insights_returns self d _ Hdata E). simpl.
    apply in_or_app. right. left.
    rewrite (pct_where_percentage _ d Hrows), count_where_reason.
    rewrite (count_uniform x (reasons d) Hall).
    unfold reasons. rewrite length_map.
    rewrite percentage_full; [ reflexivity | | exact Hn ].
    destruct d; simpl; [ congruence | lia ].
  - destruct (compute_recommendations_nonempty d Hrows)
      as (t & p & Et' & _ & E).
    assert (t = x) by congruence. subst t.
    unfold generate_recommendations. rewrite Hdata, E.
    eexists. reflexivity.
Qed.

Lemma uniform_reason_witness :
  In "📊 السبب الأكثر شيوعاً: راتب غير مناسب (100.0%)"
     (insights (snd (generate_insights (loaded flat_years)))) /\
  exists rest,
    generate_recommendations (loaded flat_years)
    = Returns ([rec_salary_review; rec_salary_study] ++ rest)%list.
Proof.
  destruct (uniform_reason (loaded flat_years) (map categorize flat_years)
              REASON_SALARY) as (_ & H1 & H2).
  - vm_compute. reflexivity.
  - discriminate.
  - vm_compute. reflexivity.
  - intros r Hr. vm_compute in Hr.
    repeat (destruct Hr as [ <- | Hr ]; [ reflexivity | ]). destruct Hr.
  - split; [ exact H1 | exact H2 ].
Defined.

Lemma reason_specific_only_from_reason_rule
      (d : Processed) (top dept s : string) :
  In s reason_specific ->
  (In s (reason_recommendations top ++ service_recommendations d
         ++ gender_recommendation d ++ [rec_department dept])%list
   <-> In s (reason_recommendations top)).
Proof.
  intros Hs. rewrite !in_app_iff. split; [ | tauto ].
  intros [ H | [ H | [ H | H ] ] ]; [ exact H | | | ];
    exfalso; revert H;
    unfold service_recommendations, gender_recommendation;
    repeat match goal with |- context [if ?b then _ else _] => destruct b end;
    simpl; intros H; repeat (destruct H as [ H | H ]); try contradiction;
    simpl in Hs;
    repeat (destruct Hs as [ <- | Hs ]; [ string_differs H | ]);
    contradiction.
Qed.

Lemma reason_recommendations_spec (top : string) :
  (top = REASON_OTHER_JOB /\
   reason_recommendations top = [rec_benefits; rec_retention]) \/
  (top = REASON_SALARY /\
   reason_recommendations top = [rec_salary_review; rec_salary_study]) \/
  (top = REASON_ENVIRONMENT /\
   reason_recommendations top = [rec_environment; rec_communication]) \/
  (top <> REASON_OTHER_JOB /\ top <> REASON_SALARY /\
   top <> REASON_ENVIRONMENT /\ reason_recommendations top = []).
Proof.
  unfold reason_recommendations.
  destruct (String.eqb_spec top REASON_OTHER_JOB) as [ -> | N1 ];
    [ left; split; reflexivity | ].
  destruct (String.eqb_spec top REASON_SALARY) as [ -> | N2 ];
    [ right; left; split; reflexivity | ].
  destruct (String.eqb_spec top REASON_ENVIRONMENT) as [ -> | N3 ];
    [ right; right; left; split; reflexivity | ].
  right; right; right. repeat split; assumption.
Qed.

(** X9: Each of the six reason-specific recommendations is in the list
    exactly when the dominant reason is its reason; for any other dominant
    reason none of the six appears. *)
Theorem reason_recommendations_iff (self : Analyzer) (d : Processed) :
  processed_data self = Some d ->
  d <> [] ->
  exists top recs,
    top_reason_of d = Returns top /\
    generate_recommendations self = Returns recs /\
    (In rec_benefits recs <-> top = REASON_OTHER_JOB) /\
    (In rec_retention recs <-> top = REASON_OTHER_JOB) /\
    (In rec_salary_review recs <-> top = REASON_SALARY) /\
    (In rec_salary_study recs <-> top = REASON_SALARY) /\
    (In rec_environment recs <-> top = REASON_ENVIRONMENT) /\
    (In rec_communication recs <-> top = REASON_ENVIRONMENT).
Proof.
  intros Hdata Hrows.
  destruct (compute_recommendations_nonempty d Hrows)
    as (top & dept & Et & _ & E).
  exists top. eexists. split; [ exact Et | ].
  unfold generate_recommendations. rewrite Hdata.
  split; [ exact E | ].
  rewrite !reason_specific_only_from_reason_rule by (simpl; tauto).
  destruct (reason_recommendations_spec top)
    as [ [-> ->] | [ [-> ->] | [ [-> ->] | (N1 & N2 & N3 & ->) ] ] ];
    simpl;
    repeat split; intros H;
    repeat (destruct H as [ H | H ]);
    try contradiction; try reflexivity; try tauto;
    try (string_differs H); try discriminate H; try congruence.
Qed.

Lemma reason_recommendations_iff_witness :
  exists recs,
    generate_recommendations (loaded seven_male_three_female) = Returns recs /\
    In rec_salary_review recs /\ ~ In rec_benefits recs.
Proof.
  destruct (reason_recommendations_iff (loaded seven_male_three_female)
              (map categorize seven_male_three_female)
              ltac:(vm_compute; reflexivity) ltac:(discriminate))
    as (top & recs & Et & E & H1 & _ & H3 & _).
  assert (T : top = REASON_SALARY).
  { vm_compute in Et. injection Et as <-. reflexivity. }
  exists recs. split; [ exact E | ]. split.
  - apply H3. exact T.
  - intros K. apply H1 in K. rewrite T in K. discriminate K.
Defined.

Lemma short_service_only_from_its_rule (d : Processed) (top dept : string) :
  filter is_short_service_insight
    (gender_rule d
     ++ [top_reason_insight top (pct_where (is_reason top) d)]
     ++ trend_rule d
     ++ [top_department_insight dept]
     ++ young_rule d ++ short_service_rule d)%list
  = short_service_rule d.
Proof.
  rewrite !filter_app.
  assert (G : filter is_short_service_insight (gender_rule d) = []).
  { unfold gender_rule.
    repeat match goal with |- context [if ?b then _ else _] => destruct b end;
      reflexivity. }
  assert (T : filter is_short_service_insight (trend_rule d) = []).
  { unfold trend_rule.
    repeat match goal with |- context [if ?b then _ else _] => destruct b end;
      reflexivity. }
  assert (Y : filter is_short_service_insight (young_rule d) = []).
  { unfold young_rule.
    repeat match goal with |- context [if ?b then _ else _] => destruct b end;
      reflexivity. }
  assert (S : filter is_short_service_insight (short_service_rule d)
              = short_service_rule d).
  { unfold short_service_rule.
    repeat match goal with |- context [if ?b then _ else _] => destruct b end;
      [ | reflexivity ].
    cbn [filter]. unfold is_short_service_insight, short_service_insight.
    now rewrite prefix_app. }
  rewrite G, T, Y, S. reflexivity.
Qed.

Lemma in_recommendations
      (d : Processed) (top dept : string) :
  (In rec_male_focus
      (reason_recommendations top ++ service_recommendations d
       ++ gender_recommendation d ++ [rec_department dept])%list
   <-> F64.gtb (pct_where (is_gender MALE) d) (F64.of_Z 65) = true) /\
  (In rec_work_life
      (reason_recommendations top ++ service_recommendations d
       ++ gender_recommendation d ++ [rec_department dept])%list
   <-> F64.gtb (pct_where (is_gender MALE) d) (F64.of_Z 65) = false) /\
  (In rec_onboarding
      (reason_recommendations top ++ service_recommendations d
       ++ gender_recommendation d ++ [rec_department dept])%list
   <-> F64.gtb (pct_where is_short_service d) (F64.of_Z 30) = true) /\
  (In rec_recruitment
      (reason_recommendations top ++ service_recommendations d
       ++ gender_recommendation d ++ [rec_department dept])%list
   <-> F64.gtb (pct_where is_short_service d) (F64.of_Z 30) = true).
Proof.
  rewrite !in_app_iff.
  unfold service_recommendations, gender_recommendation.
  destruct (reason_recommendations_spec top)
    as [ [_ ->] | [ [_ ->] | [ [_ ->] | (_ & _ & _ & ->) ] ] ];
    destruct (F64.gtb (pct_where (is_gender MALE) d) (F64.of_Z 65));
    destruct (F64.gtb (pct_where is_short_service d) (F64.of_Z 30));
    simpl;
    repeat split; intros H; try reflexivity; try tauto;
    repeat (destruct H as [ H | H ]); try contradiction;
    try discriminate H; try (string_differs H).
Qed.

(** X10: The insight list and the recommendation list of the same data agree:
    the male warning is among the insights exactly when the male-focused
    recommendation is given (and the work-life one is not); the
    short-service note is among the insights exactly when the onboarding
    and recruitment recommendations are given; and the department named
    in the insight is the department named in the recommendation. *)
Theorem insights_match_recommendations (self : Analyzer) (d : Processed) :
  processed_data self = Some d ->
  d <> [] ->
  exists l recs dept,
    insights (snd (generate_insights self)) = l /\
    generate_recommendations self = Returns recs /\
    (In (male_warning (pct_where (is_gender MALE) d)) l
     <-> In rec_male_focus recs) /\
    (In rec_male_focus recs <-> ~ In rec_work_life recs) /\
    (In (short_service_insight (pct_where is_short_service d)) l
     <-> In rec_onboarding recs) /\
    (In rec_onboarding recs <-> In rec_recruitment recs) /\
    In (top_department_insight dept) l /\
    In (rec_department dept) recs.
Proof.
  intros Hdata Hrows.
  destruct (compute_insights_nonempty d Hrows) as (top & dept & Et & Ed & E).
  destruct (compute_recommendations_nonempty d Hrows)
    as (top' & dept' & Et' & Ed' & E').
  assert (top' = top) by congruence. assert (dept' = dept) by congruence.
  subst top' dept'.
  eexists. eexists. exists dept.
  rewrite (generate_insights_returns self d _ Hdata E).
  unfold generate_recommendations. rewrite Hdata.
  split; [ reflexivity | ]. split; [ exact E' | ].
  destruct (in_recommendations d top dept) as (R1 & R2 & R3 & R4).
  rewrite R1, R2, R3, R4. cbn [insights snd].
  split; [ | split ]; [ | | split; [ | split; [ | split ] ] ].
  - (* male warning *)
    split.
    + intros Hin.
      assert (F : In (male_warning (pct_where (is_gender MALE) d))
                     (gender_rule d)).
      { assert (W : is_gender_warning
                      (male_warning (pct_where (is_gender MALE) d)) = true).
        { unfold is_gender_warning. now rewrite male_warning_is_male. }
        pose proof (conj Hin W) as K.
        apply filter_In in K.
        rewrite !filter_app, gender_rule_all_warnings, trend_rule_no_warning,
          young_rule_no_warning, short_service_rule_no_warning in K.
        cbn [filter] in K.
        rewrite top_reason_insight_no_warning,
          top_department_insight_no_warning in K.
        now rewrite !app_nil_r in K. }
      unfold gender_rule in F.
      destruct (F64.gtb (pct_where (is_gender MALE) d) (F64.of_Z 65));
        [ reflexivity | ].
      destruct (F64.gtb (pct_where (is_gender FEMALE) d) (F64.of_Z 50));
        simpl in F; [ | contradiction ].
      destruct F as [ F | [] ]. string_differs F.
    + intros G. apply in_or_app. left. unfold gender_rule. rewrite G.
      now left.
  - destruct (F64.gtb (pct_where (is_gender MALE) d) (F64.of_Z 65));
      split; congruence.
  - (* short-service note *)
    split.
    + intros Hin.
      assert (F : In (short_service_insight (pct_where is_short_service d))
                     (short_service_rule d)).
      { rewrite <- (short_service_only_from_its_rule d top dept).
        apply filter_In. split; [ exact Hin | apply prefix_app ]. }
      unfold short_service_rule in F.
      destruct (F64.gtb (pct_where is_short_service d) (F64.of_Z 30));
        [ reflexivity | contradiction ].
    + intros G. rewrite !in_app_iff. do 5 right.
      unfold short_service_rule. rewrite G. now left.
  - tauto.
  - rewrite !in_app_iff. do 3 right. left. now left.
  - rewrite !in_app_iff. do 3 right. now left.
Qed.

Lemma insights_match_recommendations_witness :
  exists l recs,
    insights (snd (generate_insights (loaded seven_male_three_female))) = l /\
    generate_recommendations (loaded seven_male_three_female) = Returns recs /\
    In rec_male_focus recs /\
    In (male_warning (pct_where (is_gender MALE)
                        (map categorize seven_male_three_female))) l.
Proof.
  destruct (insights_match_recommendations (loaded seven_male_three_female)
              (map categorize seven_male_three_female)
              ltac:(vm_compute; reflexivity) ltac:(discriminate))
    as (l & recs & dept & El & Er & H1 & _).
  exists l, recs. split; [ exact El | ]. split; [ exact Er | ].
  assert (K : In rec_male_focus recs).
  { vm_compute in Er. injection Er as <-. vm_compute. tauto. }
  split; [ exact K | ]. apply H1. exact K.
Defined.

(** X11: On a frame with rows the gender rule of [generate_insights] decides
    on, and cites, the very percentages that [get_summary_stats] reports
    as [male_pct] and [female_pct]; on a frame without rows the two differ:
    the mean of the rule is NaN, the guarded field is 0. *)
Theorem gender_rule_from_summary (d : Processed) :
  (d <> [] ->
   pct_where (is_gender MALE) d = male_pct (summarize d) /\
   pct_where (is_gender FEMALE) d = female_pct (summarize d) /\
   gender_rule d =
     if F64.gtb (male_pct (summarize d)) (F64.of_Z 65)
     then [male_warning (male_pct (summarize d))]
     else if F64.gtb (female_pct (summarize d)) (F64.of_Z 50)
          then [female_warning (female_pct (summarize d))]
          else []) /\
  (d = [] ->
   pct_where (is_gender MALE) d = F64.nan /\
   male_pct (summarize d) = F64.zero /\
   gender_rule d = []).
Proof.
  split.
  - intros Hd. unfold gender_rule.
    rewrite !(pct_where_percentage _ d Hd). simpl. auto.
  - intros ->. repeat split.
Qed.

(** ** The summary statistics in general *)

Lemma remove_NoDup (x : string) (l : list string) :
  NoDup l -> NoDup (remove string_dec x l).
Proof.
  induction 1 as [ | y l Hy Hl IH ]; simpl; [ constructor | ].
  destruct (string_dec x y); [ exact IH | ].
  constructor; [ | exact IH ].
  intros H. apply in_remove in H. tauto.
Qed.

Lemma unique_NoDup (l : list string) : NoDup (unique l).
Proof.
  induction l as [ | x l IH ]; simpl; constructor.
  - apply remove_In.
  - now apply remove_NoDup.
Qed.

Lemma nunique_nodup (l : list string) :
  nunique l = length (nodup string_dec l).
Proof.
  unfold nunique. apply Permutation_length, NoDup_Permutation.
  - apply unique_NoDup.
  - apply NoDup_nodup.
  - intros x. rewrite unique_In, nodup_In. tauto.
Qed.

Lemma nunique_bounds (l : list string) :
  (nunique l <= length l)%nat /\ (l <> [] -> (1 <= nunique l)%nat).
Proof.
  split.
  - unfold nunique. apply NoDup_incl_length; [ apply unique_NoDup | ].
    intros x. apply unique_In.
  - destruct l; [ congruence | intros _; unfold nunique; simpl; lia ].
Qed.

Lemma gender_counts_le (d : Processed) :
  (count_where (is_gender MALE) d + count_where (is_gender FEMALE) d
   <= length d)%nat.
Proof.
  unfold count_where, is_gender.
  induction d as [ | r d IH ]; simpl; [ lia | ].
  destruct (String.eqb_spec (gender (emp r)) MALE) as [ E | N ].
  - rewrite E. simpl. lia.
  - destruct (String.eqb (gender (emp r)) FEMALE); simpl; lia.
Qed.

(** X12: Whatever the gender column holds, no row is counted both as male and
    as female, so the two counts together are at most the total; the
    numbers of distinct reasons and departments are the numbers of distinct
    values of their columns, at most the total and, on a frame with rows,
    at least 1. *)
Theorem summary_counts (d : Processed) :
  total (summarize d) = length d /\
  (male_count (summarize d) + female_count (summarize d)
   <= total (summarize d))%nat /\
  unique_reasons (summarize d) = length (nodup string_dec (reasons d)) /\
  unique_departments (summarize d)
  = length (nodup string_dec (departments d)) /\
  (unique_reasons (summarize d) <= total (summarize d))%nat /\
  (unique_departments (summarize d) <= total (summarize d))%nat /\
  (d <> [] -> (1 <= unique_reasons (summarize d))%nat /\
              (1 <= unique_departments (summarize d))%nat).
Proof.
  simpl.
  split; [ reflexivity | ]. split; [ apply gender_counts_le | ].
  split; [ apply nunique_nodup | ]. split; [ apply nunique_nodup | ].
  destruct (nunique_bounds (reasons d)) as [R1 R2].
  destruct (nunique_bounds (departments d)) as [D1 D2].
  unfold reasons, departments in *. rewrite length_map in R1, D1.
  repeat split; auto; [ apply R2 | apply D2 ]; destruct d; simpl; congruence.
Qed.

Lemma fold_min_spec (y : Z) (ys : list Z) :
  In (fold_right Z.min y ys) (y :: ys) /\
  forall z, In z (y :: ys) -> fold_right Z.min y ys <= z.
Proof.
  induction ys as [ | x ys (Hin & Hle) ]; simpl.
  - split; [ now left | intros z [ <- | [] ]; lia ].
  - split.
    + destruct (Z.min_spec x (fold_right Z.min y ys)) as [ [_ ->] | [_ ->] ].
      * right. now left.
      * destruct Hin as [ Hin | Hin ]; [ now left | right; now right ].
    + intros z [ <- | [ <- | Hz ] ].
      * specialize (Hle y (or_introl eq_refl)). lia.
      * lia.
      * specialize (Hle z (or_intror Hz)). lia.
Qed.

Lemma fold_max_spec (y : Z) (ys : list Z) :
  In (fold_right Z.max y ys) (y :: ys) /\
  forall z, In z (y :: ys) -> z <= fold_right Z.max y ys.
Proof.
  induction ys as [ | x ys (Hin & Hle) ]; simpl.
  - split; [ now left | intros z [ <- | [] ]; lia ].
  - split.
    + destruct (Z.max_spec x (fold_right Z.max y ys)) as [ [_ ->] | [_ ->] ].
      * destruct Hin as [ Hin | Hin ]; [ now left | right; now right ].
      * right. now left.
    + intros z [ <- | [ <- | Hz ] ].
      * specialize (Hle y (or_introl eq_refl)). lia.
      * lia.
      * specialize (Hle z (or_intror Hz)). lia.
Qed.

(** X13: On a frame with rows [years_range] is "lo - hi" where [lo] and [hi]
    are departure years of the data that bound all the others; on a frame
    without rows it reads "nan - nan". *)
Theorem years_range_spec (d : Processed) :
  (d <> [] ->
   exists lo hi,
     years_range (summarize d)
     = F64.string_of_Z lo ++ " - " ++ F64.string_of_Z hi /\
     In lo (years d) /\ In hi (years d) /\
     forall y, In y (years d) -> lo <= y <= hi) /\
  (d = [] -> years_range (summarize d) = "nan - nan").
Proof.
  split.
  - intros Hd. simpl. unfold min_string, max_string.
    destruct (years d) as [ | y ys ] eqn:E.
    { destruct d; [ congruence | discriminate ]. }
    destruct (fold_min_spec y ys) as [I1 L1].
    destruct (fold_max_spec y ys) as [I2 L2].
    exists (fold_right Z.min y ys), (fold_right Z.max y ys).
    split; [ reflexivity | ]. split; [ exact I1 | ]. split; [ exact I2 | ].
    intros z Hz. split; [ now apply L1 | now apply L2 ].
  - intros ->. reflexivity.
Qed.

(** ** Frequency tables cut to their first entries *)

Lemma insert_by_count_perm (p : string * nat) (l : list (string * nat)) :
  Permutation (insert_by_count p l) (p :: l).
Proof.
  induction l as [ | q l IH ]; simpl; [ reflexivity | ].
  destruct (Nat.leb (snd q) (snd p)); [ reflexivity | ].
  rewrite IH. apply perm_swap.
Qed.

Lemma value_counts_perm (l : list string) :
  Permutation (value_counts l) (map (fun x => (x, count x l)) (unique l)).
Proof.
  unfold value_counts.
  induction (map (fun x => (x, count x l)) (unique l)) as [ | p u IH ];
    simpl; [ reflexivity | ].
  rewrite insert_by_count_perm. now constructor.
Qed.

Lemma value_counts_keys (l : list string) :
  Permutation (map fst (value_counts l)) (unique l).
Proof.
  rewrite (Permutation_map fst (value_counts_perm l)), map_map. simpl.
  now rewrite map_id.
Qed.

Lemma sorted_firstn {A : Type} (R : A -> A -> Prop) (n : nat) (l : list A) :
  StronglySorted R l -> StronglySorted R (firstn n l).
Proof.
  intros Hs. revert n. induction Hs as [ | a l Hs IH Ha ]; intros [ | n ];
    simpl; try constructor; auto.
  rewrite Forall_forall in *. intros x Hx. apply Ha.
  rewrite <- (firstn_skipn n l). apply in_or_app. now left.
Qed.

Lemma sorted_firstn_skipn {A : Type} (R : A -> A -> Prop) (n : nat)
      (l : list A) (a b : A) :
  StronglySorted R l -> In a (firstn n l) -> In b (skipn n l) -> R a b.
Proof.
  intros Hs. revert n. induction Hs as [ | x l Hs IH Hx ]; intros [ | n ];
    simpl; try tauto.
  intros [ <- | Ha ] Hb.
  - rewrite Forall_forall in Hx. apply Hx.
    rewrite <- (firstn_skipn n l). apply in_or_app. now right.
  - now apply (IH n).
Qed.

(** X14: The first [n] entries of a frequency table (the bars of the reason
    and department charts, the three risk indicators): there are [n] of
    them, or as many as there are distinct values if that is less; each is
    a distinct value of the column with its number of rows, at least 1;
    they come by decreasing count; and no value left out has more rows than
    one that is shown. *)
Theorem value_counts_head (n : nat) (l : list string) :
  length (head n (value_counts l)) = Nat.min n (nunique l) /\
  NoDup (map fst (head n (value_counts l))) /\
  StronglySorted cge (head n (value_counts l)) /\
  (forall x c, In (x, c) (head n (value_counts l)) ->
               In x l /\ c = count x l /\ (1 <= c)%nat) /\
  (forall y x c, In y l -> ~ In y (map fst (head n (value_counts l))) ->
                 In (x, c) (head n (value_counts l)) ->
                 (count y l <= c)%nat).
Proof.
  unfold head.
  assert (Hlen : length (value_counts l) = nunique l).
  { unfold nunique. rewrite <- (Permutation_length (value_counts_keys l)).
    now rewrite length_map. }
  split; [ rewrite length_firstn, Hlen; reflexivity | ].
  split.
  { rewrite <- firstn_map.
    assert (N : NoDup (map fst (value_counts l))).
    { eapply Permutation_NoDup; [ symmetry; apply value_counts_keys | ].
      apply unique_NoDup. }
    rewrite <- (firstn_skipn n (map fst (value_counts l))) in N.
    now apply NoDup_app_remove_r in N. }
  split; [ apply sorted_firstn, value_counts_sorted | ].
  split.
  - intros x c H. apply in_firstn in H. apply value_counts_In in H.
    simpl in H. destruct H as [Hx Hc]. repeat split; auto.
    subst c. unfold count. now apply count_occ_In.
  - intros y x c Hy Hnot Hx.
    assert (K : In (y, count y l) (value_counts l))
      by (apply value_counts_In; simpl; auto).
    rewrite <- (firstn_skipn n (value_counts l)) in K.
    apply in_app_or in K. destruct K as [ K | K ].
    + exfalso. apply Hnot. apply in_map_iff. exists (y, count y l). auto.
    + pose proof (sorted_firstn_skipn cge n _ _ _ (value_counts_sorted l) Hx K)
        as C. exact C.
Qed.

(** ** The two columns of the page *)

Lemma enumerate_app {A : Type} (s : nat) (a b : list A) :
  enumerate s (a ++ b) = (enumerate s a ++ enumerate (s + length a) b)%list.
Proof.
  revert s. induction a as [ | x a IH ]; intros s; simpl.
  - now rewrite Nat.add_0_r.
  - rewrite IH. do 3 f_equal. lia.
Qed.

Lemma enumerate_shift {A : Type} (s : nat) (l : list A) :
  map (fun p => (fst p + 1, snd p))%nat (enumerate s l) = enumerate (s + 1) l.
Proof.
  revert s. induction l as [ | x l IH ]; intros s; simpl; [ reflexivity | ].
  now rewrite IH.
Qed.

Lemma enumerate_fst {A : Type} (s : nat) (l : list A) :
  map fst (enumerate s l) = seq s (length l).
Proof.
  revert s. induction l as [ | x l IH ]; intros s; simpl; [ reflexivity | ].
  now rewrite IH.
Qed.

Lemma enumerate_snd {A : Type} (s : nat) (l : list A) :
  map snd (enumerate s l) = l.
Proof.
  revert s. induction l as [ | x l IH ]; intros s; simpl; [ reflexivity | ].
  now rewrite IH.
Qed.

Lemma columns_app {A : Type} (l : list A) :
  (first_column l ++ second_column l)%list = l.
Proof. apply firstn_skipn. Qed.

Lemma first_column_length {A : Type} (l : list A) :
  length (first_column l) = (length l / 2)%nat.
Proof.
  unfold first_column. rewrite length_firstn.
  apply Nat.min_l. apply Nat.Div0.div_le_upper_bound. lia.
Qed.

Lemma second_column_length {A : Type} (l : list A) :
  length (second_column l) = (length l - length l / 2)%nat.
Proof. unfold second_column. apply length_skipn. Qed.

Lemma tiers_app (recs : list string) :
  (immediate_tier recs ++ strategic_tier recs)%list = export_entries recs.
Proof.
  unfold immediate_tier, strategic_tier, export_entries.
  rewrite !enumerate_shift. change (0 + 1)%nat with 1%nat.
  rewrite <- (columns_app recs) at 4.
  rewrite enumerate_app, first_column_length.
  do 2 f_equal. apply Nat.add_comm.
Qed.

(** X15: The numbers shown in the two recommendation tiers run on from the
    first tier to the second and are the numbers of the exported text:
    every recommendation carries its position, counted from 1, in the
    list. *)
Theorem recommendation_numbering (recs : list string) :
  (immediate_tier recs ++ strategic_tier recs)%list = export_entries recs /\
  map fst (export_entries recs) = seq 1 (length recs) /\
  map snd (export_entries recs) = recs.
Proof.
  split; [ apply tiers_app | ].
  unfold export_entries. rewrite enumerate_shift.
  split; [ apply enumerate_fst | apply enumerate_snd ].
Qed.

Lemma last_app_nonempty {A : Type} (l1 l2 : list A) (d : A) :
  l2 <> [] -> last (l1 ++ l2) d = last l2 d.
Proof.
  intros H. induction l1 as [ | x l1 IH ]; [ reflexivity | ].
  simpl app. rewrite <- IH.
  destruct (l1 ++ l2)%list eqn:E; [ | reflexivity ].
  apply app_eq_nil in E. tauto.
Qed.

Section Columns.

Variable self : Analyzer.
Variable d : Processed.
Hypothesis Hdata : processed_data self = Some d.
Hypothesis Hrows : d <> [].

(** X16: On a frame with rows the two recommendation tiers have the same
    number of entries (1, 2 or 3), and the department recommendation is
    the last entry of the second tier, with the number of the last
    recommendation. *)
Theorem recommendation_tiers :
  exists recs dept,
    generate_recommendations self = Returns recs /\
    top_department_of d = Returns dept /\
    length (immediate_tier recs) = length (strategic_tier recs) /\
    (1 <= length (immediate_tier recs) <= 3)%nat /\
    last (strategic_tier recs) (O, "") = (length recs, rec_department dept).
Proof.
  destruct (compute_recommendations_nonempty d Hrows)
    as (top & dept & _ & Ed & E).
  eexists. exists dept.
  unfold generate_recommendations. rewrite Hdata.
  split; [ exact E | ]. split; [ exact Ed | ].
  set (recs := (reason_recommendations top ++ service_recommendations d
                ++ gender_recommendation d ++ [rec_department dept])%list).
  assert (Hlen : length recs = 2%nat \/ length recs = 4%nat
                 \/ length recs = 6%nat).
  { unfold recs. rewrite !length_app. simpl.
    pose proof (reason_recommendations_length top).
    pose proof (service_recommendations_length d).
    pose proof (gender_recommendation_length d). lia. }
  assert (L1 : length (immediate_tier recs) = (length recs / 2)%nat).
  { unfold immediate_tier. now rewrite length_map,
      <- (length_map fst), enumerate_fst, length_seq, first_column_length. }
  assert (L2 : length (strategic_tier recs)
               = (length recs - length recs / 2)%nat).
  { unfold strategic_tier. now rewrite <- (length_map fst), enumerate_fst,
      length_seq, second_column_length. }
  assert (Hhalf : (length recs / 2 + length recs / 2 = length recs)%nat).
  { destruct Hlen as [ -> | [ -> | -> ] ]; reflexivity. }
  split; [ lia | ]. split.
  { destruct Hlen as [ H | [ H | H ] ]; rewrite L1, H; simpl; lia. }
  pose proof (tiers_app recs) as Happ.
  (* the last entry of the whole numbering is in the second tier *)
  assert (Hne : strategic_tier recs <> []).
  { intros K. rewrite K in L2. cbn [length] in L2. lia. }
  rewrite <- (last_app_nonempty (immediate_tier recs)) by exact Hne.
  rewrite Happ. unfold export_entries. rewrite enumerate_shift.
  change (0 + 1)%nat with 1%nat.
  unfold recs. rewrite !app_assoc, enumerate_app. simpl enumerate.
  rewrite last_last. f_equal. rewrite !length_app. simpl. lia.
Qed.

(** X17: On a frame with rows the insight list is shown in two columns of one
    to three cards each, the second column holding as many cards as the
    first or one more; a gender warning, when there is one, is the first
    card of the first column. *)
Theorem insight_columns :
  exists l,
    insights (snd (generate_insights self)) = l /\
    (first_column l ++ second_column l)%list = l /\
    (1 <= length (first_column l) <= 3)%nat /\
    (length (first_column l) <= length (second_column l)
     <= length (first_column l) + 1)%nat /\
    (forall w, In w (gender_rule d) -> hd_error (first_column l) = Some w).
Proof.
  destruct (compute_insights_nonempty d Hrows) as (top & dept & _ & _ & E).
  rewrite (generate_insights_returns self d _ Hdata E).
  cbn [insights snd].
  remember (gender_rule d
            ++ [top_reason_insight top (pct_where (is_reason top) d)]
            ++ trend_rule d ++ [top_department_insight dept]
            ++ young_rule d ++ short_service_rule d)%list as l eqn:El.
  exists l.
  split; [ reflexivity | ]. split; [ apply columns_app | ].
  assert (Hlen : (2 <= length l <= 6)%nat).
  { rewrite El, !length_app. simpl.
    pose proof (gender_rule_length d). pose proof (trend_rule_length d).
    pose proof (young_rule_length d). pose proof (short_service_rule_length d).
    lia. }
  rewrite first_column_length, second_column_length.
  assert (Hdiv : (length l / 2 = 1 /\ (length l = 2 \/ length l = 3))%nat \/
                 (length l / 2 = 2 /\ (length l = 4 \/ length l = 5))%nat \/
                 (length l / 2 = 3 /\ length l = 6)%nat).
  { destruct (length l) as [ | [ | [ | [ | [ | [ | [ | n ] ] ] ] ] ] ];
      try lia; simpl; lia. }
  split; [ lia | ]. split; [ lia | ].
  intros w Hw. unfold first_column.
  assert (G : gender_rule d = [w]).
  { pose proof (gender_rule_length d) as Hg.
    destruct (gender_rule d) as [ | w' [ | ] ]; simpl in *; try lia; try tauto.
    destruct Hw as [ -> | [] ]. reflexivity. }
  destruct (length l / 2)%nat as [ | h ] eqn:Eh; [ lia | ].
  rewrite El, G. reflexivity.
Qed.

End Columns.

Lemma recommendation_tiers_witness :
  exists recs,
    generate_recommendations (loaded seven_male_three_female) = Returns recs /\
    length (immediate_tier recs) = length (strategic_tier recs).
Proof.
  destruct (recommendation_tiers (loaded seven_male_three_female)
              (map categorize seven_male_three_female)
              ltac:(vm_compute; reflexivity) ltac:(discriminate))
    as (recs & dept & E & _ & H & _).
  exists recs. split; [ exact E | exact H ].
Defined.

Lemma insight_columns_witness :
  exists l,
    insights (snd (generate_insights (loaded seven_male_three_female))) = l /\
    (1 <= length (first_column l) <= 3)%nat.
Proof.
  destruct (insight_columns (loaded seven_male_three_female)
              (map categorize seven_male_three_female)
              ltac:(vm_compute; reflexivity) ltac:(discriminate))
    as (l & E & _ & H & _).
  exists l. split; [ exact E | exact H ].
Defined.

(** ** The cards of the insights ([main]) *)

Lemma prefix_cons (a b : ascii) (n rest : string) :
  String.prefix (String a n) (String b rest)
  = if Ascii.eqb a b then String.prefix n rest else false.
Proof.
  simpl. destruct (ascii_dec a b) as [ -> | N ].
  - now rewrite Ascii.eqb_refl.
  - apply Ascii.eqb_neq in N. now rewrite N.
Qed.

Lemma contains_cons (needle : string) (b : ascii) (rest : string) :
  contains needle (String b rest)
  = (String.prefix needle (String b rest) || contains needle rest)%bool.
Proof. reflexivity. Qed.

Lemma mark_free_app (a b : string) :
  mark_free (a ++ b) = (mark_free a && mark_free b)%bool.
Proof.
  induction a as [ | c a IH ]; simpl; [ reflexivity | ].
  rewrite IH. now rewrite !andb_assoc.
Qed.

Lemma contains_skip (c0 : ascii) (n s t : string) :
  c0 = "240"%char \/ c0 = "226"%char ->
  mark_free s = true ->
  contains (String c0 n) (s ++ t) = contains (String c0 n) t.
Proof.
  intros Hc. induction s as [ | c s IH ]; simpl append; [ reflexivity | ].
  intros H. simpl in H. apply andb_prop in H. destruct H as [H Hs].
  apply andb_prop in H. destruct H as [H1 H2].
  rewrite contains_cons, prefix_cons, (IH Hs).
  replace (Ascii.eqb c0 c) with false; [ reflexivity | ].
  symmetry. rewrite Ascii.eqb_sym.
  destruct Hc as [ -> | -> ]; [ now apply negb_true_iff | now apply negb_true_iff ].
Qed.

Lemma contains_mark_free (c0 : ascii) (n s : string) :
  c0 = "240"%char \/ c0 = "226"%char ->
  mark_free s = true ->
  contains (String c0 n) s = false.
Proof.
  intros Hc Hs.
  assert (E : (s ++ "")%string = s).
  { clear. induction s as [ | c s IH ]; simpl; [ reflexivity | now rewrite IH ]. }
  rewrite <- E, (contains_skip c0 n s "" Hc Hs). reflexivity.
Qed.

Lemma string_of_uint_mark_free (u : Decimal.uint) :
  mark_free (NilEmpty.string_of_uint u) = true.
Proof. induction u; simpl; auto. Qed.

Lemma string_of_Z_mark_free (z : Z) : mark_free (F64.string_of_Z z) = true.
Proof.
  unfold F64.string_of_Z, NilZero.string_of_int, NilZero.string_of_uint.
  destruct (Z.to_int z) as [ u | u ]; destruct u; simpl;
    auto using string_of_uint_mark_free.
Qed.

Lemma format_1f_mark_free (x : float) : mark_free (F64.format_1f x) = true.
Proof.
  destruct x as [ s | s | | s m e ]; unfold F64.format_1f;
    try (destruct s; reflexivity); try reflexivity.
  rewrite !mark_free_app, !string_of_Z_mark_free. destruct s; reflexivity.
Qed.

Lemma prefix_app_false (needle s rest : string) :
  String.prefix needle s = false ->
  String.prefix s needle = false ->
  String.prefix needle (s ++ rest) = false.
Proof.
  revert needle. induction s as [ | b s IH ]; intros [ | a n ]; simpl append;
    try discriminate.
  rewrite !prefix_cons, (Ascii.eqb_sym b a).
  destruct (Ascii.eqb a b); [ apply IH | reflexivity ].
Qed.

Lemma contains_clear (needle lit rest : string) :
  clear_of needle lit = true ->
  contains needle (lit ++ rest) = contains needle rest.
Proof.
  induction lit as [ | c lit IH ]; [ reflexivity | ].
  intros H. cbn [clear_of] in H.
  apply andb_prop in H. destruct H as [H Hl].
  apply andb_prop in H. destruct H as [H1 H2].
  apply negb_true_iff in H1, H2.
  change (String c lit ++ rest)%string with (String c (lit ++ rest)).
  rewrite contains_cons.
  change (String c (lit ++ rest)) with (String c lit ++ rest)%string.
  rewrite (prefix_app_false _ _ _ H1 H2), (IH Hl). reflexivity.
Qed.

Lemma contains_prefix (needle hay : string) :
  String.prefix needle hay = true -> contains needle hay = true.
Proof.
  intros H. destruct hay as [ | b rest ].
  - change (contains needle "") with (String.prefix needle "" || false)%bool.
    now rewrite H.
  - now rewrite contains_cons, H.
Qed.

Ltac skip_text :=
  repeat first
    [ rewrite contains_clear by (vm_compute; reflexivity)
    | rewrite contains_skip by (auto using format_1f_mark_free) ].

Lemma card_male_warning (x : float) : card_of (male_warning x) = warning_card.
Proof.
  unfold card_of, male_warning.
  rewrite (contains_prefix "🚨"); [ reflexivity | ].
  cbn [append]. rewrite !prefix_cons. reflexivity.
Qed.

Lemma card_female_warning (x : float) :
  card_of (female_warning x) = warning_card.
Proof.
  unfold card_of, female_warning.
  rewrite (contains_prefix "⚠️"); [ now rewrite orb_true_r | ].
  cbn [append]. rewrite !prefix_cons. reflexivity.
Qed.

Lemma card_trend :
  card_of upward_trend = insight_card /\ card_of downward_trend = insight_card.
Proof. split; vm_compute; reflexivity. Qed.

Lemma card_top_reason (top : string) (x : float) :
  mark_free top = true ->
  card_of (top_reason_insight top x) = success_card.
Proof.
  intros H. unfold card_of, top_reason_insight. skip_text. reflexivity.
Qed.

Lemma card_top_department (dept : string) :
  mark_free dept = true ->
  card_of (top_department_insight dept) = success_card.
Proof.
  intros H. unfold card_of, top_department_insight. skip_text.
  rewrite !contains_mark_free by auto. reflexivity.
Qed.

Lemma card_young (x : float) : card_of (young_insight x) = success_card.
Proof. unfold card_of, young_insight. skip_text. reflexivity. Qed.

Lemma card_short_service (x : float) :
  card_of (short_service_insight x) = success_card.
Proof. unfold card_of, short_service_insight. skip_text. reflexivity. Qed.

Lemma card_gender_rule (d : Processed) (s : string) :
  In s (gender_rule d) -> card_of s = warning_card.
Proof.
  unfold gender_rule.
  repeat match goal with |- context [if ?b then _ else _] => destruct b end;
    simpl; intros H; try contradiction; destruct H as [ <- | [] ];
    [ apply card_male_warning | apply card_female_warning ].
Qed.

Lemma card_trend_rule (d : Processed) (s : string) :
  In s (trend_rule d) -> card_of s = insight_card.
Proof.
  unfold trend_rule.
  repeat match goal with |- context [if ?b then _ else _] => destruct b end;
    simpl; intros H; try contradiction; destruct H as [ <- | [] ];
    apply card_trend.
Qed.

Lemma card_young_rule (d : Processed) (s : string) :
  In s (young_rule d) -> card_of s = success_card.
Proof.
  unfold young_rule.
  destruct (F64.gtb _ _); simpl; intros H; try contradiction.
  destruct H as [ <- | [] ]. apply card_young.
Qed.

Lemma card_short_service_rule (d : Processed) (s : string) :
  In s (short_service_rule d) -> card_of s = success_card.
Proof.
  unfold short_service_rule.
  destruct (F64.gtb _ _); simpl; intros H; try contradiction.
  destruct H as [ <- | [] ]. apply card_short_service.
Qed.

Section Cards.

Variable self : Analyzer.
Variable d : Processed.
Hypothesis Hdata : processed_data self = Some d.
Hypothesis Hrows : d <> [].
Hypothesis Hplain :
  forallb (fun r => mark_free (reason (emp r))
                    && mark_free (department (emp r))) d = true.

(** X18: When no reason or department name holds a byte that one of the four
    marks starts with, the cards of the insights are told by the rule that
    gave them: the warning cards are exactly the gender warnings, the
    insight cards exactly the trend notes, and every other insight, the
    note on young employees included, is shown in a success card. *)
Theorem insight_cards (s : string) :
  In s (insights (snd (generate_insights self))) ->
  (card_of s = warning_card <-> In s (gender_rule d)) /\
  (card_of s = insight_card <-> In s (trend_rule d)) /\
  (card_of s = success_card
   <-> ~ In s (gender_rule d) /\ ~ In s (trend_rule d)) /\
  (In s (young_rule d) -> card_of s = success_card).
Proof.
  destruct (top_reason_returns d Hrows) as (top & Etop & [Htop _] & _).
  destruct (top_department_returns d Hrows) as (dept & Edept & Hdept & _).
  assert (E : compute_insights d =
              Returns (gender_rule d
               ++ [top_reason_insight top (pct_where (is_reason top) d)]
               ++ trend_rule d ++ [top_department_insight dept]
               ++ young_rule d ++ short_service_rule d)%list).
  { unfold compute_insights, reason_rule, department_rule.
    rewrite Etop, Edept. reflexivity. }
  rewrite (generate_insights_returns self d _ Hdata E). cbn [insights snd].
  rewrite forallb_forall in Hplain.
  assert (Mtop : mark_free top = true).
  { unfold reasons in Htop. apply in_map_iff in Htop.
    destruct Htop as (r & <- & Hr). apply Hplain in Hr.
    apply andb_prop in Hr. tauto. }
  assert (Mdept : mark_free dept = true).
  { unfold departments in Hdept. apply in_map_iff in Hdept.
    destruct Hdept as (r & <- & Hr). apply Hplain in Hr.
    apply andb_prop in Hr. tauto. }
  pose proof (card_gender_rule d s) as Hg.
  pose proof (card_trend_rule d s) as Ht.
  pose proof (card_young_rule d s) as Hy.
  intros Hin.
  assert (C : (In s (gender_rule d) /\ card_of s = warning_card) \/
              (In s (trend_rule d) /\ card_of s = insight_card) \/
              card_of s = success_card).
  { rewrite !in_app_iff in Hin.
    destruct Hin as [ H | [ H | [ H | [ H | [ H | H ] ] ] ] ].
    - left. auto.
    - right. right. destruct H as [ <- | [] ]. now apply card_top_reason.
    - right. left. auto.
    - right. right. destruct H as [ <- | [] ]. now apply card_top_department.
    - right. right. auto.
    - right. right. now apply (card_short_service_rule d). }
  destruct C as [ [H C] | [ [H C] | C ] ];
    repeat split; intros; auto; try congruence; try tauto;
    try (intro K; (apply Hg in K || apply Ht in K); congruence);
    try (exfalso;
         match goal with
         | K : In s _ |- _ => (apply Hg in K || apply Ht in K); congruence
         end).
Qed.

End Cards.

Lemma insight_cards_witness :
  card_of (male_warning (pct_where (is_gender MALE)
                           (map categorize seven_male_three_female)))
  = warning_card.
Proof.
  apply (insight_cards (loaded seven_male_three_female)
           (map categorize seven_male_three_female)); try reflexivity.
  - discriminate.
  - vm_compute. auto.
  - vm_compute. auto.
Defined.

(** ** The run of [main]: process, summarize, recommend *)

Lemma process_data_state (df : DataFrame) (self : Analyzer) :
  processed_data (snd (process_data df self)) = Some (map categorize df) /\
  (df <> [] ->
   generate_insights (snd (process_data df self))
   = (Returns tt, snd (process_data df self))).
Proof.
  destruct df as [ | e df ].
  - split; [ reflexivity | congruence ].
  - destruct (compute_insights_nonempty (map categorize (e :: df)))
      as (t & p & _ & _ & E); [ discriminate | ].
    remember (map categorize (e :: df)) as rows eqn:Er.
    unfold process_data, generate_insights. rewrite <- Er.
    cbn [processed_data]. rewrite E. cbn [snd processed_data]. rewrite E.
    split; reflexivity.
Qed.

(** X19: After [process_data], whether it returned or raised, the summary is
    that of the categorized frame, with as many rows as the frame given;
    [generate_recommendations] then returns exactly when the frame has a
    row and raises [IndexError] otherwise; and, on a frame with rows,
    running [generate_insights] once more changes nothing. *)
Theorem after_process_data (df : DataFrame) (self : Analyzer) :
  get_summary_stats (snd (process_data df self))
  = Some (summarize (map categorize df)) /\
  total (summarize (map categorize df)) = length df /\
  ((exists recs,
      generate_recommendations (snd (process_data df self)) = Returns recs)
   <-> df <> []) /\
  (generate_recommendations (snd (process_data df self)) = Raises IndexError
   <-> df = []) /\
  (df <> [] ->
   generate_insights (snd (process_data df self))
   = (Returns tt, snd (process_data df self))).
Proof.
  destruct (process_data_state df self) as (Hp & Hi).
  unfold get_summary_stats, generate_recommendations. rewrite Hp.
  split; [ reflexivity | ].
  split; [ apply length_map | ].
  destruct df as [ | e df ].
  - change (compute_recommendations (map categorize []))
      with (@Raises (list string) IndexError).
    repeat split; try congruence.
    intros (recs & E). discriminate E.
  - destruct (compute_recommendations_nonempty (map categorize (e :: df)))
      as (t & p & _ & _ & E); [ discriminate | ].
    rewrite E. repeat split; try congruence; try discriminate.
    + eexists. reflexivity.
    + intros _. apply Hi. discriminate.
Qed.

(** ** The yearly table *)

(** X20: The table of departures per year, used by the trend rule and drawn
    as the yearly total: every departure year of the data has one entry,
    the entries come by increasing year, each holds the number of rows of
    its year, at least 1, and the counts add up to the number of rows. *)
Theorem yearly_table (d : Processed) :
  StronglySorted key_lt (groupby_size (years d)) /\
  NoDup (map fst (groupby_size (years d))) /\
  (forall y, In y (map fst (groupby_size (years d))) <-> In y (years d)) /\
  (forall y c, In (y, c) (groupby_size (years d)) ->
               c = count_occ Z.eq_dec (years d) y /\ (1 <= c)%nat) /\
  fold_right Nat.add O (yearly_trend d) = length d /\
  length (yearly_trend d) = distinct_years d.
Proof.
  destruct (groupby_size_spec (years d)) as (Hs & _ & K & _).
  split; [ exact Hs | ].
  split; [ now apply key_lt_NoDup | ].
  split; [ exact K | ].
  split; [ | split; [ apply yearly_trend_total | apply yearly_trend_length ] ].
  intros y c Hin.
  assert (Ec : c = count_occ Z.eq_dec (years d) y).
  { rewrite <- (lookup_year_In y c _ Hs Hin).
    unfold groupby_size. rewrite groupby_size_lookup by constructor.
    simpl. lia. }
  split; [ exact Ec | ].
  assert (Hy : In y (years d)).
  { apply K. apply in_map_iff. exists (y, c). auto. }
  apply (count_occ_In Z.eq_dec) in Hy. lia.
Qed.

(** ** The cleaning of the floating-point columns ([load_sample_data]) *)

Module Cleaning.

Import Rounding.

Ltac pow2 :=
  repeat match goal with
         | |- context [2 ^ ?k] =>
             let v := eval vm_compute in (2 ^ k) in change (2 ^ k) with v
         | H : context [2 ^ ?k] |- _ =>
             let v := eval vm_compute in (2 ^ k) in change (2 ^ k) with v in H
         end.

Lemma leb_refl (a : float) : FOrder.is_nan a = false -> SFleb a a = true.
Proof.
  intros H. apply FOrderFacts.leb_spec. repeat split; auto.
  apply FOrderFacts.klt_irrefl.
Qed.

Lemma ltb_leb (a b : float) : SFltb a b = true -> SFleb a b = true.
Proof.
  intros H. pose proof (FOrderFacts.ltb_asym a b H) as N.
  destruct (ltb_not_nan a b H) as [Ha Hb].
  now apply leb_of_not_ltb.
Qed.

(** A clipped value lies between the bounds and is the value itself or
    one of the bounds. *)
Lemma fclip_spec (lo hi a : float) :
  FOrder.is_nan a = false -> SFleb lo hi = true ->
  SFleb lo (fclip lo hi a) = true /\ SFleb (fclip lo hi a) hi = true /\
  (fclip lo hi a = a \/ fclip lo hi a = lo \/ fclip lo hi a = hi).
Proof.
  intros Ha Hlh.
  assert (Hlo : FOrder.is_nan lo = false)
    by (apply FOrderFacts.leb_spec in Hlh; tauto).
  assert (Hhi : FOrder.is_nan hi = false)
    by (apply FOrderFacts.leb_spec in Hlh; tauto).
  unfold fclip, npy_max, npy_min, F64.gtb, F64.ltb. rewrite Ha.
  destruct (SFltb lo a) eqn:G.
  - rewrite Ha. destruct (SFltb a hi) eqn:L.
    + split; [ now apply ltb_leb | ]. split; [ now apply ltb_leb | auto ].
    + split; [ exact Hlh | ]. split; [ now apply leb_refl | auto ].
  - rewrite Hlo. destruct (SFltb lo hi) eqn:L.
    + split; [ now apply leb_refl | ]. split; [ exact Hlh | auto ].
    + split; [ exact Hlh | ]. split; [ now apply leb_refl | auto ].
Qed.

(** A canonical binary64 value above the least exponent has a mantissa
    of 53 bits. *)
Lemma valid_normal (s : bool) (m : positive) (e : Z) :
  is_binary64 (S754_finite s m e) = true -> -1074 < e ->
  2 ^ 52 <= Zpos m < 2 ^ 53.
Proof.
  unfold is_binary64, valid_binary, bounded, canonical_mantissa, fexp, emin,
    F64.prec, F64.emax.
  intros H He. apply andb_prop in H. destruct H as [H _].
  apply Z.eqb_eq in H.
  assert (D : Zpos (digits2_pos m) = 53) by lia.
  pose proof (digits2_pos_bounds m) as B. rewrite D in B.
  exact B.
Qed.

(** A canonical value between two positive normal doubles is a positive
    normal double whose exponent and mantissa lie between theirs. *)
Lemma bracket (y : float) (mL mH : positive) (eL eH : Z) :
  is_binary64 y = true -> -1074 < eL ->
  SFleb (S754_finite false mL eL) y = true ->
  SFleb y (S754_finite false mH eH) = true ->
  exists m e,
    y = S754_finite false m e /\ 2 ^ 52 <= Zpos m < 2 ^ 53 /\
    (eL < e \/ (e = eL /\ Zpos mL <= Zpos m)) /\
    (e < eH \/ (e = eH /\ Zpos m <= Zpos mH)).
Proof.
  intros Hv HeL H1 H2.
  apply FOrderFacts.leb_spec in H1. destruct H1 as (_ & N & H1).
  apply FOrderFacts.leb_spec in H2. destruct H2 as (_ & _ & H2).
  destruct y as [ s | s | | s m e ]; try discriminate N;
    try (destruct s); simpl in H1, H2; try (exfalso; lia).
  exists m, e.
  assert (Hc : (eL < e \/ (e = eL /\ Zpos mL <= Zpos m)) /\
               (e < eH \/ (e = eH /\ Zpos m <= Zpos mH))) by lia.
  split; [ reflexivity | ]. split; [ | exact Hc ].
  apply (valid_normal false m e Hv). lia.
Qed.

Lemma round_half_even_bounds (n d a b : Z) :
  0 < d -> a * d <= n <= b * d ->
  a <= F64.round_half_even n d <= b.
Proof.
  intros Hd Hn. unfold F64.round_half_even.
  pose proof (Z.div_mod n d ltac:(lia)) as E.
  pose proof (Z.mod_pos_bound n d Hd) as R.
  set (q := n / d) in *. set (r := n mod d) in *.
  assert (Hq : a <= q) by nia.
  assert (Hq' : q <= b) by nia.
  assert (Hr : 0 < r -> q + 1 <= b) by (intros; nia).
  destruct (Z.compare_spec (2 * r) d); try destruct (Z.even q); lia.
Qed.

(** [rint] of a positive normal double that lies between two whole
    numbers is the double of a whole number between them. *)
Lemma rint_between (m : positive) (e a b : Z) :
  e < 0 -> 0 < a ->
  a * 2 ^ (- e) <= Zpos m <= b * 2 ^ (- e) ->
  exists n, rint (S754_finite false m e) = F64.of_Z n /\ a <= n <= b.
Proof.
  intros He Ha Hm. unfold rint.
  destruct (Z.leb_spec 0 e); [ lia | ].
  assert (Hd : 0 < 2 ^ (- e)) by (apply Z.pow_pos_nonneg; lia).
  pose proof (round_half_even_bounds (Zpos m) (2 ^ (- e)) a b Hd Hm) as Hn.
  cbv zeta.
  destruct (Z.eqb_spec (F64.round_half_even (Zpos m) (2 ^ (- e))) 0); [ lia | ].
  eexists. split; [ reflexivity | exact Hn ].
Qed.

Lemma of_Z_leb (k n : Z) :
  0 < k <= n -> n < 2 ^ 53 -> F64.leb (F64.of_Z k) (F64.of_Z n) = true.
Proof.
  intros Hk Hn.
  destruct (of_Z_normal k) as (mk & ek & Ek & Hmk & Hek & Vk); [ lia | ].
  destruct (of_Z_normal n) as (mn & en & En & Hmn & Hen & Vn); [ lia | ].
  rewrite Ek, En. apply leb_finite.
  exact (of_Z_le k n mk mn ek en Hk Hmk Hek Vk Hmn Hen Vn).
Qed.

Lemma of_Z_positive (n : Z) :
  0 < n < 2 ^ 53 -> F64.ltb (F64.of_Z 0) (F64.of_Z n) = true.
Proof.
  intros Hn.
  destruct (of_Z_normal n Hn) as (m & e & E & _). rewrite E. reflexivity.
Qed.

Lemma clipped_valid (lo hi a : float) :
  is_binary64 a = true -> is_binary64 lo = true -> is_binary64 hi = true ->
  FOrder.is_nan a = false -> SFleb lo hi = true ->
  is_binary64 (fclip lo hi a) = true.
Proof.
  intros Ha Hlo Hhi Hn Hlh.
  destruct (fclip_spec lo hi a Hn Hlh) as (_ & _ & [ -> | [ -> | -> ] ]); auto.
Qed.

(** The cleaned salary is a whole number from 3000 to 25000. *)
Lemma clean_salary_whole (raw : float) :
  is_binary64 raw = true -> FOrder.is_nan raw = false ->
  exists n, 3000 <= n <= 25000 /\ clean_salary raw = F64.of_Z n.
Proof.
  intros Hv Hn. unfold clean_salary.
  destruct (fclip_spec (F64.of_Z 3000) (F64.of_Z 25000) raw Hn eq_refl)
    as (H1 & H2 & _).
  pose proof (clipped_valid (F64.of_Z 3000) (F64.of_Z 25000) raw
                Hv eq_refl eq_refl Hn eq_refl) as Hy.
  set (y := fclip (F64.of_Z 3000) (F64.of_Z 25000) raw) in *.
  change (F64.of_Z 3000) with (S754_finite false 6597069766656000 (-41)) in H1.
  change (F64.of_Z 25000) with (S754_finite false 6871947673600000 (-38)) in H2.
  destruct (bracket y 6597069766656000 6871947673600000 (-41) (-38)
              Hy ltac:(lia) H1 H2)
    as (m & e & Ey & Hm & HL & HH).
  rewrite Ey.
  destruct (rint_between m e 3000 25000) as (n & En & Hn'); try lia.
  { assert (He : e = -41 \/ e = -40 \/ e = -39 \/ e = -38) by lia.
    destruct He as [ -> | [ -> | [ -> | -> ] ] ]; pow2; lia. }
  exists n. split; [ exact Hn' | exact En ].
Qed.

(** Ten times a double from 0.5 to 20 is a double from 5 to 200. *)
Lemma mul_10_between (m : positive) (e : Z) :
  2 ^ 52 <= Zpos m < 2 ^ 53 ->
  -53 <= e ->
  e < -48 \/ (e = -48 /\ Zpos m <= 5629499534213120) ->
  exists m' e',
    F64.mul (S754_finite false m e) (F64.of_Z 10) = S754_finite false m' e' /\
    -50 <= e' <= -45 /\
    5 * 2 ^ (- e') <= Zpos m' <= 200 * 2 ^ (- e').
Proof.
  intros Hm He Hle.
  change (F64.of_Z 10) with (S754_finite false 5629499534213120 (-49)).
  rewrite mul_eval.
  assert (Hb : 2 ^ 52 <= 5629499534213120 < 2 ^ 53) by (pow2; lia).
  pose proof (product_digits m 5629499534213120 Hm Hb) as Hd.
  assert (Hcases : e = -53 \/ e = -52 \/ e = -51 \/ e = -50 \/ e = -49
                   \/ e = -48) by lia.
  destruct (round_upper (m * 5629499534213120) (e + -49) loc_Exact
              7036874417766400 (-45))
    as (m1 & e1 & E1 & Hm1 & He1 & Hc1); try lia; try (pow2; lia).
  { rewrite Pos2Z.inj_mul. simpl inexact.
    destruct Hcases as [ -> | [ -> | [ -> | [ -> | [ -> | -> ] ] ] ] ];
      simpl Z.sub; pow2; lia. }
  destruct (round_lower (m * 5629499534213120) (e + -49) loc_Exact
              5629499534213120 (-50))
    as (m2 & e2 & E2 & Hm2 & He2 & Hc2); try lia; try (pow2; lia).
  { rewrite Pos2Z.inj_mul.
    destruct Hcases as [ -> | [ -> | [ -> | [ -> | [ -> | -> ] ] ] ] ];
      simpl Z.sub; pow2; lia. }
  rewrite E1 in E2. unfold finite_or_inf in E2.
  destruct (Z.leb_spec e2 971); [ | discriminate E2 ].
  injection E2 as Em Ee. subst e2.
  assert (Em' : m2 = Zpos m1) by (rewrite Em; symmetry; apply Z2Pos.id; lia).
  subst m2. clear Em.
  exists m1, e1. split; [ exact E1 | ].
  split; [ lia | ].
  assert (Hc : e1 = -50 \/ e1 = -49 \/ e1 = -48 \/ e1 = -47 \/ e1 = -46
               \/ e1 = -45) by lia.
  destruct Hc as [ -> | [ -> | [ -> | [ -> | [ -> | -> ] ] ] ] ];
    pow2; lia.
Qed.

(** The doubles n/10 for n from 5 to 200 lie between 0.5 and 20. *)
Lemma tenths_table (n : Z) :
  5 <= n <= 200 ->
  F64.leb lit_0_5 (F64.div (F64.of_Z n) (F64.of_Z 10)) = true /\
  F64.leb (F64.div (F64.of_Z n) (F64.of_Z 10)) (F64.of_Z 20) = true.
Proof.
  intros Hn.
  assert (T : forallb (fun k =>
                F64.leb lit_0_5 (F64.div (F64.of_Z k) (F64.of_Z 10))
                && F64.leb (F64.div (F64.of_Z k) (F64.of_Z 10)) (F64.of_Z 20))
                tenths_in_range = true) by (vm_compute; reflexivity).
  rewrite forallb_forall in T. specialize (T n).
  apply andb_prop. apply T. unfold tenths_in_range.
  apply in_map_iff. exists (Z.to_nat n). split; [ lia | ].
  apply in_seq. lia.
Qed.

(** The cleaned years of service are a number of tenths from 0.5 to 20. *)
Lemma clean_service_tenths (raw : float) :
  is_binary64 raw = true -> FOrder.is_nan raw = false ->
  exists n, 5 <= n <= 200 /\
            clean_service raw = F64.div (F64.of_Z n) (F64.of_Z 10).
Proof.
  intros Hv Hn. unfold clean_service, round_1.
  destruct (fclip_spec lit_0_5 (F64.of_Z 20) raw Hn eq_refl) as (H1 & H2 & _).
  pose proof (clipped_valid lit_0_5 (F64.of_Z 20) raw
                Hv eq_refl eq_refl Hn eq_refl) as Hy.
  set (y := fclip lit_0_5 (F64.of_Z 20) raw) in *.
  change lit_0_5 with (S754_finite false 4503599627370496 (-53)) in H1.
  change (F64.of_Z 20) with (S754_finite false 5629499534213120 (-48)) in H2.
  destruct (bracket y 4503599627370496 5629499534213120 (-53) (-48)
              Hy ltac:(lia) H1 H2)
    as (m & e & Ey & Hm & HL & HH).
  rewrite Ey.
  destruct (mul_10_between m e Hm ltac:(lia) HH) as (m' & e' & E & He' & Hm').
  rewrite E.
  destruct (rint_between m' e' 5 200) as (n & En & Hn'); try lia.
  exists n. split; [ exact Hn' | ]. now rewrite En.
Qed.

Lemma service_band_of_range (s : float) :
  F64.leb lit_0_5 s = true -> F64.leb s (F64.of_Z 20) = true ->
  service_band s <> None.
Proof.
  intros H1 H2.
  destruct (float_band_defined service_bins service_labels
              _ _ _ _ _ _ _ _ _ _ _ s
              eq_refl eq_refl service_bins_sorted) as [S1 _].
  apply S1. split.
  - apply (FOrderFacts.ltb_leb_trans _ lit_0_5); [ reflexivity | exact H1 ].
  - apply (leb_trans _ (F64.of_Z 20)); [ exact H2 | reflexivity ].
Qed.

Lemma salary_band_of_Z (n : Z) :
  3000 <= n <= 25000 -> salary_band (F64.of_Z n) <> None.
Proof.
  intros Hn.
  destruct (float_band_defined salary_bins salary_labels
              _ _ _ _ _ _ _ _ _ _ _ (F64.of_Z n)
              eq_refl eq_refl salary_bins_sorted) as [S1 _].
  apply S1. split.
  - apply of_Z_positive. pow2. lia.
  - apply of_Z_leb; pow2; lia.
Qed.

End Cleaning.

(** X21: The cleaning of the years of service in [load_sample_data] (clip to
    0.5..20, round to one decimal) gives, for every draw that is a number,
    a number of tenths n/10 with n from 5 to 200, between 0.5 and 20; a
    cleaned value has a service band exactly when the draw is not NaN. *)
Theorem clean_service_banded (raw : float) :
  is_binary64 raw = true ->
  (FOrder.is_nan raw = false ->
   (exists n, 5 <= n <= 200 /\
              clean_service raw = F64.div (F64.of_Z n) (F64.of_Z 10)) /\
   F64.leb lit_0_5 (clean_service raw) = true /\
   F64.leb (clean_service raw) (F64.of_Z 20) = true) /\
  (service_band (clean_service raw) <> None <-> FOrder.is_nan raw = false).
Proof.
  intros Hv.
  assert (K : FOrder.is_nan raw = false ->
              (exists n, 5 <= n <= 200 /\
                 clean_service raw = F64.div (F64.of_Z n) (F64.of_Z 10)) /\
              F64.leb lit_0_5 (clean_service raw) = true /\
              F64.leb (clean_service raw) (F64.of_Z 20) = true).
  { intros Hn.
    destruct (Cleaning.clean_service_tenths raw Hv Hn) as (n & Hr & E).
    split; [ exists n; auto | ].
    rewrite E. now apply Cleaning.tenths_table. }
  split; [ exact K | ].
  destruct (FOrder.is_nan raw) eqn:Hn.
  - destruct raw; try discriminate Hn.
    split; [ intros H; exfalso; apply H; reflexivity | discriminate ].
  - split; [ reflexivity | intros _ ].
    destruct (K eq_refl) as (_ & H1 & H2).
    now apply Cleaning.service_band_of_range.
Qed.

Lemma clean_service_banded_witness :
  F64.leb lit_0_5 (clean_service (F64.div (F64.of_Z 7) (F64.of_Z 3))) = true.
Proof.
  apply (clean_service_banded (F64.div (F64.of_Z 7) (F64.of_Z 3)));
    reflexivity.
Defined.

(** X22: The cleaning of the salary in [load_sample_data] (clip to
    3000..25000, round to a whole number) gives, for every draw that is a
    number, a whole number from 3000 to 25000; a cleaned value has a
    salary band exactly when the draw is not NaN. *)
Theorem clean_salary_banded (raw : float) :
  is_binary64 raw = true ->
  (FOrder.is_nan raw = false ->
   exists n, 3000 <= n <= 25000 /\ clean_salary raw = F64.of_Z n) /\
  (salary_band (clean_salary raw) <> None <-> FOrder.is_nan raw = false).
Proof.
  intros Hv.
  split; [ now apply Cleaning.clean_salary_whole | ].
  destruct (FOrder.is_nan raw) eqn:Hn.
  - destruct raw; try discriminate Hn.
    split; [ intros H; exfalso; apply H; reflexivity | discriminate ].
  - split; [ reflexivity | intros _ ].
    destruct (Cleaning.clean_salary_whole raw Hv Hn) as (n & Hr & E).
    rewrite E. now apply Cleaning.salary_band_of_Z.
Qed.

Lemma clean_salary_banded_witness :
  salary_band (clean_salary (F64.div (F64.of_Z 25001) (F64.of_Z 3))) <> None.
Proof.
  apply (clean_salary_banded (F64.div (F64.of_Z 25001) (F64.of_Z 3)));
    reflexivity.
Defined.

(** ** The mean age of the summary *)

Module Mean.

Import Rounding.

(** The scale that relates the mantissas of a dividend, a divisor and a
    bound to the mantissa of the quotient. *)
Lemma scale (ea eb ec : Z) :
  -52 <= ea <= 0 -> -52 <= eb <= 0 -> -52 <= ec <= 0 ->
  ea - eb - 53 <= ec ->
  2 ^ (ec - (ea - eb - 53)) * 2 ^ (- ec) * 2 ^ (- eb) = 2 ^ 53 * 2 ^ (- ea).
Proof.
  intros Ha Hb Hc H. rewrite <- !Z.pow_add_r by lia. f_equal. lia.
Qed.

(** The double quotient of two integers is at most a whole number that
    the exact quotient does not exceed. *)
Lemma div_of_Z_upper (a b c : Z) :
  0 < a < 2 ^ 53 -> 0 < b < 2 ^ 53 -> 0 < c < 2 ^ 53 ->
  a <= c * b ->
  F64.leb (F64.div (F64.of_Z a) (F64.of_Z b)) (F64.of_Z c) = true.
Proof.
  intros Ha Hb Hc Hle.
  destruct (of_Z_normal a Ha) as (ma & ea & Ea & Hma & Hea & Va).
  destruct (of_Z_normal b Hb) as (mb & eb & Eb & Hmb & Heb & Vb).
  destruct (of_Z_normal c Hc) as (mc & ec & Ec & Hmc & Hec & Vc).
  rewrite Ea, Eb, Ec. rewrite div_eval by lia.
  pose proof (quotient_bounds ma mb Hma Hmb) as [Lq Uq].
  pose proof (Z.div_mod (Zpos ma * 2 ^ 53) (Zpos mb) ltac:(lia)) as DM.
  pose proof (Z.mod_pos_bound (Zpos ma * 2 ^ 53) (Zpos mb) ltac:(lia)) as MB.
  pose proof (new_location_inexact (Zpos mb) ((Zpos ma * 2 ^ 53) mod Zpos mb))
    as [Hex Hin].
  set (l := new_location (Zpos mb) ((Zpos ma * 2 ^ 53) mod Zpos mb)) in *.
  set (r := (Zpos ma * 2 ^ 53) mod Zpos mb) in *.
  destruct (Zpos ma * 2 ^ 53 / Zpos mb) as [ | q | q ] eqn:Eq; try lia.
  assert (53 <= Zpos (digits2_pos q)) by (apply digits2_pos_ge; simpl Z.sub; lia).
  assert (Zpos (digits2_pos q) <= 54) by (apply digits2_pos_le; lia).
  assert (PA : 0 < 2 ^ (- ea)) by (apply Z.pow_pos_nonneg; lia).
  assert (PB : 0 < 2 ^ (- eb)) by (apply Z.pow_pos_nonneg; lia).
  assert (PC : 0 < 2 ^ (- ec)) by (apply Z.pow_pos_nonneg; lia).
  (* the exponent of the quotient is not above that of the bound *)
  assert (Hexp : ea - eb - 53 <= ec).
  { assert (K : Zpos ma * (2 ^ (- ec) * 2 ^ (- eb))
                <= Zpos mc * Zpos mb * 2 ^ (- ea)).
    { rewrite Va, Vb, Vc.
      assert (a * (2 ^ (- ea) * (2 ^ (- ec) * 2 ^ (- eb)))
              <= c * b * (2 ^ (- ea) * (2 ^ (- ec) * 2 ^ (- eb)))).
      { apply Z.mul_le_mono_nonneg_r; [ | lia ].
        apply Z.lt_le_incl. repeat apply Z.mul_pos_pos; lia. }
      lia. }
    assert (K2 : 2 ^ 52 * (2 ^ (- ec) * 2 ^ (- eb))
                 < 2 ^ 53 * 2 ^ 53 * 2 ^ (- ea)).
    { assert (P0 : 0 < 2 ^ (- ec) * 2 ^ (- eb)) by (apply Z.mul_pos_pos; lia).
      assert (P1 : Zpos mc * Zpos mb < 2 ^ 53 * 2 ^ 53)
        by (apply Z.mul_lt_mono_nonneg; lia).
      assert (P2 : 2 ^ 52 * (2 ^ (- ec) * 2 ^ (- eb))
                   <= Zpos ma * (2 ^ (- ec) * 2 ^ (- eb)))
        by (apply Z.mul_le_mono_nonneg_r; lia).
      assert (P3 : Zpos mc * Zpos mb * 2 ^ (- ea)
                   < 2 ^ 53 * 2 ^ 53 * 2 ^ (- ea))
        by (apply Z.mul_lt_mono_pos_r; lia).
      lia. }
    rewrite <- !Z.pow_add_r in K2 by lia.
    apply pow2_lt_inv in K2; lia. }
  pose proof (scale ea eb ec Hea Heb Hec Hexp) as Hs.
  set (K := 2 ^ (ec - (ea - eb - 53))) in *.
  assert (PK : 0 < K) by (apply Z.pow_pos_nonneg; lia).
  assert (Hbig : Zpos q * Zpos mb + r <= Zpos mc * K * Zpos mb).
  { assert (DM' : Zpos q * Zpos mb + r = Zpos ma * 2 ^ 53) by lia.
    rewrite DM'.
    replace (Zpos mc * K * Zpos mb)
      with (c * b * (K * 2 ^ (- ec) * 2 ^ (- eb))) by (rewrite Vb, Vc; ring).
    rewrite Hs, Va.
    replace (a * 2 ^ (- ea) * 2 ^ 53) with (a * (2 ^ 53 * 2 ^ (- ea))) by ring.
    apply Z.mul_le_mono_nonneg_r; [ | exact Hle ].
    apply Z.lt_le_incl. apply Z.mul_pos_pos; lia. }
  destruct (round_upper q (ea - eb - 53) l mc ec)
    as (m & e & E & Hm & Hev & Hcmp); try lia.
  - fold K.
    assert (Hi : (r = 0 /\ inexact l = 0) \/ (0 < r /\ inexact l = 1)).
    { destruct (Z.eq_dec r 0) as [ Z0 | NZ ].
      - left. split; [ exact Z0 | ]. now rewrite (Hex Z0).
      - right. split; [ lia | now apply Hin ]. }
    destruct Hi as [ [Hr Hi] | [Hr Hi] ]; rewrite Hi.
    + assert (Zpos q * Zpos mb <= Zpos mc * K * Zpos mb) by lia.
      apply Z.mul_le_mono_pos_r in H1; lia.
    + assert (Zpos q * Zpos mb < Zpos mc * K * Zpos mb) by lia.
      apply Z.mul_lt_mono_pos_r in H1; lia.
  - rewrite E. apply leb_finite. exact Hcmp.
Qed.

(** The double quotient of two integers is at least a whole number that
    does not exceed the exact quotient. *)
Lemma div_of_Z_lower (a b c : Z) :
  0 < a < 2 ^ 53 -> 0 < b < 2 ^ 53 -> 0 < c < 2 ^ 53 ->
  c * b <= a ->
  F64.leb (F64.of_Z c) (F64.div (F64.of_Z a) (F64.of_Z b)) = true.
Proof.
  intros Ha Hb Hc Hle.
  destruct (of_Z_normal a Ha) as (ma & ea & Ea & Hma & Hea & Va).
  destruct (of_Z_normal b Hb) as (mb & eb & Eb & Hmb & Heb & Vb).
  destruct (of_Z_normal c Hc) as (mc & ec & Ec & Hmc & Hec & Vc).
  rewrite Ea, Eb, Ec.
  destruct (div_normal ma mb ea eb Hma Hmb ltac:(lia))
    as (m' & e' & E' & Hm' & He').
  rewrite E'.
  destruct (Z.le_gt_cases (ea - eb - 53) ec) as [ Hexp | Hexp ];
    [ | apply leb_finite; lia ].
  rewrite div_eval in E' by lia.
  pose proof (quotient_bounds ma mb Hma Hmb) as [Lq Uq].
  pose proof (Z.div_mod (Zpos ma * 2 ^ 53) (Zpos mb) ltac:(lia)) as DM.
  pose proof (Z.mod_pos_bound (Zpos ma * 2 ^ 53) (Zpos mb) ltac:(lia)) as MB.
  set (l := new_location (Zpos mb) ((Zpos ma * 2 ^ 53) mod Zpos mb)) in *.
  set (r := (Zpos ma * 2 ^ 53) mod Zpos mb) in *.
  destruct (Zpos ma * 2 ^ 53 / Zpos mb) as [ | q | q ] eqn:Eq; try lia.
  assert (53 <= Zpos (digits2_pos q)) by (apply digits2_pos_ge; simpl Z.sub; lia).
  assert (Zpos (digits2_pos q) <= 54) by (apply digits2_pos_le; lia).
  assert (PA : 0 < 2 ^ (- ea)) by (apply Z.pow_pos_nonneg; lia).
  pose proof (scale ea eb ec Hea Heb Hec Hexp) as Hs.
  set (K := 2 ^ (ec - (ea - eb - 53))) in *.
  assert (PK : 0 < K) by (apply Z.pow_pos_nonneg; lia).
  assert (Hbig : Zpos mc * K * Zpos mb <= Zpos q * Zpos mb + r).
  { assert (DM' : Zpos q * Zpos mb + r = Zpos ma * 2 ^ 53) by lia.
    rewrite DM'.
    replace (Zpos mc * K * Zpos mb)
      with (c * b * (K * 2 ^ (- ec) * 2 ^ (- eb))) by (rewrite Vb, Vc; ring).
    rewrite Hs, Va.
    replace (a * 2 ^ (- ea) * 2 ^ 53) with (a * (2 ^ 53 * 2 ^ (- ea))) by ring.
    apply Z.mul_le_mono_nonneg_r; [ | exact Hle ].
    apply Z.lt_le_incl. apply Z.mul_pos_pos; lia. }
  destruct (round_lower q (ea - eb - 53) l mc ec)
    as (m & e & E & Hm & Hev & Hcmp); try lia.
  - fold K.
    assert (Zpos mc * K * Zpos mb < (Zpos q + 1) * Zpos mb) by lia.
    apply Z.mul_lt_mono_pos_r in H1; lia.
  - rewrite E in E'. unfold finite_or_inf in E'.
    destruct (Z.leb_spec e 971); [ | discriminate E' ].
    injection E' as Em Ee. subst e'.
    assert (Em' : m = Zpos m') by (rewrite <- Em; symmetry; apply Z2Pos.id; lia).
    subst m. apply leb_finite. lia.
Qed.

Lemma sum_between (lo hi : Z) (l : list Z) :
  (forall x, In x l -> lo <= x <= hi) ->
  lo * Z.of_nat (length l) <= fold_right Z.add 0 l <= hi * Z.of_nat (length l).
Proof.
  induction l as [ | x l IH ]; intros H; [ simpl; lia | ].
  assert (Hx : lo <= x <= hi) by (apply H; now left).
  assert (Hl : forall y, In y l -> lo <= y <= hi)
    by (intros y Hy; apply H; now right).
  specialize (IH Hl). cbn [fold_right length]. rewrite Nat2Z.inj_succ. lia.
Qed.

(** The mean of whole numbers between two positive bounds lies between
    the bounds. *)
Lemma mean_Z_between (lo hi : Z) (l : list Z) :
  l <> [] -> 0 < lo -> hi * Z.of_nat (length l) < 2 ^ 53 ->
  (forall x, In x l -> lo <= x <= hi) ->
  F64.leb (F64.of_Z lo) (mean_Z l) = true /\
  F64.leb (mean_Z l) (F64.of_Z hi) = true.
Proof.
  intros Hne Hlo Hhi H.
  pose proof (sum_between lo hi l H) as Hs.
  unfold mean_Z. destruct l as [ | x l ]; [ congruence | ].
  set (xs := x :: l) in *.
  assert (Hn : 0 < Z.of_nat (length xs)) by (unfold xs; cbn [length]; lia).
  assert (Hh : lo <= hi).
  { assert (lo <= x <= hi) by (apply H; now left). lia. }
  split.
  - apply div_of_Z_lower; nia.
  - apply div_of_Z_upper; nia.
Qed.

End Mean.

(** X23: On a frame with rows whose ages all lie between two positive bounds
    (and whose size keeps the sum of the ages below 2^53) the mean age of
    the summary lies between the same bounds; on a frame without rows it
    is NaN. *)
Theorem avg_age_between (d : Processed) (lo hi : Z) :
  0 < lo ->
  hi * Z.of_nat (length d) < 2 ^ 53 ->
  (forall r, In r d -> lo <= age (emp r) <= hi) ->
  (d <> [] ->
   F64.leb (F64.of_Z lo) (avg_age (summarize d)) = true /\
   F64.leb (avg_age (summarize d)) (F64.of_Z hi) = true) /\
  (d = [] -> avg_age (summarize d) = F64.nan).
Proof.
  intros Hlo Hhi H. split; [ | intros ->; reflexivity ].
  intros Hd. cbn [avg_age summarize].
  apply Mean.mean_Z_between; auto.
  - destruct d; [ congruence | discriminate ].
  - now rewrite length_map.
  - intros x Hx. apply in_map_iff in Hx. destruct Hx as (r & <- & Hr). auto.
Qed.

Lemma avg_age_between_witness :
  F64.leb (F64.of_Z 22)
          (avg_age (summarize (map categorize seven_male_three_female)))
  = true.
Proof.
  apply (avg_age_between (map categorize seven_male_three_female) 22 65).
  - lia.
  - vm_compute. reflexivity.
  - intros r Hr. vm_compute in Hr.
    repeat (destruct Hr as [ <- | Hr ]; [ vm_compute; split; discriminate | ]).
    destruct Hr.
  - discriminate.
Defined.

(** * The code's arithmetic against exact arithmetic *)

Module Exactness.

Import Rounding.

Local Open Scope Q_scope.

Ltac pow2 :=
  repeat match goal with
         | |- context [(2 ^ ?k)%Z] =>
             let v := eval vm_compute in (2 ^ k)%Z in
             change (2 ^ k)%Z with v
         end;
  lia.

(** One rounding: a value between two neighbours [q] and [q + 1] of at
    least 53 bits moves by at most the fraction [2^-52] of itself. *)
Lemma rel_err (q m2 N X rho : Q) :
  0 < X -> 1 <= N ->
  4503599627370496 <= q ->
  q <= m2 <= q + 1 ->
  q * N <= rho <= (q + 1) * N ->
  (1 - (1 # 4503599627370496)) * (rho * X) <= m2 * (N * X) /\
  m2 * (N * X) <= (1 + (1 # 4503599627370496)) * (rho * X).
Proof.
  intros HX HN Hq Hm Hr.
  assert (A1 : 4503599627370496 * N <= q * N)
    by (apply Qmult_le_compat_r; lra).
  assert (A2 : q * N <= m2 * N) by (apply Qmult_le_compat_r; lra).
  assert (A3 : m2 * N <= (q + 1) * N) by (apply Qmult_le_compat_r; lra).
  assert (L : (1 - (1 # 4503599627370496)) * rho <= m2 * N) by lra.
  assert (U : m2 * N <= (1 + (1 # 4503599627370496)) * rho) by lra.
  split.
  - setoid_replace ((1 - (1 # 4503599627370496)) * (rho * X))
      with (((1 - (1 # 4503599627370496)) * rho) * X) by ring.
    setoid_replace (m2 * (N * X)) with ((m2 * N) * X) by ring.
    apply Qmult_le_compat_r; lra.
  - setoid_replace ((1 + (1 # 4503599627370496)) * (rho * X))
      with (((1 + (1 # 4503599627370496)) * rho) * X) by ring.
    setoid_replace (m2 * (N * X)) with ((m2 * N) * X) by ring.
    apply Qmult_le_compat_r; lra.
Qed.

Lemma two_nonzero : ~ 2 == 0.
Proof. intros H. discriminate H. Qed.

Lemma pow2_pos (e : Z) : 0 < 2 ^ e.
Proof. apply Qpower_0_lt. reflexivity. Qed.

Lemma pow2_inject (n : Z) : (0 <= n)%Z -> inject_Z (2 ^ n) == 2 ^ n.
Proof. intros H. now rewrite Zpower_Qpower. Qed.

Lemma pow2_ge_1 (n : Z) : (0 <= n)%Z -> 1 <= 2 ^ n.
Proof. intros H. apply Qpower_1_le; [ discriminate | exact H ]. Qed.

(** The value of a rounded mantissa: [binary_round_aux] gives a normal
    double whose value is [m2 * 2^(ex + n)] for a whole [m2] next to the
    mantissa shifted by the [n] bits that do not fit. *)
Lemma round_value (mx : positive) (ex : Z) (lx : location) :
  (53 <= Zpos (digits2_pos mx))%Z ->
  (-1074 <= Zpos (digits2_pos mx) + ex - 53)%Z ->
  (Zpos (digits2_pos mx) + ex - 52 <= 971)%Z ->
  exists m e m2,
    binary_round_aux 53 1024 false (Zpos mx) ex lx = S754_finite false m e /\
    (2 ^ 52 <= Zpos m < 2 ^ 53)%Z /\
    (ex + (Zpos (digits2_pos mx) - 53) <= e
     <= ex + (Zpos (digits2_pos mx) - 53) + 1)%Z /\
    (Zpos mx / 2 ^ (Zpos (digits2_pos mx) - 53) <= m2
     <= Zpos mx / 2 ^ (Zpos (digits2_pos mx) - 53) + 1)%Z /\
    to_Q (S754_finite false m e)
    == inject_Z m2 * 2 ^ (ex + (Zpos (digits2_pos mx) - 53)).
Proof.
  intros Hd He Hmax.
  destruct (binary_round_aux_eval mx ex lx Hd He) as (m2 & Hm2 & _ & E).
  pose proof (digits2_pos_bounds mx) as [L U].
  set (n := (Zpos (digits2_pos mx) - 53)%Z) in *.
  assert (P : (0 < 2 ^ n)%Z) by (apply Z.pow_pos_nonneg; lia).
  assert (L' : (2 ^ 52 * 2 ^ n <= Zpos mx)%Z).
  { rewrite <- Z.pow_add_r by lia.
    replace (52 + n)%Z with (Zpos (digits2_pos mx) - 1)%Z by lia. exact L. }
  assert (U' : (Zpos mx < 2 ^ 53 * 2 ^ n)%Z).
  { rewrite <- Z.pow_add_r by lia.
    replace (53 + n)%Z with (Zpos (digits2_pos mx)) by lia. exact U. }
  assert (M1 : (2 ^ 52 <= Zpos mx / 2 ^ n)%Z)
    by (apply Z.div_le_lower_bound; lia).
  assert (M2 : (Zpos mx / 2 ^ n < 2 ^ 53)%Z)
    by (apply Z.div_lt_upper_bound; lia).
  unfold finite_or_inf in E.
  destruct (Z.ltb_spec m2 (2 ^ 53)) as [ Hlt | Hge ].
  - destruct (Z.leb_spec (ex + n) 971) as [ _ | ]; [ | lia ].
    exists (Z.to_pos m2), (ex + n)%Z, m2.
    rewrite Z2Pos.id by lia.
    split; [ exact E | ]. split; [ lia | ]. split; [ lia | ].
    split; [ exact Hm2 | ].
    unfold to_Q. rewrite Z2Pos.id by lia. reflexivity.
  - destruct (Z.leb_spec (ex + n + 1) 971) as [ _ | ]; [ | lia ].
    exists (Z.to_pos (2 ^ 52)), (ex + n + 1)%Z, m2.
    rewrite Z2Pos.id by lia.
    split; [ exact E | ]. split; [ lia | ]. split; [ lia | ].
    split; [ exact Hm2 | ].
    unfold to_Q. rewrite Z2Pos.id by lia.
    assert (Em : m2 = (2 ^ 53)%Z) by lia. rewrite Em.
    rewrite (Qpower_plus 2 (ex + n) 1 two_nonzero).
    change (2 ^ 53)%Z with (2 ^ 52 * 2)%Z. rewrite inject_Z_mult.
    change (inject_Z 2) with (2 ^ 1). ring.
Qed.

(** The double of a positive integer below [2^53] has its value. *)
Lemma of_Z_value (k : Z) :
  (0 < k < 2 ^ 53)%Z -> to_Q (F64.of_Z k) == inject_Z k.
Proof.
  intros Hk.
  destruct (of_Z_normal k Hk) as (m & e & E & Hm & He & V).
  rewrite E. unfold to_Q. rewrite V, inject_Z_mult, pow2_inject by lia.
  rewrite <- Qmult_assoc, <- (Qpower_plus 2 (- e) e two_nonzero).
  replace (- e + e)%Z with 0%Z by lia. simpl. ring.
Qed.

(** The product of two normal doubles. *)
Lemma mul_value (a b : positive) (ea eb : Z) :
  (2 ^ 52 <= Zpos a < 2 ^ 53)%Z ->
  (2 ^ 52 <= Zpos b < 2 ^ 53)%Z ->
  (-1126 <= ea + eb <= 917)%Z ->
  exists m e,
    F64.mul (S754_finite false a ea) (S754_finite false b eb)
    = S754_finite false m e /\
    (2 ^ 52 <= Zpos m < 2 ^ 53)%Z /\
    (ea + eb + 52 <= e <= ea + eb + 54)%Z /\
    (1 - (1 # 4503599627370496))
    * (to_Q (S754_finite false a ea) * to_Q (S754_finite false b eb))
    <= to_Q (S754_finite false m e) /\
    to_Q (S754_finite false m e)
    <= (1 + (1 # 4503599627370496))
       * (to_Q (S754_finite false a ea) * to_Q (S754_finite false b eb)).
Proof.
  intros Ha Hb He. rewrite mul_eval.
  pose proof (product_digits a b Ha Hb) as Hd.
  destruct (round_value (a * b) (ea + eb) loc_Exact)
    as (m & e & m2 & E & Hm & Hev & Hm2 & V); try lia.
  exists m, e. split; [ exact E | ]. split; [ exact Hm | ].
  split; [ lia | ].
  set (n := (Zpos (digits2_pos (a * b)) - 53)%Z) in *.
  assert (Hn : (0 <= n)%Z) by lia.
  assert (P : (0 < 2 ^ n)%Z) by (apply Z.pow_pos_nonneg; lia).
  pose proof (Z.div_mod (Zpos (a * b)) (2 ^ n) ltac:(lia)) as DM.
  pose proof (Z.mod_pos_bound (Zpos (a * b)) (2 ^ n) P) as MB.
  set (q := (Zpos (a * b) / 2 ^ n)%Z) in *.
  assert (Hq : (2 ^ 52 <= q)%Z).
  { pose proof (digits2_pos_bounds (a * b)) as [L _].
    apply Z.div_le_lower_bound; [ lia | ].
    rewrite Z.mul_comm, <- Z.pow_add_r by lia.
    replace (52 + n)%Z with (Zpos (digits2_pos (a * b)) - 1)%Z by lia.
    exact L. }
  destruct (rel_err (inject_Z q) (inject_Z m2) (2 ^ n) (2 ^ (ea + eb))
              (inject_Z (Zpos (a * b)))) as [L U].
  - apply pow2_pos.
  - now apply pow2_ge_1.
  - change 4503599627370496 with (inject_Z (2 ^ 52)).
    rewrite <- Zle_Qle. exact Hq.
  - change 1 with (inject_Z 1). rewrite <- inject_Z_plus, <- !Zle_Qle. lia.
  - change 1 with (inject_Z 1).
    rewrite <- inject_Z_plus, <- !pow2_inject, <- !inject_Z_mult, <- !Zle_Qle
      by lia.
    nia.
  - assert (T : inject_Z (Zpos (a * b)) * 2 ^ (ea + eb)
                == to_Q (S754_finite false a ea) * to_Q (S754_finite false b eb)).
    { unfold to_Q. rewrite Pos2Z.inj_mul, inject_Z_mult,
        (Qpower_plus 2 ea eb two_nonzero). ring. }
    assert (W : inject_Z m2 * (2 ^ n * 2 ^ (ea + eb))
                == to_Q (S754_finite false m e)).
    { rewrite V, (Qpower_plus 2 (ea + eb) n two_nonzero). ring. }
    rewrite T, W in L. rewrite T, W in U. split; assumption.
Qed.

(** The quotient of two positive integers below [2^53]. *)
Lemma div_value (a b : Z) :
  (0 < a < 2 ^ 53)%Z -> (0 < b < 2 ^ 53)%Z ->
  exists m e,
    F64.div (F64.of_Z a) (F64.of_Z b) = S754_finite false m e /\
    (2 ^ 52 <= Zpos m < 2 ^ 53)%Z /\
    (-105 <= e <= 1)%Z /\
    (1 - (1 # 4503599627370496)) * (inject_Z a / inject_Z b)
    <= to_Q (S754_finite false m e) /\
    to_Q (S754_finite false m e)
    <= (1 + (1 # 4503599627370496)) * (inject_Z a / inject_Z b).
Proof.
  intros Ha Hb.
  pose proof (of_Z_value a Ha) as Qa. pose proof (of_Z_value b Hb) as Qb.
  destruct (of_Z_normal a Ha) as (ma & ea & Ea & Hma & Hea & Va).
  destruct (of_Z_normal b Hb) as (mb & eb & Eb & Hmb & Heb & Vb).
  rewrite Ea in Qa |- *. rewrite Eb in Qb |- *.
  rewrite div_eval by lia.
  pose proof (quotient_bounds ma mb Hma Hmb) as [Lq Uq].
  pose proof (Z.div_mod (Zpos ma * 2 ^ 53) (Zpos mb) ltac:(lia)) as DM.
  pose proof (Z.mod_pos_bound (Zpos ma * 2 ^ 53) (Zpos mb) ltac:(lia)) as MB.
  set (l := new_location (Zpos mb) ((Zpos ma * 2 ^ 53) mod Zpos mb)) in *.
  set (r := ((Zpos ma * 2 ^ 53) mod Zpos mb)%Z) in *.
  destruct (Zpos ma * 2 ^ 53 / Zpos mb)%Z as [ | mx | mx ] eqn:Eq; try lia.
  assert (D1 : (53 <= Zpos (digits2_pos mx))%Z)
    by (apply digits2_pos_ge; simpl Z.sub; lia).
  assert (D2 : (Zpos (digits2_pos mx) <= 54)%Z)
    by (apply digits2_pos_le; lia).
  destruct (round_value mx (ea - eb - 53) l)
    as (m & e & m2 & E & Hm & Hev & Hm2 & V); try lia.
  exists m, e. split; [ exact E | ]. split; [ exact Hm | ].
  split; [ lia | ].
  set (n := (Zpos (digits2_pos mx) - 53)%Z) in *.
  assert (Hn : (0 <= n)%Z) by lia.
  assert (P : (0 < 2 ^ n)%Z) by (apply Z.pow_pos_nonneg; lia).
  pose proof (Z.div_mod (Zpos mx) (2 ^ n) ltac:(lia)) as DM2.
  pose proof (Z.mod_pos_bound (Zpos mx) (2 ^ n) P) as MB2.
  set (q := (Zpos mx / 2 ^ n)%Z) in *.
  assert (Hq : (2 ^ 52 <= q)%Z).
  { pose proof (digits2_pos_bounds mx) as [L _].
    apply Z.div_le_lower_bound; [ lia | ].
    rewrite Z.mul_comm, <- Z.pow_add_r by lia.
    replace (52 + n)%Z with (Zpos (digits2_pos mx) - 1)%Z by lia.
    exact L. }
  assert (Bpos : 0 < inject_Z (Zpos mb)) by reflexivity.
  destruct (rel_err (inject_Z q) (inject_Z m2) (2 ^ n) (2 ^ (ea - eb - 53))
              (inject_Z (Zpos ma * 2 ^ 53) / inject_Z (Zpos mb))) as [L U].
  - apply pow2_pos.
  - now apply pow2_ge_1.
  - change 4503599627370496 with (inject_Z (2 ^ 52)).
    rewrite <- Zle_Qle. exact Hq.
  - change 1 with (inject_Z 1). rewrite <- inject_Z_plus, <- !Zle_Qle. lia.
  - split.
    + apply Qle_shift_div_l; [ exact Bpos | ].
      rewrite <- pow2_inject, <- !inject_Z_mult, <- Zle_Qle by lia. nia.
    + apply Qle_shift_div_r; [ exact Bpos | ].
      change 1 with (inject_Z 1).
      rewrite <- inject_Z_plus, <- pow2_inject, <- !inject_Z_mult, <- Zle_Qle
        by lia.
      nia.
  - assert (T : inject_Z (Zpos ma * 2 ^ 53) / inject_Z (Zpos mb)
                * 2 ^ (ea - eb - 53)
                == inject_Z a / inject_Z b).
    { rewrite <- Qa, <- Qb. unfold to_Q.
      rewrite inject_Z_mult, (pow2_inject 53) by lia.
      replace (ea - eb - 53)%Z with (ea + (- eb + - (53)))%Z by lia.
      rewrite (Qpower_plus 2 ea _ two_nonzero),
        (Qpower_plus 2 (- eb) _ two_nonzero), !Qpower_opp.
      field.
      repeat split;
        first [ apply Qnot_eq_sym, Qlt_not_eq, pow2_pos
              | intros K; discriminate K ]. }
    assert (W : inject_Z m2 * (2 ^ n * 2 ^ (ea - eb - 53))
                == to_Q (S754_finite false m e)).
    { rewrite V, (Qpower_plus 2 (ea - eb - 53) n two_nonzero). ring. }
    rewrite T, W in L. rewrite T, W in U. split; assumption.
Qed.

Lemma share_nonneg (k n : Z) :
  (0 <= k)%Z -> (0 < n)%Z -> 0 <= inject_Z k / inject_Z n.
Proof.
  intros Hk Hn. apply Qle_shift_div_l.
  - change 0 with (inject_Z 0). now rewrite <- Zlt_Qlt.
  - rewrite Qmult_0_l. change 0 with (inject_Z 0). now rewrite <- Zle_Qle.
Qed.

(** [count / total * 100] in doubles against the exact share: the two
    roundings move it by at most the fraction [2^-50] of itself. *)
Lemma percentage_value (k n : nat) :
  (1 <= k <= n)%nat -> (Z.of_nat n < 2 ^ 53)%Z ->
  exists m e,
    percentage k n = S754_finite false m e /\
    (2 ^ 52 <= Zpos m < 2 ^ 53)%Z /\
    (1 - (1 # 1125899906842624))
    * (100 * (inject_Z (Z.of_nat k) / inject_Z (Z.of_nat n)))
    <= to_Q (percentage k n) /\
    to_Q (percentage k n)
    <= (1 + (1 # 1125899906842624))
       * (100 * (inject_Z (Z.of_nat k) / inject_Z (Z.of_nat n))).
Proof.
  intros Hk Hn. unfold percentage.
  destruct (Nat.ltb_spec 0 n) as [ _ | ]; [ | lia ].
  destruct (div_value (Z.of_nat k) (Z.of_nat n)) as (m1 & e1 & E1 & Hm1 & He1 & L1 & U1);
    try lia.
  rewrite E1, of_Z_100.
  destruct (mul_value m1 7036874417766400 e1 (-46) Hm1)
    as (m & e & E & Hm & He & L & U); [ pow2 | lia | ].
  exists m, e. rewrite E. split; [ reflexivity | ]. split; [ exact Hm | ].
    pose proof (share_nonneg (Z.of_nat k) (Z.of_nat n) ltac:(lia) ltac:(lia))
      as Hs.
    set (T := inject_Z (Z.of_nat k) / inject_Z (Z.of_nat n)) in *.
    assert (H100 : to_Q (S754_finite false 7036874417766400 (-46)) == 100)
      by reflexivity.
    rewrite H100 in L, U.
    set (V1 := to_Q (S754_finite false m1 e1)) in *.
    set (V := to_Q (S754_finite false m e)) in *.
    split; lra.
Qed.

(** Rounding a ratio to a whole number, ties to even, moves it by at most
    one half. *)
Lemma round_half_even_near (n d : Z) :
  (0 < d)%Z ->
  (- d <= 2 * (F64.round_half_even n d * d - n) <= d)%Z.
Proof.
  intros Hd. unfold F64.round_half_even.
  pose proof (Z.div_mod n d ltac:(lia)) as E.
  pose proof (Z.mod_pos_bound n d Hd) as R.
  set (q := (n / d)%Z) in *. set (r := (n mod d)%Z) in *.
  destruct (Z.compare_spec (2 * r) d); try destruct (Z.even q); nia.
Qed.

(** The text of [:.1f] for a positive double: the decimal of a number of
    tenths [t] that is within one half of ten times the value. *)
Lemma format_1f_value (m : positive) (e : Z) :
  exists t,
    F64.format_1f (S754_finite false m e)
    = (NilZero.string_of_int (Z.to_int (t / 10)) ++ "."
       ++ NilZero.string_of_int (Z.to_int (t mod 10)))%string /\
    (0 <= t)%Z /\
    Qabs (inject_Z t - 10 * to_Q (S754_finite false m e)) <= 1 # 2.
Proof.
  exists (F64.tenths m e). split; [ reflexivity | ].
  unfold F64.tenths, to_Q.
  destruct (Z.leb_spec 0 e) as [ He | He ].
  - split; [ apply Z.mul_nonneg_nonneg; [ | lia ];
             apply Z.mul_nonneg_nonneg; [ lia | apply Z.pow_nonneg; lia ] | ].
    rewrite !inject_Z_mult, pow2_inject by lia.
    setoid_replace (inject_Z (Z.pos m) * 2 ^ e * inject_Z 10
                    - 10 * (inject_Z (Z.pos m) * 2 ^ e)) with 0 by (simpl; ring).
    discriminate.
  - assert (Hd : (0 < 2 ^ (- e))%Z) by (apply Z.pow_pos_nonneg; lia).
    pose proof (round_half_even_near (Z.pos m * 10) (2 ^ (- e)) Hd) as N.
    set (t := F64.round_half_even (Z.pos m * 10) (2 ^ (- e))) in *.
    assert (Ht : (0 <= t)%Z) by nia.
    split; [ exact Ht | ].
    assert (Dq : 0 < inject_Z (2 ^ (- e)))
      by (change 0 with (inject_Z 0); now rewrite <- Zlt_Qlt).
    assert (E2 : 2 ^ e == / inject_Z (2 ^ (- e))).
    { rewrite pow2_inject by lia. rewrite <- Qpower_opp.
      now replace (- - e)%Z with e by lia. }
    rewrite E2. apply Qabs_Qle_condition.
    assert (K : inject_Z t - 10 * (inject_Z (Z.pos m) * / inject_Z (2 ^ (- e)))
                == (inject_Z t * inject_Z (2 ^ (- e))
                    - inject_Z (Z.pos m * 10)) / inject_Z (2 ^ (- e))).
    { rewrite inject_Z_mult. simpl inject_Z at 4. field.
      apply Qnot_eq_sym, Qlt_not_eq, Dq. }
    rewrite K. split.
    + apply Qle_shift_div_l; [ exact Dq | ].
      rewrite <- !inject_Z_mult.
      setoid_replace (inject_Z (t * 2 ^ (- e)) - inject_Z (Z.pos m * 10))
        with (inject_Z (t * 2 ^ (- e) - Z.pos m * 10))
        by (unfold Z.sub; rewrite inject_Z_plus, inject_Z_opp; reflexivity).
      setoid_replace (- (1 # 2) * inject_Z (2 ^ (- e)))
        with (inject_Z (- 2 ^ (- e)) / 2)
        by (rewrite inject_Z_opp; field).
      apply Qle_shift_div_r; [ reflexivity | ].
      change 2 with (inject_Z 2). rewrite <- inject_Z_mult, <- Zle_Qle. lia.
    + apply Qle_shift_div_r; [ exact Dq | ].
      rewrite <- !inject_Z_mult.
      setoid_replace (inject_Z (t * 2 ^ (- e)) - inject_Z (Z.pos m * 10))
        with (inject_Z (t * 2 ^ (- e) - Z.pos m * 10))
        by (unfold Z.sub; rewrite inject_Z_plus, inject_Z_opp; reflexivity).
      setoid_replace ((1 # 2) * inject_Z (2 ^ (- e)))
        with (inject_Z (2 ^ (- e)) / 2) by field.
      apply Qle_shift_div_l; [ reflexivity | ].
      change 2 with (inject_Z 2). rewrite <- inject_Z_mult, <- Zle_Qle. lia.
Qed.

(** Normal positive doubles are ordered like their values. *)
Lemma value_lt_of_key (m m' : positive) (e e' : Z) :
  (2 ^ 52 <= Zpos m < 2 ^ 53)%Z -> (2 ^ 52 <= Zpos m' < 2 ^ 53)%Z ->
  (e < e' \/ (e = e' /\ Zpos m < Zpos m'))%Z ->
  to_Q (S754_finite false m e) < to_Q (S754_finite false m' e').
Proof.
  intros Hm Hm' H. unfold to_Q.
  destruct H as [ He | [ -> Hlt ] ].
  - apply Qlt_le_trans with (inject_Z (2 ^ 53) * 2 ^ e).
    + apply Qmult_lt_compat_r; [ apply pow2_pos | ].
      rewrite <- Zlt_Qlt. lia.
    + apply Qle_trans with (inject_Z (2 ^ 52) * 2 ^ e').
      * change (2 ^ 53)%Z with (2 ^ 52 * 2)%Z. rewrite inject_Z_mult.
        rewrite <- Qmult_assoc. apply Qmult_le_l; [ reflexivity | ].
        change (inject_Z 2) with (2 ^ 1).
        rewrite <- (Qpower_plus 2 1 e two_nonzero).
        apply Qpower_le_compat_l; [ lia | discriminate ].
      * apply Qmult_le_compat_r; [ | apply Qlt_le_weak, pow2_pos ].
        rewrite <- Zle_Qle. lia.
  - apply Qmult_lt_compat_r; [ apply pow2_pos | ].
    rewrite <- Zlt_Qlt. exact Hlt.
Qed.

Lemma ltb_value (m m' : positive) (e e' : Z) :
  (2 ^ 52 <= Zpos m < 2 ^ 53)%Z -> (2 ^ 52 <= Zpos m' < 2 ^ 53)%Z ->
  (F64.ltb (S754_finite false m e) (S754_finite false m' e') = true
   <-> to_Q (S754_finite false m e) < to_Q (S754_finite false m' e')).
Proof.
  intros Hm Hm'. split.
  - intros H. apply FOrderFacts.ltb_spec in H. destruct H as (_ & _ & H).
    simpl in H. apply value_lt_of_key; auto. lia.
  - intros H. apply FOrderFacts.ltb_spec. repeat split. simpl.
    destruct (Z.lt_trichotomy e e') as [ L | [ E | G ] ]; [ lia | | ].
    + subst e'. destruct (Z.lt_trichotomy (Zpos m) (Zpos m')) as [ L | [ E | G ] ];
        [ lia | | ].
      * injection E as ->. exfalso. exact (Qlt_irrefl _ H).
      * exfalso.
        pose proof (value_lt_of_key m' m e e Hm' Hm ltac:(lia)) as K.
        exact (Qlt_irrefl _ (Qlt_trans _ _ _ H K)).
    + exfalso.
      pose proof (value_lt_of_key m' m e' e Hm' Hm ltac:(lia)) as K.
      exact (Qlt_irrefl _ (Qlt_trans _ _ _ H K)).
Qed.

End Exactness.

(** ** The two thresholds of the gender rule, exactly

    The tests [male_pct > 65] and [female_pct > 50] are made on doubles;
    for fewer than [2^45] rows they decide exactly whether the share of
    the rows is above 13/20 or above 1/2. *)

Module Thresholds.

Import Rounding.
Import Exactness.

Ltac pow2h :=
  repeat match goal with
         | |- context [(2 ^ ?k)%Z] =>
             let v := eval vm_compute in (2 ^ k)%Z in
             change (2 ^ k)%Z with v
         | H : context [(2 ^ ?k)%Z] |- _ =>
             let v := eval vm_compute in (2 ^ k)%Z in
             change (2 ^ k)%Z with v in H
         end.

(** The double quotient of two integers is at most a normal double that
    the exact quotient does not exceed. *)
Lemma div_le_double (a b : Z) (mB : positive) (eB : Z) :
  0 < a < 2 ^ 53 -> 0 < b < 2 ^ 53 ->
  2 ^ 52 <= Zpos mB < 2 ^ 53 -> -1000 <= eB <= 0 ->
  a * 2 ^ (- eB) <= Zpos mB * b ->
  exists m e,
    F64.div (F64.of_Z a) (F64.of_Z b) = S754_finite false m e /\
    2 ^ 52 <= Zpos m < 2 ^ 53 /\ -105 <= e /\
    (e < eB \/ (e = eB /\ Zpos m <= Zpos mB)).
Proof.
  intros Ha Hb HmB HeB Hle.
  destruct (of_Z_normal a Ha) as (ma & ea & Ea & Hma & Hea & Va).
  destruct (of_Z_normal b Hb) as (mb & eb & Eb & Hmb & Heb & Vb).
  rewrite Ea, Eb. rewrite div_eval by lia.
  pose proof (quotient_bounds ma mb Hma Hmb) as [Lq Uq].
  pose proof (Z.div_mod (Zpos ma * 2 ^ 53) (Zpos mb) ltac:(lia)) as DM.
  pose proof (Z.mod_pos_bound (Zpos ma * 2 ^ 53) (Zpos mb) ltac:(lia)) as MB.
  pose proof (new_location_inexact (Zpos mb) ((Zpos ma * 2 ^ 53) mod Zpos mb))
    as [Hex Hin].
  set (l := new_location (Zpos mb) ((Zpos ma * 2 ^ 53) mod Zpos mb)) in *.
  set (r := (Zpos ma * 2 ^ 53) mod Zpos mb) in *.
  destruct (Zpos ma * 2 ^ 53 / Zpos mb) as [ | q | q ] eqn:Eq; try lia.
  assert (53 <= Zpos (digits2_pos q)) by (apply digits2_pos_ge; simpl Z.sub; lia).
  assert (Zpos (digits2_pos q) <= 54) by (apply digits2_pos_le; lia).
  assert (PA : 0 < 2 ^ (- ea)) by (apply Z.pow_pos_nonneg; lia).
  assert (PB : 0 < 2 ^ (- eb)) by (apply Z.pow_pos_nonneg; lia).
  assert (PC : 0 < 2 ^ (- eB)) by (apply Z.pow_pos_nonneg; lia).
  set (A := 2 ^ (- ea)) in *. set (B := 2 ^ (- eb)) in *.
  set (C := 2 ^ (- eB)) in *.
  assert (K : Zpos ma * (C * B) <= Zpos mB * Zpos mb * A).
  { rewrite Va, Vb.
    assert (a * C * (A * B) <= Zpos mB * b * (A * B)).
    { apply Z.mul_le_mono_nonneg_r; [ | exact Hle ].
      apply Z.lt_le_incl. apply Z.mul_pos_pos; lia. }
    lia. }
  assert (Hexp : ea - eb - 53 <= eB).
  { assert (K2 : 2 ^ 52 * (C * B) < 2 ^ 53 * 2 ^ 53 * A).
    { assert (P0 : 0 < C * B) by (apply Z.mul_pos_pos; lia).
      assert (P1 : Zpos mB * Zpos mb < 2 ^ 53 * 2 ^ 53)
        by (apply Z.mul_lt_mono_nonneg; lia).
      assert (P2 : 2 ^ 52 * (C * B) <= Zpos ma * (C * B))
        by (apply Z.mul_le_mono_nonneg_r; lia).
      assert (P3 : Zpos mB * Zpos mb * A < 2 ^ 53 * 2 ^ 53 * A)
        by (apply Z.mul_lt_mono_pos_r; lia).
      lia. }
    unfold A, B, C in K2. rewrite <- !Z.pow_add_r in K2 by lia.
    apply pow2_lt_inv in K2; lia. }
  set (K' := 2 ^ (eB - (ea - eb - 53))).
  assert (Hs : K' * C * B = 2 ^ 53 * A).
  { unfold K', A, B, C. rewrite <- !Z.pow_add_r by lia. f_equal. lia. }
  assert (PK : 0 < K') by (apply Z.pow_pos_nonneg; lia).
  assert (Hbig : Zpos q * Zpos mb + r <= Zpos mB * K' * Zpos mb).
  { assert (DM' : Zpos q * Zpos mb + r = Zpos ma * 2 ^ 53) by lia.
    rewrite DM'.
    apply (Z.mul_le_mono_pos_r _ _ C PC).
    replace (Zpos mB * K' * Zpos mb * C)
      with (Zpos mB * b * (K' * C * B)) by (rewrite Vb; ring).
    rewrite Hs, Va.
    replace (a * A * 2 ^ 53 * C) with (a * C * (2 ^ 53 * A)) by ring.
    apply Z.mul_le_mono_nonneg_r; [ | exact Hle ].
    apply Z.lt_le_incl. apply Z.mul_pos_pos; lia. }
  destruct (round_upper q (ea - eb - 53) l mB eB)
    as (m & e & E & Hm & Hev & Hcmp); try lia.
  - fold K'.
    assert (Hi : (r = 0 /\ inexact l = 0) \/ (0 < r /\ inexact l = 1)).
    { destruct (Z.eq_dec r 0) as [ Z0 | NZ ].
      - left. split; [ exact Z0 | ]. now rewrite (Hex Z0).
      - right. split; [ lia | now apply Hin ]. }
    destruct Hi as [ [Hr Hi] | [Hr Hi] ]; rewrite Hi.
    + assert (Zpos q * Zpos mb <= Zpos mB * K' * Zpos mb) by lia.
      apply Z.mul_le_mono_pos_r in H1; lia.
    + assert (Zpos q * Zpos mb < Zpos mB * K' * Zpos mb) by lia.
      apply Z.mul_lt_mono_pos_r in H1; lia.
  - exists m, e. split; [ exact E | ]. split; [ exact Hm | ].
    split; [ lia | exact Hcmp ].
Qed.

(** A double that is at most the double of 0.65, multiplied by 100, is at
    most 65. *)
Lemma mul_100_le_65 (m : positive) (e : Z) :
  2 ^ 52 <= Zpos m < 2 ^ 53 -> -1000 <= e ->
  e < -53 \/ (e = -53 /\ Zpos m <= 5854679515581645) ->
  F64.leb (F64.mul (S754_finite false m e) (F64.of_Z 100)) (F64.of_Z 65)
  = true.
Proof.
  intros Hm He Hle.
  destruct (Z.eq_dec e (-53)) as [ E53 | N53 ];
    [ destruct (Z.eq_dec (Zpos m) 5854679515581645) as [ Em | Nm ] | ].
  - subst e. injection Em as ->. reflexivity.
  - subst e. rewrite of_Z_100, mul_eval.
    change (F64.of_Z 65) with (S754_finite false 4573968371548160 (-46)).
    assert (Hb : 2 ^ 52 <= 7036874417766400 < 2 ^ 53) by (pow2h; lia).
    pose proof (product_digits m 7036874417766400 Hm Hb) as Hd.
    destruct (round_upper (m * 7036874417766400) (-53 + -46) loc_Exact
                4573968371548160 (-46))
      as (m' & e' & E & _ & _ & Hcmp); try lia; try (pow2h; lia).
    + rewrite Pos2Z.inj_mul. simpl inexact. simpl Z.sub. pow2h. lia.
    + rewrite E. now apply leb_finite.
  - rewrite of_Z_100, mul_eval.
    change (F64.of_Z 65) with (S754_finite false 4573968371548160 (-46)).
    assert (Hb : 2 ^ 52 <= 7036874417766400 < 2 ^ 53) by (pow2h; lia).
    pose proof (product_digits m 7036874417766400 Hm Hb) as Hd.
    assert (Hpow : 2 ^ 54 <= 2 ^ (- e)) by (apply Z.pow_le_mono_r; lia).
    destruct (round_upper (m * 7036874417766400) (e + -46) loc_Exact
                4573968371548160 (-46))
      as (m' & e' & E & _ & _ & Hcmp); try lia; try (pow2h; lia).
    + rewrite Pos2Z.inj_mul. simpl inexact.
      replace (-46 - (e + -46)) with (- e) by lia.
      pow2h. nia.
    + rewrite E. now apply leb_finite.
Qed.

(** A double that is at most one half, multiplied by 100, is at most 50. *)
Lemma mul_100_le_50 (m : positive) (e : Z) :
  2 ^ 52 <= Zpos m < 2 ^ 53 -> -1000 <= e ->
  e < -53 \/ (e = -53 /\ Zpos m <= 4503599627370496) ->
  F64.leb (F64.mul (S754_finite false m e) (F64.of_Z 100)) (F64.of_Z 50)
  = true.
Proof.
  intros Hm He Hle. rewrite of_Z_100, mul_eval.
  change (F64.of_Z 50) with (S754_finite false 7036874417766400 (-47)).
  assert (Hb : 2 ^ 52 <= 7036874417766400 < 2 ^ 53) by (pow2h; lia).
  pose proof (product_digits m 7036874417766400 Hm Hb) as Hd.
  assert (Hme : Zpos m * 2 <= 2 ^ (- e)).
  { destruct Hle as [ Hlt | [ -> H ] ]; [ | pow2h; simpl; lia ].
    assert (2 ^ 54 <= 2 ^ (- e)) by (apply Z.pow_le_mono_r; lia).
    pow2h. lia. }
  destruct (round_upper (m * 7036874417766400) (e + -46) loc_Exact
              7036874417766400 (-47))
    as (m' & e' & E & _ & _ & Hcmp); try lia; try (pow2h; lia).
  - rewrite Pos2Z.inj_mul. simpl inexact.
    replace (-47 - (e + -46)) with (- e - 1) by lia.
    assert (Hp : 2 ^ (- e) = 2 * 2 ^ (- e - 1)).
    { rewrite <- Z.pow_succ_r by lia. f_equal. lia. }
    nia.
  - rewrite E. now apply leb_finite.
Qed.

Lemma Qdiv_le_cross (a b c d : Z) :
  0 < b -> 0 < d -> a * d <= c * b ->
  (inject_Z a / inject_Z b <= inject_Z c / inject_Z d)%Q.
Proof.
  intros Hb Hd H.
  assert (Qb : (0 < inject_Z b)%Q)
    by (change 0%Q with (inject_Z 0); now rewrite <- Zlt_Qlt).
  assert (Qd : (0 < inject_Z d)%Q)
    by (change 0%Q with (inject_Z 0); now rewrite <- Zlt_Qlt).
  apply Qle_shift_div_l; [ exact Qd | ].
  setoid_replace (inject_Z a / inject_Z b * inject_Z d)%Q
    with (inject_Z a * inject_Z d / inject_Z b)%Q
    by (field; apply Qnot_eq_sym, Qlt_not_eq, Qb).
  apply Qle_shift_div_r; [ exact Qb | ].
  rewrite <- !inject_Z_mult, <- Zle_Qle. exact H.
Qed.

Lemma percentage_of_none (n : nat) :
  (0 < n)%nat -> Z.of_nat n < 2 ^ 53 -> percentage 0 n = F64.zero.
Proof.
  intros Hn Hb. unfold percentage.
  destruct (Nat.ltb_spec 0 n); [ | lia ].
  destruct (of_Z_normal (Z.of_nat n)) as (m & e & E & _); [ lia | ].
  rewrite E. reflexivity.
Qed.

(** [count / total * 100 > 65] in doubles says that the count is more
    than 13/20 of the total. *)
Lemma share_above_65 (k n : nat) :
  (k <= n)%nat -> (0 < n)%nat -> Z.of_nat n < 2 ^ 45 ->
  (F64.gtb (percentage k n) (F64.of_Z 65) = true
   <-> 13 * Z.of_nat n < 20 * Z.of_nat k).
Proof.
  intros Hk Hn Hb.
  assert (Hb53 : Z.of_nat n < 2 ^ 53) by (pow2h; lia).
  destruct k as [ | k ].
  { rewrite percentage_of_none by assumption.
    split; [ discriminate | lia ]. }
  split.
  - intros H.
    destruct (Z.lt_ge_cases (13 * Z.of_nat n) (20 * Z.of_nat (S k)))
      as [ L | G ]; [ exact L | exfalso ].
    destruct (div_le_double (Z.of_nat (S k)) (Z.of_nat n)
                5854679515581645 (-53))
      as (m & e & E & Hm & He & Hcmp); try lia; try (pow2h; lia).
    pose proof (mul_100_le_65 m e Hm ltac:(lia) Hcmp) as Hle.
    unfold F64.gtb, percentage in H.
    destruct (Nat.ltb_spec 0 n); [ | lia ].
    rewrite E in H.
    apply FOrderFacts.leb_not_ltb in Hle. unfold F64.mul, F64.of_Z in *.
    congruence.
  - intros H.
    destruct (percentage_value (S k) n ltac:(lia) Hb53)
      as (m & e & E & Hm & L & _).
    rewrite E in L |- *.
    unfold F64.gtb. change (F64.of_Z 65)
      with (S754_finite false 4573968371548160 (-46)).
    apply ltb_value; [ pow2h; lia | exact Hm | ].
    assert (T : (inject_Z (13 * 2 ^ 45 + 1) / inject_Z (20 * 2 ^ 45)
                 <= inject_Z (Z.of_nat (S k)) / inject_Z (Z.of_nat n))%Q).
    { apply Qdiv_le_cross; [ pow2h; lia | lia | ]. pow2h. lia. }
    set (s := (inject_Z (Z.of_nat (S k)) / inject_Z (Z.of_nat n))%Q) in *.
    assert (C : (inject_Z (13 * 2 ^ 45 + 1) / inject_Z (20 * 2 ^ 45)
                 == 457396837154817 # 703687441776640)%Q) by reflexivity.
    rewrite C in T.
    assert (V65 : (to_Q (S754_finite false 4573968371548160 (-46)) == 65)%Q)
      by reflexivity.
    rewrite V65.
    set (V := to_Q (S754_finite false m e)) in *.
    lra.
Qed.

(** [count / total * 100 > 50] in doubles says that the count is more
    than half of the total. *)
Lemma share_above_50 (k n : nat) :
  (k <= n)%nat -> (0 < n)%nat -> Z.of_nat n < 2 ^ 45 ->
  (F64.gtb (percentage k n) (F64.of_Z 50) = true
   <-> Z.of_nat n < 2 * Z.of_nat k).
Proof.
  intros Hk Hn Hb.
  assert (Hb53 : Z.of_nat n < 2 ^ 53) by (pow2h; lia).
  destruct k as [ | k ].
  { rewrite percentage_of_none by assumption.
    split; [ discriminate | lia ]. }
  split.
  - intros H.
    destruct (Z.lt_ge_cases (Z.of_nat n) (2 * Z.of_nat (S k)))
      as [ L | G ]; [ exact L | exfalso ].
    destruct (div_le_double (Z.of_nat (S k)) (Z.of_nat n)
                4503599627370496 (-53))
      as (m & e & E & Hm & He & Hcmp); try lia; try (pow2h; lia).
    pose proof (mul_100_le_50 m e Hm ltac:(lia) Hcmp) as Hle.
    unfold F64.gtb, percentage in H.
    destruct (Nat.ltb_spec 0 n); [ | lia ].
    rewrite E in H.
    apply FOrderFacts.leb_not_ltb in Hle. unfold F64.mul, F64.of_Z in *.
    congruence.
  - intros H.
    destruct (percentage_value (S k) n ltac:(lia) Hb53)
      as (m & e & E & Hm & L & _).
    rewrite E in L |- *.
    unfold F64.gtb. change (F64.of_Z 50)
      with (S754_finite false 7036874417766400 (-47)).
    apply ltb_value; [ pow2h; lia | exact Hm | ].
    assert (T : (inject_Z (2 ^ 45 + 1) / inject_Z (2 * 2 ^ 45)
                 <= inject_Z (Z.of_nat (S k)) / inject_Z (Z.of_nat n))%Q).
    { apply Qdiv_le_cross; [ pow2h; lia | lia | ]. pow2h. lia. }
    set (s := (inject_Z (Z.of_nat (S k)) / inject_Z (Z.of_nat n))%Q) in *.
    assert (C : (inject_Z (2 ^ 45 + 1) / inject_Z (2 * 2 ^ 45)
                 == 35184372088833 # 70368744177664)%Q) by reflexivity.
    rewrite C in T.
    assert (V50 : (to_Q (S754_finite false 7036874417766400 (-47)) == 50)%Q)
      by reflexivity.
    rewrite V50.
    set (V := to_Q (S754_finite false m e)) in *.
    lra.
Qed.

End Thresholds.

(** ** The two tests of the trend rule against the exact means *)

Module TrendTests.

Import Rounding.
Import Exactness.

Local Open Scope Q_scope.

(** The doubles [Sr / 3] and [Se / ne] of two means of counts, and the
    tests made on them, against the exact means [R] and [E]: a test
    agrees with the exact comparison as soon as the two sides differ by
    more than the fraction [2^-50]. *)
Lemma tests_against_means (Sr Se ne : Z) :
  (0 < Sr < 2 ^ 53)%Z -> (0 < Se < 2 ^ 53)%Z -> (0 < ne < 2 ^ 53)%Z ->
  ((6 # 5) * (inject_Z Se / inject_Z ne) * (1 + (1 # 1125899906842624))
   < inject_Z Sr / 3 ->
   F64.gtb (F64.div (F64.of_Z Sr) (F64.of_Z 3))
           (F64.mul (F64.div (F64.of_Z Se) (F64.of_Z ne)) F64.lit_1_2)
   = true) /\
  (F64.gtb (F64.div (F64.of_Z Sr) (F64.of_Z 3))
           (F64.mul (F64.div (F64.of_Z Se) (F64.of_Z ne)) F64.lit_1_2)
   = true ->
   (6 # 5) * (inject_Z Se / inject_Z ne) * (1 - (1 # 1125899906842624))
   <= inject_Z Sr / 3) /\
  (inject_Z Sr / 3
   < (4 # 5) * (inject_Z Se / inject_Z ne) * (1 - (1 # 1125899906842624)) ->
   F64.ltb (F64.div (F64.of_Z Sr) (F64.of_Z 3))
           (F64.mul (F64.div (F64.of_Z Se) (F64.of_Z ne)) F64.lit_0_8)
   = true) /\
  (F64.ltb (F64.div (F64.of_Z Sr) (F64.of_Z 3))
           (F64.mul (F64.div (F64.of_Z Se) (F64.of_Z ne)) F64.lit_0_8)
   = true ->
   inject_Z Sr / 3
   <= (4 # 5) * (inject_Z Se / inject_Z ne) * (1 + (1 # 1125899906842624))).
Proof.
  intros HSr HSe Hne.
  destruct (div_value Sr 3 HSr ltac:(pow2))
    as (mr & er & Er & Hmr & Her & Lr & Ur).
  destruct (div_value Se ne HSe Hne)
    as (me & ee & Ee & Hme & Hee & Le & Ue).
  rewrite Er, Ee.
  change F64.lit_1_2 with (S754_finite false 5404319552844595 (-52)).
  change F64.lit_0_8 with (S754_finite false 7205759403792794 (-53)).
  destruct (mul_value me 5404319552844595 ee (-52) Hme ltac:(pow2) ltac:(lia))
    as (m1 & e1 & E1 & Hm1 & _ & L1 & U1).
  destruct (mul_value me 7205759403792794 ee (-53) Hme ltac:(pow2) ltac:(lia))
    as (m2 & e2 & E2 & Hm2 & _ & L2 & U2).
  rewrite E1, E2. unfold F64.gtb.
  rewrite !ltb_value by assumption.
  assert (C12 : to_Q (S754_finite false 5404319552844595 (-52))
                == 5404319552844595 # 4503599627370496) by reflexivity.
  assert (C08 : to_Q (S754_finite false 7205759403792794 (-53))
                == 7205759403792794 # 9007199254740992) by reflexivity.
  rewrite C12 in L1, U1. rewrite C08 in L2, U2.
  pose proof (share_nonneg Se ne ltac:(lia) ltac:(lia)) as HE.
  pose proof (share_nonneg Sr 3 ltac:(lia) ltac:(lia)) as HR.
  change (inject_Z 3) with 3 in *.
  set (R := inject_Z Sr / 3) in *.
  set (E := inject_Z Se / inject_Z ne) in *.
  set (VR := to_Q (S754_finite false mr er)) in *.
  set (VE := to_Q (S754_finite false me ee)) in *.
  set (V1 := to_Q (S754_finite false m1 e1)) in *.
  set (V2 := to_Q (S754_finite false m2 e2)) in *.
  repeat split; intros H; lra.
Qed.

End TrendTests.

(** ** Shares, cited percentages and counts *)

Module Shares.

Import Exactness.

Lemma count_where_gender (g : string) (d : Processed) :
  count_where (is_gender g) d
  = count_occ string_dec (map (fun r => gender (emp r)) d) g.
Proof.
  unfold count_where, is_gender.
  induction d as [ | r d IH ]; simpl; [ reflexivity | ].
  destruct (String.eqb_spec (gender (emp r)) g) as [ E | N ];
    destruct (string_dec (gender (emp r)) g) as [ E' | N' ];
    try congruence; simpl.
  - destruct (bool_dec true true); congruence.
  - destruct (bool_dec false true); congruence.
Qed.

Lemma share_le_1 (k n : Z) :
  0 <= k <= n -> 0 < n -> (inject_Z k / inject_Z n <= 1)%Q.
Proof.
  intros Hk Hn. apply Qle_shift_div_r.
  - change 0%Q with (inject_Z 0). now rewrite <- Zlt_Qlt.
  - rewrite Qmult_1_l, <- Zle_Qle. lia.
Qed.

(** [count / total * 100] in doubles is the exact percentage up to the
    fraction [2^-50] of it. *)
Lemma percentage_near (k n : nat) :
  (k <= n)%nat -> (0 < n)%nat -> Z.of_nat n < 2 ^ 53 ->
  ((1 - (1 # 1125899906842624))
   * (100 * (inject_Z (Z.of_nat k) / inject_Z (Z.of_nat n)))
   <= to_Q (percentage k n))%Q /\
  (to_Q (percentage k n)
   <= (1 + (1 # 1125899906842624))
      * (100 * (inject_Z (Z.of_nat k) / inject_Z (Z.of_nat n))))%Q.
Proof.
  intros Hk Hn Hb.
  destruct k as [ | k ].
  - rewrite Thresholds.percentage_of_none by assumption.
    change (inject_Z (Z.of_nat 0)) with 0%Q.
    setoid_replace (0 / inject_Z (Z.of_nat n))%Q with 0%Q.
    + split; simpl; lra.
    + unfold Qdiv. ring.
  - destruct (percentage_value (S k) n ltac:(lia) Hb) as (m & e & _ & _ & L & U).
    split; assumption.
Qed.

(** The same as a distance. *)
Lemma percentage_distance (k n : nat) :
  (k <= n)%nat -> (0 < n)%nat -> Z.of_nat n < 2 ^ 53 ->
  (Qabs (to_Q (percentage k n)
         - 100 * (inject_Z (Z.of_nat k) / inject_Z (Z.of_nat n)))
   <= 1 # 8796093022208)%Q.
Proof.
  intros Hk Hn Hb.
  destruct (percentage_near k n Hk Hn Hb) as [L U].
  pose proof (share_nonneg (Z.of_nat k) (Z.of_nat n) ltac:(lia) ltac:(lia)) as H0.
  pose proof (share_le_1 (Z.of_nat k) (Z.of_nat n) ltac:(lia) ltac:(lia)) as H1.
  set (T := (inject_Z (Z.of_nat k) / inject_Z (Z.of_nat n))%Q) in *.
  set (V := to_Q (percentage k n)) in *.
  apply Qabs_Qle_condition. split; lra.
Qed.

(** The percentage as cited with [:.1f]: the decimal of a number of tenths
    within 0.05 (and the rounding of the doubles) of the exact
    percentage. *)
Lemma cited_share (k n : nat) :
  (1 <= k <= n)%nat -> Z.of_nat n < 2 ^ 53 ->
  exists t,
    F64.format_1f (percentage k n)
    = (NilZero.string_of_int (Z.to_int (t / 10)) ++ "."
       ++ NilZero.string_of_int (Z.to_int (t mod 10)))%string /\
    0 <= t /\
    (Qabs (inject_Z t / 10
           - 100 * (inject_Z (Z.of_nat k) / inject_Z (Z.of_nat n)))
     <= (1 # 20) + (1 # 8796093022208))%Q.
Proof.
  intros Hk Hb.
  pose proof (percentage_distance k n ltac:(lia) ltac:(lia) Hb) as D.
  destruct (percentage_value k n Hk Hb) as (m & e & E & _ & _ & _).
  rewrite E in D |- *.
  destruct (format_1f_value m e) as (t & Et & Ht & Dt).
  exists t. split; [ exact Et | ]. split; [ exact Ht | ].
  set (T := (inject_Z (Z.of_nat k) / inject_Z (Z.of_nat n))%Q) in *.
  set (V := to_Q (S754_finite false m e)) in *.
  apply Qabs_Qle_condition in D. apply Qabs_Qle_condition in Dt.
  apply Qabs_Qle_condition.
  assert (K : (inject_Z t / 10 == inject_Z t * (1 # 10))%Q) by (field).
  rewrite K. split; lra.
Qed.

(** Three different values of a column cannot have more rows together
    than the column has. *)
Lemma count_three (x y z : string) (l : list string) :
  x <> y -> x <> z -> y <> z ->
  (count_occ string_dec l x + count_occ string_dec l y
   + count_occ string_dec l z <= length l)%nat.
Proof.
  intros Hxy Hxz Hyz. induction l as [ | a l IH ]; simpl; [ lia | ].
  destruct (string_dec a x), (string_dec a y), (string_dec a z);
    try congruence; lia.
Qed.

End Shares.

(** * The claims on percentages, cited texts and the trend *)

(** C8 (amended): when the gender column holds only the two values, the
    male and female counts are the numbers of rows of each value and add
    up to the total.  Each percentage field is a double between 0 and 100
    whose value is within [2^-43] of the exact [100 * count / total]; on a
    data set with rows the values of the two fields therefore add up to
    100 within [2^-43], although not always to 100 itself; on the empty
    data set both fields are 0.  (Fewer than [2^53] rows, so that the
    counts convert to doubles without rounding.) *)
Theorem gender_percentages (d : Processed) :
  (forall r, In r d -> gender (emp r) = "ذكر" \/ gender (emp r) = "أنثى") ->
  Z.of_nat (length d) < 2 ^ 53 ->
  male_count (summarize d)
  = count_occ string_dec (map (fun r => gender (emp r)) d) "ذكر" /\
  female_count (summarize d)
  = count_occ string_dec (map (fun r => gender (emp r)) d) "أنثى" /\
  total (summarize d) = length d /\
  (male_count (summarize d) + female_count (summarize d) = length d)%nat /\
  F64.leb (F64.of_Z 0) (male_pct (summarize d)) = true /\
  F64.leb (male_pct (summarize d)) (F64.of_Z 100) = true /\
  F64.leb (F64.of_Z 0) (female_pct (summarize d)) = true /\
  F64.leb (female_pct (summarize d)) (F64.of_Z 100) = true /\
  (d <> [] ->
   (Qabs (to_Q (male_pct (summarize d))
          - 100 * (inject_Z (Z.of_nat (male_count (summarize d)))
                   / inject_Z (Z.of_nat (length d))))
    <= 1 # 8796093022208)%Q /\
   (Qabs (to_Q (female_pct (summarize d))
          - 100 * (inject_Z (Z.of_nat (female_count (summarize d)))
                   / inject_Z (Z.of_nat (length d))))
    <= 1 # 8796093022208)%Q /\
   (Qabs (to_Q (male_pct (summarize d)) + to_Q (female_pct (summarize d))
          - 100)
    <= 1 # 8796093022208)%Q) /\
  (d = [] ->
   male_pct (summarize d) = S754_zero false /\
   female_pct (summarize d) = S754_zero false).
Proof.
  intros Hg Hn.
  pose proof (gender_counts d Hg) as Hsum.
  pose proof (count_where_le (is_gender MALE) d) as Hm.
  pose proof (count_where_le (is_gender FEMALE) d) as Hf.
  pose proof (percentage_range _ _ Hm Hn) as [M1 M2].
  pose proof (percentage_range _ _ Hf Hn) as [F1 F2].
  cbn [male_count female_count total male_pct female_pct summarize].
  split; [ apply Shares.count_where_gender | ].
  split; [ apply Shares.count_where_gender | ].
  split; [ reflexivity | ]. split; [ exact Hsum | ].
  split; [ exact M1 | ]. split; [ exact M2 | ].
  split; [ exact F1 | ]. split; [ exact F2 | ].
  split; [ | intros ->; split; reflexivity ].
  intros Hd.
  assert (Hpos : (0 < length d)%nat) by (destruct d; simpl; [ congruence | lia ]).
  set (k := count_where (is_gender MALE) d) in *.
  set (f := count_where (is_gender FEMALE) d) in *.
  pose proof (Shares.percentage_distance k (length d) Hm Hpos Hn) as Dm.
  pose proof (Shares.percentage_distance f (length d) Hf Hpos Hn) as Df.
  split; [ exact Dm | ]. split; [ exact Df | ].
  destruct (Shares.percentage_near k (length d) Hm Hpos Hn) as [Lm Um].
  destruct (Shares.percentage_near f (length d) Hf Hpos Hn) as [Lf Uf].
  pose proof (Exactness.share_nonneg (Z.of_nat k) (Z.of_nat (length d))
                ltac:(lia) ltac:(lia)) as Pk.
  pose proof (Exactness.share_nonneg (Z.of_nat f) (Z.of_nat (length d))
                ltac:(lia) ltac:(lia)) as Pf.
  assert (One : (inject_Z (Z.of_nat k) / inject_Z (Z.of_nat (length d))
                 + inject_Z (Z.of_nat f) / inject_Z (Z.of_nat (length d))
                 == 1)%Q).
  { rewrite <- Hsum, Nat2Z.inj_add, inject_Z_plus. field.
    rewrite <- inject_Z_plus. intros K. unfold Qeq in K. simpl in K. lia. }
  set (Tk := (inject_Z (Z.of_nat k) / inject_Z (Z.of_nat (length d)))%Q) in *.
  set (Tf := (inject_Z (Z.of_nat f) / inject_Z (Z.of_nat (length d)))%Q) in *.
  set (Vk := to_Q (percentage k (length d))) in *.
  set (Vf := to_Q (percentage f (length d))) in *.
  apply Qabs_Qle_condition. split; lra.
Qed.

Lemma gender_percentages_witness :
  (male_count (summarize (map categorize one_male_two_female))
   + female_count (summarize (map categorize one_male_two_female))
   = 3)%nat /\
  (Qabs (to_Q (male_pct (summarize (map categorize one_male_two_female)))
         + to_Q (female_pct (summarize (map categorize one_male_two_female)))
         - 100)
   <= 1 # 8796093022208)%Q.
Proof.
  destruct (gender_percentages (map categorize one_male_two_female))
    as (_ & _ & _ & H1 & _ & _ & _ & _ & H2 & _).
  - intros r [ <- | [ <- | [ <- | [] ] ] ]; simpl; auto.
  - simpl. lia.
  - split; [ exact H1 | ]. apply H2. discriminate.
Defined.

(** ** The gender rule *)

Lemma filter_none {A : Type} (f : A -> bool) (l : list A) :
  (forall x, In x l -> f x = false) -> filter f l = [].
Proof.
  induction l as [ | a l IH ]; intros H; [ reflexivity | ].
  simpl. rewrite (H a (or_introl eq_refl)). apply IH.
  intros x Hx. apply H. now right.
Qed.

Lemma filter_weaker {A : Type} (f g : A -> bool) (l : list A) :
  (forall x, f x = true -> g x = true) ->
  forall x, In x (filter f l) -> In x (filter g l).
Proof.
  intros H x Hx. apply filter_In in Hx. apply filter_In.
  destruct Hx as [Hin Hf]. auto.
Qed.

Lemma string_app_assoc (a b c : string) : ((a ++ b) ++ c = a ++ (b ++ c))%string.
Proof. induction a as [ | x a IH ]; simpl; [ reflexivity | now rewrite IH ]. Qed.

(** The gender rule decided on exact shares. *)
Lemma gender_rule_exact (d : Processed) :
  d <> [] -> Z.of_nat (length d) < 2 ^ 45 ->
  (13 * Z.of_nat (length d)
   < 20 * Z.of_nat (count_occ string_dec (map (fun r => gender (emp r)) d) MALE) ->
   gender_rule d
   = [male_warning
        (percentage (count_occ string_dec (map (fun r => gender (emp r)) d) MALE)
                    (length d))]) /\
  (20 * Z.of_nat (count_occ string_dec (map (fun r => gender (emp r)) d) MALE)
   <= 13 * Z.of_nat (length d) ->
   Z.of_nat (length d)
   < 2 * Z.of_nat (count_occ string_dec (map (fun r => gender (emp r)) d) FEMALE) ->
   gender_rule d
   = [female_warning
        (percentage (count_occ string_dec (map (fun r => gender (emp r)) d) FEMALE)
                    (length d))]) /\
  (20 * Z.of_nat (count_occ string_dec (map (fun r => gender (emp r)) d) MALE)
   <= 13 * Z.of_nat (length d) ->
   2 * Z.of_nat (count_occ string_dec (map (fun r => gender (emp r)) d) FEMALE)
   <= Z.of_nat (length d) ->
   gender_rule d = []).
Proof.
  intros Hd Hn.
  assert (Hpos : (0 < length d)%nat) by (destruct d; simpl; [ congruence | lia ]).
  unfold gender_rule.
  rewrite !(pct_where_percentage _ d Hd), !Shares.count_where_gender.
  pose proof (count_where_le (is_gender MALE) d) as Hm.
  pose proof (count_where_le (is_gender FEMALE) d) as Hf.
  rewrite Shares.count_where_gender in Hm, Hf.
  pose proof (Thresholds.share_above_65 _ _ Hm Hpos Hn) as T65.
  pose proof (Thresholds.share_above_50 _ _ Hf Hpos Hn) as T50.
  destruct (F64.gtb (percentage (count_occ string_dec _ MALE) (length d))
                    (F64.of_Z 65)) eqn:E65;
    [ | destruct (F64.gtb (percentage (count_occ string_dec _ FEMALE) (length d))
                          (F64.of_Z 50)) eqn:E50 ].
  - assert (13 * Z.of_nat (length d)
            < 20 * Z.of_nat (count_occ string_dec
                               (map (fun r => gender (emp r)) d) MALE))
      by (now apply T65).
    repeat split; intros; try reflexivity; lia.
  - assert (~ 13 * Z.of_nat (length d)
              < 20 * Z.of_nat (count_occ string_dec
                                 (map (fun r => gender (emp r)) d) MALE))
      by (intros K; apply T65 in K; congruence).
    assert (Z.of_nat (length d)
            < 2 * Z.of_nat (count_occ string_dec
                              (map (fun r => gender (emp r)) d) FEMALE))
      by (now apply T50).
    repeat split; intros; try reflexivity; lia.
  - assert (~ 13 * Z.of_nat (length d)
              < 20 * Z.of_nat (count_occ string_dec
                                 (map (fun r => gender (emp r)) d) MALE))
      by (intros K; apply T65 in K; congruence).
    assert (~ Z.of_nat (length d)
              < 2 * Z.of_nat (count_occ string_dec
                                (map (fun r => gender (emp r)) d) FEMALE))
      by (intros K; apply T50 in K; congruence).
    repeat split; intros; try reflexivity; lia.
Qed.

(** The insight list opens with the strings of the gender rule, and they
    are its only gender warnings. *)
Lemma insights_gender_part (d : Processed) :
  d <> [] ->
  exists rest,
    compute_insights d = Returns (gender_rule d ++ rest)%list /\
    filter is_gender_warning (gender_rule d ++ rest)%list = gender_rule d.
Proof.
  intros Hd.
  destruct (compute_insights_nonempty d Hd) as (top & dept & _ & _ & E).
  eexists. split; [ exact E | ].
  rewrite !filter_app, gender_rule_all_warnings, trend_rule_no_warning,
    young_rule_no_warning, short_service_rule_no_warning.
  cbn [filter].
  rewrite top_reason_insight_no_warning, top_department_insight_no_warning.
  now rewrite !app_nil_r.
Qed.

(** C7: on a data set with rows (fewer than [2^45]) the gender rule is
    an if / elif on exact shares.  When more than 13/20 of the rows are
    male, the insight list opens with the male warning, which cites the
    male percentage rounded to one decimal, and holds no female warning.
    Otherwise, when more than half of the rows are female, it opens with
    the female warning, which cites the female percentage rounded to one
    decimal, and holds no male warning.  Otherwise it holds neither.  At
    most one string of the list reads as one of the two warnings.  With 7
    males among 10 rows the male warning cites 70.0%; with 2 females and
    1 male among 3 rows the female warning cites 66.7%. *)
Theorem gender_skew_insight (self : Analyzer) (d : Processed) :
  processed_data self = Some d ->
  d <> [] ->
  Z.of_nat (length d) < 2 ^ 45 ->
  exists l males females,
    generate_insights self =
      (Returns tt,
       {| data := data self; processed_data := processed_data self;
          insights := l |}) /\
    males = count_occ string_dec (map (fun r => gender (emp r)) d) "ذكر" /\
    females = count_occ string_dec (map (fun r => gender (emp r)) d) "أنثى" /\
    (length (filter (fun s => String.prefix "🚨 معدل ترك الذكور مرتفع جداً (" s
                              || String.prefix "⚠️ معدل ترك الإناث أعلى من المتوقع (" s)
                    l) <= 1)%nat /\
    (13 * Z.of_nat (length d) < 20 * Z.of_nat males ->
     filter (String.prefix "⚠️ معدل ترك الإناث أعلى من المتوقع (") l = [] /\
     exists t,
       hd_error l
       = Some ("🚨 معدل ترك الذكور مرتفع جداً ("
               ++ NilZero.string_of_int (Z.to_int (t / 10)) ++ "."
               ++ NilZero.string_of_int (Z.to_int (t mod 10)) ++ "%)") /\
       0 <= t /\
       (Qabs (inject_Z t / 10
              - 100 * (inject_Z (Z.of_nat males)
                       / inject_Z (Z.of_nat (length d))))
        <= (1 # 20) + (1 # 8796093022208))%Q) /\
    (20 * Z.of_nat males <= 13 * Z.of_nat (length d) ->
     Z.of_nat (length d) < 2 * Z.of_nat females ->
     filter (String.prefix "🚨 معدل ترك الذكور مرتفع جداً (") l = [] /\
     exists t,
       hd_error l
       = Some ("⚠️ معدل ترك الإناث أعلى من المتوقع ("
               ++ NilZero.string_of_int (Z.to_int (t / 10)) ++ "."
               ++ NilZero.string_of_int (Z.to_int (t mod 10)) ++ "%)") /\
       0 <= t /\
       (Qabs (inject_Z t / 10
              - 100 * (inject_Z (Z.of_nat females)
                       / inject_Z (Z.of_nat (length d))))
        <= (1 # 20) + (1 # 8796093022208))%Q) /\
    (20 * Z.of_nat males <= 13 * Z.of_nat (length d) ->
     2 * Z.of_nat females <= Z.of_nat (length d) ->
     filter (fun s => String.prefix "🚨 معدل ترك الذكور مرتفع جداً (" s
                      || String.prefix "⚠️ معدل ترك الإناث أعلى من المتوقع (" s)
            l = []) /\
    (length d = 10%nat -> males = 7%nat ->
     hd_error l = Some "🚨 معدل ترك الذكور مرتفع جداً (70.0%)") /\
    (length d = 3%nat -> males = 1%nat -> females = 2%nat ->
     hd_error l = Some "⚠️ معدل ترك الإناث أعلى من المتوقع (66.7%)").
Proof.
  intros Hdata Hrows Hn.
  assert (Hn53 : Z.of_nat (length d) < 2 ^ 53).
  { change (2 ^ 53) with (2 ^ 45 * 256). change (2 ^ 45) with 35184372088832 in *.
    lia. }
  destruct (insights_gender_part d Hrows) as (rest & E & F).
  destruct (gender_rule_exact d Hrows Hn) as (Gm & Gf & Gn).
  pose proof (count_where_le (is_gender MALE) d) as Hm.
  pose proof (count_where_le (is_gender FEMALE) d) as Hf.
  rewrite Shares.count_where_gender in Hm, Hf.
  change MALE with "ذكر" in *. change FEMALE with "أنثى" in *.
  set (males := count_occ string_dec (map (fun r => gender (emp r)) d) "ذكر") in *.
  set (females := count_occ string_dec (map (fun r => gender (emp r)) d) "أنثى")
    in *.
  exists (gender_rule d ++ rest)%list, males, females.
  split; [ exact (generate_insights_returns self d _ Hdata E) | ].
  split; [ reflexivity | ]. split; [ reflexivity | ].
  change (fun s => String.prefix "🚨 معدل ترك الذكور مرتفع جداً (" s
                   || String.prefix "⚠️ معدل ترك الإناث أعلى من المتوقع (" s)
    with is_gender_warning.
  change (String.prefix "🚨 معدل ترك الذكور مرتفع جداً (") with is_male_warning.
  change (String.prefix "⚠️ معدل ترك الإناث أعلى من المتوقع (")
    with is_female_warning.
  rewrite F.
  split; [ apply gender_rule_length | ].
  assert (Only : forall s, In s (gender_rule d ++ rest)%list ->
                           is_gender_warning s = true -> In s (gender_rule d)).
  { intros s Hs Hw. rewrite <- F. apply filter_In. auto. }
  split; [ | split; [ | split; [ | split ] ] ].
  - intros H. rewrite (Gm H) in *. split.
    + apply filter_none. intros s Hs.
      destruct (is_female_warning s) eqn:W; [ exfalso | reflexivity ].
      assert (K : In s [male_warning (percentage males (length d))]).
      { apply Only; [ exact Hs | ]. unfold is_gender_warning.
        now rewrite W, orb_true_r. }
      destruct K as [ <- | [] ].
      rewrite male_warning_not_female in W. discriminate W.
    + destruct (Shares.cited_share males (length d) ltac:(lia) Hn53)
        as (t & Et & Ht & Dt).
      exists t. split; [ | split; [ exact Ht | exact Dt ] ].
      cbn [app hd_error]. unfold male_warning. rewrite Et.
      now rewrite !string_app_assoc.
  - intros H1 H2. rewrite (Gf H1 H2) in *. split.
    + apply filter_none. intros s Hs.
      destruct (is_male_warning s) eqn:W; [ exfalso | reflexivity ].
      assert (K : In s [female_warning (percentage females (length d))]).
      { apply Only; [ exact Hs | ]. unfold is_gender_warning.
        now rewrite W. }
      destruct K as [ <- | [] ].
      rewrite female_warning_not_male in W. discriminate W.
    + destruct (Shares.cited_share females (length d) ltac:(lia) Hn53)
        as (t & Et & Ht & Dt).
      exists t. split; [ | split; [ exact Ht | exact Dt ] ].
      cbn [app hd_error]. unfold female_warning. rewrite Et.
      now rewrite !string_app_assoc.
  - intros H1 H2. exact (Gn H1 H2).
  - intros Hl Hk. rewrite Gm by lia. rewrite Hl, Hk. reflexivity.
  - intros Hl Hk Hf'. rewrite Gf by lia. rewrite Hl, Hf'. reflexivity.
Qed.

Lemma gender_skew_insight_witness :
  exists l,
    insights (snd (generate_insights (loaded seven_male_three_female))) = l /\
    hd_error l = Some "🚨 معدل ترك الذكور مرتفع جداً (70.0%)".
Proof.
  destruct (gender_skew_insight (loaded seven_male_three_female)
              (map categorize seven_male_three_female))
    as (l & males & females & E & Em & _ & _ & _ & _ & _ & H & _).
  - reflexivity.
  - discriminate.
  - vm_compute. reflexivity.
  - exists l. rewrite E. split; [ reflexivity | ].
    apply H; [ reflexivity | rewrite Em; reflexivity ].
Defined.

(** ** The dominant reason *)

(** C4: on a data set with rows the dominant-reason insight is always in
    the list.  It names a reason of the data whose number of rows is
    maximal, the least in string order among the reasons with that number
    of rows, and cites the share of that reason,
    [100 * count / total], rounded to one decimal.  With two reasons of
    five rows each among ten rows, the one that sorts first is named, at
    50.0%. *)
Theorem dominant_reason_insight (self : Analyzer) (d : Processed) :
  processed_data self = Some d ->
  d <> [] ->
  Z.of_nat (length d) < 2 ^ 53 ->
  exists l top t,
    generate_insights self =
      (Returns tt,
       {| data := data self; processed_data := processed_data self;
          insights := l |}) /\
    In top (map (fun r => reason (emp r)) d) /\
    (forall y,
       (count_occ string_dec (map (fun r => reason (emp r)) d) y
        <= count_occ string_dec (map (fun r => reason (emp r)) d) top)%nat) /\
    (forall y,
       In y (map (fun r => reason (emp r)) d) ->
       count_occ string_dec (map (fun r => reason (emp r)) d) y
       = count_occ string_dec (map (fun r => reason (emp r)) d) top ->
       String.leb top y = true) /\
    In ("📊 السبب الأكثر شيوعاً: " ++ top ++ " ("
        ++ NilZero.string_of_int (Z.to_int (t / 10)) ++ "."
        ++ NilZero.string_of_int (Z.to_int (t mod 10)) ++ "%)") l /\
    0 <= t /\
    (Qabs (inject_Z t / 10
           - 100 * (inject_Z (Z.of_nat (count_occ string_dec
                                          (map (fun r => reason (emp r)) d) top))
                    / inject_Z (Z.of_nat (length d))))
     <= (1 # 20) + (1 # 8796093022208))%Q /\
    (forall a b,
       a <> b -> String.leb a b = true ->
       length d = 10%nat ->
       count_occ string_dec (map (fun r => reason (emp r)) d) a = 5%nat ->
       count_occ string_dec (map (fun r => reason (emp r)) d) b = 5%nat ->
       top = a /\
       In ("📊 السبب الأكثر شيوعاً: " ++ a ++ " (50.0%)") l).
Proof.
  intros Hdata Hrows Hn.
  destruct (compute_insights_nonempty d Hrows) as (top & dept & Et & _ & E).
  destruct (top_reason_returns d Hrows) as (top' & Et' & (Hin & Hmax) & Hmin).
  assert (top' = top) by congruence. subst top'.
  rewrite (pct_where_percentage _ d Hrows), count_where_reason in E.
  unfold count, reasons in *.
  set (col := map (fun r => reason (emp r)) d) in *.
  assert (Hlen : length col = length d) by (unfold col; apply length_map).
  assert (Hk : (1 <= count_occ string_dec col top <= length d)%nat).
  { split; [ now apply (count_occ_In string_dec) | ].
    rewrite <- Hlen. apply count_occ_bound. }
  destruct (Shares.cited_share (count_occ string_dec col top) (length d) Hk Hn)
    as (t & Ef & Ht & Dt).
  assert (Hins : forall p,
            In (top_reason_insight top p)
               (gender_rule d ++ [top_reason_insight top p] ++ trend_rule d
                ++ [top_department_insight dept] ++ young_rule d
                ++ short_service_rule d)%list).
  { intros p. apply in_or_app. right. now left. }
  eexists. exists top, t.
  split; [ exact (generate_insights_returns self d _ Hdata E) | ].
  split; [ exact Hin | ].
  split; [ intros y; rewrite Hmax; apply max_count_ge | ].
  split.
  { intros y Hy Hc. apply Hmin. split; [ exact Hy | ].
    unfold count. congruence. }
  split.
  { replace ("📊 السبب الأكثر شيوعاً: " ++ top ++ " ("
             ++ NilZero.string_of_int (Z.to_int (t / 10)) ++ "."
             ++ NilZero.string_of_int (Z.to_int (t mod 10)) ++ "%)")
      with (top_reason_insight top
              (percentage (count_occ string_dec col top) (length d)));
      [ apply Hins | ].
    unfold top_reason_insight. rewrite Ef.
    now rewrite !string_app_assoc. }
  split; [ exact Ht | ]. split; [ exact Dt | ].
  intros a b Hab Hle Hl Ha Hb.
  assert (Htop : top = a).
  { assert (Hge : (5 <= count_occ string_dec col top)%nat).
    { rewrite <- Ha. rewrite Hmax. apply max_count_ge. }
    destruct (string_dec top a) as [ Ea | Na ]; [ exact Ea | exfalso ].
    destruct (string_dec top b) as [ Eb | Nb ].
    - subst top. apply Hab. apply String.leb_antisym; [ exact Hle | ].
      apply Hmin. split.
      + apply (count_occ_In string_dec). lia.
      + rewrite <- Hmax. unfold count. congruence.
    - pose proof (Shares.count_three top a b col Na Nb Hab). lia. }
  split; [ exact Htop | ].
  rewrite Htop, Ha, Hl. apply in_or_app. right. left. reflexivity.
Qed.

Lemma dominant_reason_insight_witness :
  exists l top,
    insights (snd (generate_insights (loaded tied_reasons))) = l /\
    top = "راتب غير مناسب" /\
    In ("📊 السبب الأكثر شيوعاً: راتب غير مناسب (50.0%)") l.
Proof.
  destruct (dominant_reason_insight (loaded tied_reasons)
              (map categorize tied_reasons))
    as (l & top & t & E & _ & _ & _ & _ & _ & _ & H).
  - reflexivity.
  - discriminate.
  - vm_compute. reflexivity.
  - destruct (H "راتب غير مناسب" "فرصة عمل أخرى") as [Ht Hi];
      [ discriminate | reflexivity | reflexivity
      | vm_compute; reflexivity | vm_compute; reflexivity | ].
    exists l, top. rewrite E. split; [ reflexivity | ].
    split; [ exact Ht | exact Hi ].
Defined.

(** ** The gender and department recommendations *)

(** C5: on a data set with rows (fewer than [2^45]) the recommendation
    list holds exactly one of the two gender strings: the male-focused one
    when more than 13/20 of the rows are male, the work-life-balance one
    otherwise.  It holds exactly one department string, its last string,
    which is the fixed text followed by the name of a department of the
    data whose number of rows is maximal. *)
Theorem gender_and_department_recommendations
        (self : Analyzer) (d : Processed) :
  processed_data self = Some d ->
  d <> [] ->
  Z.of_nat (length d) < 2 ^ 45 ->
  exists recs dept,
    generate_recommendations self = Returns recs /\
    (13 * Z.of_nat (length d)
     < 20 * Z.of_nat (count_occ string_dec
                        (map (fun r => gender (emp r)) d) "ذكر") ->
     count_occ string_dec recs "👨‍💼 التركيز على احتياجات الموظفين الذكور" = 1%nat /\
     count_occ string_dec recs "👩‍💼 تطوير برامج دعم التوازن بين العمل والحياة" = 0%nat) /\
    (20 * Z.of_nat (count_occ string_dec
                      (map (fun r => gender (emp r)) d) "ذكر")
     <= 13 * Z.of_nat (length d) ->
     count_occ string_dec recs "👨‍💼 التركيز على احتياجات الموظفين الذكور" = 0%nat /\
     count_occ string_dec recs "👩‍💼 تطوير برامج دعم التوازن بين العمل والحياة" = 1%nat) /\
    (count_occ string_dec recs "👨‍💼 التركيز على احتياجات الموظفين الذكور"
     + count_occ string_dec recs "👩‍💼 تطوير برامج دعم التوازن بين العمل والحياة" = 1)%nat /\
    In dept (map (fun r => department (emp r)) d) /\
    (forall y,
       (count_occ string_dec (map (fun r => department (emp r)) d) y
        <= count_occ string_dec (map (fun r => department (emp r)) d) dept)%nat) /\
    filter (String.prefix "🎯 إيلاء اهتمام خاص لإدارة ") recs = ["🎯 إيلاء اهتمام خاص لإدارة " ++ dept] /\
    last recs "" = "🎯 إيلاء اهتمام خاص لإدارة " ++ dept.
Proof.
  intros Hdata Hrows Hn.
  assert (Hpos : (0 < length d)%nat) by (destruct d; simpl; [ congruence | lia ]).
  destruct (compute_recommendations_nonempty d Hrows)
    as (top & dept & _ & Ed & E).
  destruct (top_department_returns d Hrows) as (dept' & Ed' & Hin & Hmax).
  assert (dept' = dept) by congruence. subst dept'.
  eexists. exists dept.
  unfold generate_recommendations. rewrite Hdata.
  split; [ exact E | ].
  destruct (reason_recommendations_facts top) as (A1 & A2 & A3).
  destruct (service_recommendations_facts d) as (B1 & B2 & B3).
  destruct (gender_recommendation_facts d) as (C3 & C1 & C2).
  destruct (rec_department_facts dept) as (D1 & D2).
  rewrite (pct_where_percentage _ d Hrows), Shares.count_where_gender in C1, C2.
  pose proof (count_where_le (is_gender MALE) d) as Hm.
  rewrite Shares.count_where_gender in Hm.
  pose proof (Thresholds.share_above_65 _ _ Hm Hpos Hn) as T65.
  change MALE with "ذكر" in *.
  set (males := count_occ string_dec (map (fun r => gender (emp r)) d) "ذكر")
    in *.
  change "👨‍💼 التركيز على احتياجات الموظفين الذكور" with rec_male_focus.
  change "👩‍💼 تطوير برامج دعم التوازن بين العمل والحياة" with rec_work_life.
  change "🎯 إيلاء اهتمام خاص لإدارة " with rec_department_prefix.
  change (String.prefix rec_department_prefix) with is_department_recommendation.
  change (rec_department_prefix ++ dept) with (rec_department dept).
  change (count_occ string_dec ?l ?x) with (count x l) in |- *.
  unfold count in *.
  rewrite !count_occ_app.
  unfold count in A1, A2, B1, B2, D1, D2.
  rewrite A1, A2, B1, B2, D1, D2, !Nat.add_0_r. simpl Nat.add.
  split.
  { intros H. apply C1. now apply T65. }
  split.
  { intros H. apply C2.
    destruct (F64.gtb (percentage males (length d)) (F64.of_Z 65)) eqn:G;
      [ | reflexivity ].
    pose proof (proj1 T65 eq_refl). lia. }
  split.
  { destruct (F64.gtb (percentage males (length d)) (F64.of_Z 65));
      [ destruct (C1 eq_refl) as [-> ->] | destruct (C2 eq_refl) as [-> ->] ];
      reflexivity. }
  split; [ exact Hin | ]. split; [ exact Hmax | ].
  split.
  - rewrite !filter_app, A3, B3, C3. cbn [filter app].
    now rewrite rec_department_is_department.
  - rewrite !app_assoc. apply last_last.
Qed.

Lemma gender_and_department_recommendations_witness :
  exists recs,
    generate_recommendations (loaded seven_male_three_female) = Returns recs /\
    count_occ string_dec recs "👨‍💼 التركيز على احتياجات الموظفين الذكور" = 1%nat /\
    last recs "" = "🎯 إيلاء اهتمام خاص لإدارة التسويق".
Proof.
  destruct (gender_and_department_recommendations
              (loaded seven_male_three_female)
              (map categorize seven_male_three_female))
    as (recs & dept & E & Hm & _ & _ & Hin & Hmax & _ & Hl).
  - reflexivity.
  - discriminate.
  - vm_compute. reflexivity.
  - exists recs. split; [ exact E | ].
    split; [ apply Hm; vm_compute; reflexivity | ].
    rewrite Hl. f_equal.
    vm_compute in Hin.
    repeat (destruct Hin as [ <- | Hin ]; [ try reflexivity | ]);
      try contradiction;
      specialize (Hmax "التسويق"); vm_compute in Hmax; lia.
Defined.

(** ** The yearly trend *)

Module TrendExact.

Import Exactness.

Lemma mean_counts_eq (l : list nat) :
  l <> [] ->
  mean_counts l
  = F64.div (F64.of_Z (Z.of_nat (list_sum l)))
            (F64.of_Z (Z.of_nat (length l))).
Proof.
  intros Hl. unfold mean_counts, mean_Z.
  rewrite Trend.sum_of_nat, length_map.
  destruct l; [ congruence | reflexivity ].
Qed.

Lemma sum_at_least_1 (l : list nat) :
  l <> [] -> (forall x, In x l -> (1 <= x)%nat) -> (1 <= list_sum l)%nat.
Proof.
  destruct l as [ | x l ]; [ congruence | ]. intros _ H.
  specialize (H x (or_introl eq_refl)). simpl. lia.
Qed.

Lemma yearly_counts_positive (d : Processed) (c : nat) :
  In c (yearly_trend d) -> (1 <= c)%nat.
Proof.
  destruct (yearly_trend_spec d) as (ys & _ & Hys & E).
  rewrite E. intros H. apply in_map_iff in H. destruct H as (y & <- & Hy).
  apply (count_occ_In Z.eq_dec). now apply Hys.
Qed.

(** The rule gives one of three results. *)
Lemma trend_rule_results (d : Processed) :
  trend_rule d = [upward_trend] \/ trend_rule d = [downward_trend]
  \/ trend_rule d = [].
Proof.
  unfold trend_rule.
  repeat match goal with |- context [if ?b then _ else _] => destruct b end;
    auto.
Qed.

(** The trend rule on at least four yearly counts, against the exact mean
    of the last three counts and the exact mean of the earlier ones. *)
Lemma trend_rule_exact (d : Processed) :
  (4 <= length (yearly_trend d))%nat ->
  Z.of_nat (length d) < 2 ^ 53 ->
  (((6 # 5)
    * (inject_Z (Z.of_nat (list_sum (firstn (length (yearly_trend d) - 3)
                                            (yearly_trend d))))
       / inject_Z (Z.of_nat (length (firstn (length (yearly_trend d) - 3)
                                            (yearly_trend d)))))
    * (1 + (1 # 1125899906842624))
    < inject_Z (Z.of_nat (list_sum (skipn (length (yearly_trend d) - 3)
                                          (yearly_trend d))))
      / inject_Z (Z.of_nat (length (skipn (length (yearly_trend d) - 3)
                                          (yearly_trend d)))))%Q ->
   trend_rule d = [upward_trend]) /\
  (trend_rule d = [upward_trend] ->
   ((6 # 5)
    * (inject_Z (Z.of_nat (list_sum (firstn (length (yearly_trend d) - 3)
                                            (yearly_trend d))))
       / inject_Z (Z.of_nat (length (firstn (length (yearly_trend d) - 3)
                                            (yearly_trend d)))))
    * (1 - (1 # 1125899906842624))
    <= inject_Z (Z.of_nat (list_sum (skipn (length (yearly_trend d) - 3)
                                           (yearly_trend d))))
       / inject_Z (Z.of_nat (length (skipn (length (yearly_trend d) - 3)
                                           (yearly_trend d)))))%Q) /\
  ((inject_Z (Z.of_nat (list_sum (skipn (length (yearly_trend d) - 3)
                                        (yearly_trend d))))
    / inject_Z (Z.of_nat (length (skipn (length (yearly_trend d) - 3)
                                        (yearly_trend d))))
    < (4 # 5)
      * (inject_Z (Z.of_nat (list_sum (firstn (length (yearly_trend d) - 3)
                                              (yearly_trend d))))
         / inject_Z (Z.of_nat (length (firstn (length (yearly_trend d) - 3)
                                              (yearly_trend d)))))
      * (1 - (1 # 1125899906842624)))%Q ->
   trend_rule d = [downward_trend]) /\
  (trend_rule d = [downward_trend] ->
   (inject_Z (Z.of_nat (list_sum (skipn (length (yearly_trend d) - 3)
                                        (yearly_trend d))))
    / inject_Z (Z.of_nat (length (skipn (length (yearly_trend d) - 3)
                                        (yearly_trend d))))
    <= (4 # 5)
       * (inject_Z (Z.of_nat (list_sum (firstn (length (yearly_trend d) - 3)
                                               (yearly_trend d))))
          / inject_Z (Z.of_nat (length (firstn (length (yearly_trend d) - 3)
                                               (yearly_trend d)))))
       * (1 + (1 # 1125899906842624)))%Q).
Proof.
  intros Hlen Hn.
  set (counts := yearly_trend d) in *.
  set (recent := skipn (length counts - 3) counts).
  set (earlier := firstn (length counts - 3) counts).
  assert (Lr : length recent = 3%nat)
    by (unfold recent; rewrite length_skipn; lia).
  assert (Le : length earlier = (length counts - 3)%nat)
    by (unfold earlier; rewrite length_firstn; lia).
  assert (Nr : recent <> []) by (intros K; rewrite K in Lr; discriminate Lr).
  assert (Ne : earlier <> [])
    by (intros K; rewrite K in Le; simpl in Le; lia).
  assert (Pr : (1 <= list_sum recent)%nat).
  { apply sum_at_least_1; [ exact Nr | ]. intros x Hx.
    apply (yearly_counts_positive d). apply in_skipn in Hx. exact Hx. }
  assert (Pe : (1 <= list_sum earlier)%nat).
  { apply sum_at_least_1; [ exact Ne | ]. intros x Hx.
    apply (yearly_counts_positive d). apply in_firstn in Hx. exact Hx. }
  pose proof (yearly_trend_total d) as Tot. fold counts in Tot.
  assert (Ur : (list_sum recent <= length d)%nat).
  { rewrite <- Tot. apply (sum_skipn_le (length counts - 3) counts). }
  assert (Ue : (list_sum earlier <= length d)%nat).
  { rewrite <- Tot. apply (Trend.sum_firstn_le (length counts - 3) counts). }
  assert (Ul : (length counts <= length d)%nat).
  { unfold counts. rewrite yearly_trend_length. apply Trend.distinct_years_le. }
  destruct (TrendTests.tests_against_means
              (Z.of_nat (list_sum recent)) (Z.of_nat (list_sum earlier))
              (Z.of_nat (length earlier)))
    as (S1 & S2 & S3 & S4); try lia.
  assert (ER : recent_years d
               = F64.div (F64.of_Z (Z.of_nat (list_sum recent))) (F64.of_Z 3)).
  { unfold recent_years, iloc_last. fold counts. fold recent.
    rewrite (mean_counts_eq recent Nr), Lr. reflexivity. }
  assert (EE : earlier_years d
               = F64.div (F64.of_Z (Z.of_nat (list_sum earlier)))
                         (F64.of_Z (Z.of_nat (length earlier)))).
  { unfold earlier_years, iloc_drop_last. fold counts. fold earlier.
    apply (mean_counts_eq earlier Ne). }
  rewrite <- ER, <- EE in S1, S2, S3, S4.
  rewrite Lr. change (inject_Z (Z.of_nat 3)) with 3%Q.
  destruct (trend_rule_cases d) as [_ Hmany].
  destruct Hmany as (Hup & Hdown & Hnone);
    [ apply Nat.ltb_lt; fold counts; lia | ].
  pose proof (Trend.thresholds_exclusive (earlier_years d) (recent_years d)
                (Trend.earlier_years_moderate d Hn)) as Hex.
  assert (Dup : [upward_trend] <> [downward_trend]) by discriminate.
  assert (Dnil : [upward_trend] <> @nil string) by discriminate.
  assert (Dnil' : [downward_trend] <> @nil string) by discriminate.
  destruct (F64.gtb (recent_years d) (F64.mul (earlier_years d) F64.lit_1_2))
    eqn:Gup;
    [ | destruct (F64.ltb (recent_years d)
                          (F64.mul (earlier_years d) F64.lit_0_8)) eqn:Gdown ].
  - rewrite (Hup eq_refl). specialize (Hex eq_refl).
    split; [ reflexivity | ].
    split; [ intros _; now apply S2 | ].
    split.
    + intros K. apply S3 in K. congruence.
    + intros K. congruence.
  - rewrite (Hdown eq_refl eq_refl).
    split; [ intros K; apply S1 in K; discriminate K | ].
    split; [ intros K; congruence | ].
    split; [ reflexivity | intros _; now apply S4 ].
  - rewrite (Hnone eq_refl eq_refl).
    split; [ intros K; apply S1 in K; discriminate K | ].
    split; [ intros K; congruence | ].
    split; [ intros K; apply S3 in K; discriminate K | intros K; congruence ].
Qed.

End TrendExact.

(** A strictly increasing list is determined by its elements. *)
Lemma sorted_same_elements (l1 l2 : list Z) :
  StronglySorted Z.lt l1 -> StronglySorted Z.lt l2 ->
  (forall y, In y l1 <-> In y l2) -> l1 = l2.
Proof.
  intros H1. revert l2. induction H1 as [ | a l1 H1 IH Ha ];
    intros l2 H2 Hin.
  - destruct l2 as [ | b l2 ]; [ reflexivity | ].
    destruct (proj2 (Hin b) (or_introl eq_refl)).
  - destruct H2 as [ | b l2 H2 Hb ].
    + destruct (proj1 (Hin a) (or_introl eq_refl)).
    + rewrite Forall_forall in Ha, Hb.
      assert (Eab : a = b).
      { destruct (proj1 (Hin a) (or_introl eq_refl)) as [ E | Hal2 ];
          [ now symmetry | ].
        destruct (proj2 (Hin b) (or_introl eq_refl)) as [ E | Hbl1 ];
          [ exact E | ].
        specialize (Ha b Hbl1). specialize (Hb a Hal2). lia. }
      subst b. f_equal. apply IH; [ exact H2 | ].
      intros y. split; intros Hy.
      * destruct (proj1 (Hin y) (or_intror Hy)) as [ E | K ]; [ | exact K ].
        subst y. specialize (Ha a Hy). lia.
      * destruct (proj2 (Hin y) (or_intror Hy)) as [ E | K ]; [ | exact K ].
        subst y. specialize (Hb a Hy). lia.
Qed.

(** C3 (amended): on a data set with rows (fewer than [2^53]) the rule
    works on the yearly counts, one per distinct departure year by
    increasing year.  With fewer than four distinct years it emits nothing:
    no earlier year is left and the earlier mean is NaN.  With at least
    four it compares the mean of the last three counts with the mean of
    the earlier counts in doubles: the upward-trend string is emitted when
    the exact recent mean exceeds 1.2 times the exact earlier mean by more
    than the fraction [2^-50], and only when it is not below it by more
    than that fraction; likewise the downward-trend string and 0.8 times
    the earlier mean; never both.  With the yearly counts 2, 2, 2, 10, 10
    the upward-trend string is emitted. *)
Theorem yearly_trend_rule (self : Analyzer) (d : Processed) :
  processed_data self = Some d ->
  d <> [] ->
  Z.of_nat (length d) < 2 ^ 53 ->
  exists l ys counts recent earlier,
    generate_insights self =
      (Returns tt,
       {| data := data self; processed_data := processed_data self;
          insights := l |}) /\
    StronglySorted Z.lt ys /\
    (forall y, In y ys <-> In y (map (fun r => leave_year (emp r)) d)) /\
    counts
    = map (fun y => count_occ Z.eq_dec
                      (map (fun r => leave_year (emp r)) d) y) ys /\
    recent = skipn (length counts - 3) counts /\
    earlier = firstn (length counts - 3) counts /\
    ~ (In "📈 اتجاه تصاعدي واضح في معدل الاستقالات خلال السنوات الأخيرة" l /\ In "📉 انخفاض ملحوظ في معدل الاستقالات مؤخراً" l) /\
    ((length ys < 4)%nat -> ~ In "📈 اتجاه تصاعدي واضح في معدل الاستقالات خلال السنوات الأخيرة" l /\ ~ In "📉 انخفاض ملحوظ في معدل الاستقالات مؤخراً" l) /\
    ((4 <= length ys)%nat ->
     (((6 # 5)
       * (inject_Z (Z.of_nat (list_sum earlier))
          / inject_Z (Z.of_nat (length earlier)))
       * (1 + (1 # 1125899906842624))
       < inject_Z (Z.of_nat (list_sum recent))
         / inject_Z (Z.of_nat (length recent)))%Q ->
      In "📈 اتجاه تصاعدي واضح في معدل الاستقالات خلال السنوات الأخيرة" l) /\
     (In "📈 اتجاه تصاعدي واضح في معدل الاستقالات خلال السنوات الأخيرة" l ->
      ((6 # 5)
       * (inject_Z (Z.of_nat (list_sum earlier))
          / inject_Z (Z.of_nat (length earlier)))
       * (1 - (1 # 1125899906842624))
       <= inject_Z (Z.of_nat (list_sum recent))
          / inject_Z (Z.of_nat (length recent)))%Q) /\
     ((inject_Z (Z.of_nat (list_sum recent))
       / inject_Z (Z.of_nat (length recent))
       < (4 # 5)
         * (inject_Z (Z.of_nat (list_sum earlier))
            / inject_Z (Z.of_nat (length earlier)))
         * (1 - (1 # 1125899906842624)))%Q ->
      In "📉 انخفاض ملحوظ في معدل الاستقالات مؤخراً" l) /\
     (In "📉 انخفاض ملحوظ في معدل الاستقالات مؤخراً" l ->
      (inject_Z (Z.of_nat (list_sum recent))
       / inject_Z (Z.of_nat (length recent))
       <= (4 # 5)
          * (inject_Z (Z.of_nat (list_sum earlier))
             / inject_Z (Z.of_nat (length earlier)))
          * (1 + (1 # 1125899906842624)))%Q)) /\
    (counts = [2; 2; 2; 10; 10]%nat -> In "📈 اتجاه تصاعدي واضح في معدل الاستقالات خلال السنوات الأخيرة" l).
Proof.
  intros Hdata Hrows Hn.
  destruct (compute_insights_nonempty d Hrows) as (top & dept & _ & _ & E).
  destruct (yearly_trend_spec d) as (ys & Hs & Hys & Ey).
  pose proof (yearly_trend_length d) as Hlen.
  assert (Lys : length ys = length (yearly_trend d))
    by (rewrite Ey; now rewrite length_map).
  eexists. exists ys, (yearly_trend d).
  exists (skipn (length (yearly_trend d) - 3) (yearly_trend d)),
         (firstn (length (yearly_trend d) - 3) (yearly_trend d)).
  split; [ exact (generate_insights_returns self d _ Hdata E) | ].
  split; [ exact Hs | ]. split; [ exact Hys | ]. split; [ exact Ey | ].
  split; [ reflexivity | ]. split; [ reflexivity | ].
  change "📈 اتجاه تصاعدي واضح في معدل الاستقالات خلال السنوات الأخيرة" with upward_trend. change "📉 انخفاض ملحوظ في معدل الاستقالات مؤخراً" with downward_trend.
  rewrite !trend_strings_only_from_trend_rule by auto.
  assert (Iup : In upward_trend (trend_rule d)
                <-> trend_rule d = [upward_trend]).
  { destruct (TrendExact.trend_rule_results d) as [ -> | [ -> | -> ] ];
      split; intros K; try reflexivity; try (now left);
      try discriminate K; try (destruct K as [ K | [] ]; discriminate K);
      try contradiction. }
  assert (Idown : In downward_trend (trend_rule d)
                  <-> trend_rule d = [downward_trend]).
  { destruct (TrendExact.trend_rule_results d) as [ -> | [ -> | -> ] ];
      split; intros K; try reflexivity; try (now left);
      try discriminate K; try (destruct K as [ K | [] ]; discriminate K);
      try contradiction. }
  rewrite Iup, Idown.
  split.
  { intros [K1 K2]. rewrite K1 in K2. discriminate K2. }
  split.
  { intros H. rewrite (trend_rule_few_years d) by lia.
    split; discriminate. }
  split.
  { intros H. apply TrendExact.trend_rule_exact; [ lia | exact Hn ]. }
  intros H. unfold trend_rule, recent_years, earlier_years. rewrite H.
  reflexivity.
Qed.

Lemma yearly_trend_rule_witness :
  exists l,
    insights (snd (generate_insights (loaded rising_years))) = l /\
    In "📈 اتجاه تصاعدي واضح في معدل الاستقالات خلال السنوات الأخيرة" l.
Proof.
  destruct (yearly_trend_rule (loaded rising_years)
              (map categorize rising_years))
    as (l & ys & counts & recent & earlier & E & Hs & Hys & Ec & _ & _ & _ & _
        & _ & H).
  - reflexivity.
  - discriminate.
  - vm_compute. reflexivity.
  - exists l. rewrite E. split; [ reflexivity | ].
    apply H. rewrite Ec.
    assert (Eys : ys = [2020; 2021; 2022; 2023; 2024]).
    { apply (sorted_same_elements ys [2020; 2021; 2022; 2023; 2024] Hs).
      - repeat constructor; lia.
      - intros y. rewrite Hys. vm_compute. tauto. }
    rewrite Eys. vm_compute. reflexivity.
Defined.

(** C3, as stated, fails at an exact tie: with the yearly counts 1, 2, 2,
    1, 1, 2 the mean of the last three counts, 4/3, is exactly 0.8 times
    the mean of the earlier ones, 5/3, and so is not below it; the code
    emits the downward-trend string all the same, because the double
    product of the double mean with the double 0.8 rounds to the next
    double above the double nearest to 4/3. *)
Lemma trend_fires_at_exact_tie :
  yearly_trend (map categorize tied_years) = [1; 2; 2; 1; 1; 2]%nat /\
  skipn 3 [1; 2; 2; 1; 1; 2]%nat = [1; 1; 2]%nat /\
  firstn 3 [1; 2; 2; 1; 1; 2]%nat = [1; 2; 2]%nat /\
  (inject_Z (Z.of_nat (list_sum [1; 1; 2]%nat)) / inject_Z (Z.of_nat 3)
   == (4 # 5) * (inject_Z (Z.of_nat (list_sum [1; 2; 2]%nat))
                 / inject_Z (Z.of_nat 3)))%Q /\
  ~ (inject_Z (Z.of_nat (list_sum [1; 1; 2]%nat)) / inject_Z (Z.of_nat 3)
     < (4 # 5) * (inject_Z (Z.of_nat (list_sum [1; 2; 2]%nat))
                  / inject_Z (Z.of_nat 3)))%Q /\
  In "📉 انخفاض ملحوظ في معدل الاستقالات مؤخراً" (insights (loaded tied_years)).
Proof.
  split; [ vm_compute; reflexivity | ].
  split; [ reflexivity | ]. split; [ reflexivity | ].
  split; [ reflexivity | ].
  split; [ intros K; vm_compute in K; discriminate K | ].
  vm_compute. right. right. left. reflexivity.
Qed.
